(** * Loki MCP protocol handlers: a shallow embedding and its properties

    The development follows [internal/handlers/loki_protocol.go].  The three
    tool handlers are written as programs over the calls they make to the
    outside (argument decoding, the clock, the time parser, the URL builders,
    the backend executors and the formatters); a program is run against an
    arbitrary responder and the calls it made are collected in a trace. *)

From Stdlib Require Import ZArith String Ascii List Lia Bool.
From Stdlib Require Import Floats.SpecFloat.
From Stdlib Require Import DecimalString DecimalN DecimalZ.
From stdpp Require Import gmap strings list.

Local Open Scope string_scope.
Local Open Scope Z_scope.

(** ** Go values *)

(** A Go [error] value is represented by its message. *)
Definition error := string.

(** The Go idiom [(T, error)]: either a value or a non-nil error. *)
Inductive result (A : Type) : Type :=
| Ok (a : A)
| Err (e : error).
Arguments Ok {A} a.
Arguments Err {A} e.

Definition is_ok {A} (r : result A) : bool :=
  match r with Ok _ => true | Err _ => false end.

(** [time.Time] as an instant counted in nanoseconds since the Unix epoch,
    [time.Duration] as a number of nanoseconds. *)
Definition Time := Z.
Definition Duration := Z.

Definition Second : Duration := 1000000000.
Definition Minute : Duration := 60 * Second.
Definition Hour : Duration := 60 * Minute.

(** [t.Add(d)] *)
Definition Time_Add (t : Time) (d : Duration) : Time := t + d.

(** [t.Unix()]: whole seconds since the epoch; the nanosecond part of a
    [time.Time] lies in [0, 1e9), so the seconds are the floor. *)
Definition Time_Unix (t : Time) : Z := t / Second.

(** ** float64 and the conversion [int(f)] *)

(** A [float64] is an IEEE 754 binary64 datum. *)
Definition float64 := spec_float.

Definition prec64 : Z := 53.
Definition emax64 : Z := 1024.

Definition float64_valid (f : float64) : bool := valid_binary prec64 emax64 f.

(** [f > 0] on float64 (false on NaN and on both zeroes). *)
Definition float64_gt0 (f : float64) : bool := SFltb (S754_zero false) f.

(** The real number [m * 2^e] with its fraction discarded, for [m > 0]. *)
Definition trunc_pos (m : positive) (e : Z) : Z :=
  if 0 <=? e then Z.shiftl (Zpos m) e else Z.shiftr (Zpos m) (- e).

(** Truncation towards zero of a finite float; 0 on the other data. *)
Definition float64_trunc (f : float64) : Z :=
  match f with
  | S754_finite s m e => if s then - trunc_pos m e else trunc_pos m e
  | _ => 0
  end.

Definition float64_finite (f : float64) : bool :=
  match f with
  | S754_finite _ _ _ | S754_zero _ => true
  | _ => false
  end.

Definition MinInt : Z := - 2 ^ 63.
Definition MaxInt : Z := 2 ^ 63 - 1.

(** Whether the truncated value is representable in a 64-bit [int]. *)
Definition float64_fits_int (f : float64) : bool :=
  float64_finite f && (MinInt <=? float64_trunc f) && (float64_trunc f <=? MaxInt).

(** The conversion [int(f)]: the fraction is discarded; when the value is
    not representable the Go specification leaves the result to the
    implementation, which is the function [unrepresentable] here. *)
Definition float64_to_int (unrepresentable : float64 -> Z) (f : float64) : Z :=
  if float64_fits_int f then float64_trunc f else unrepresentable f.

(** An absent limit (Go's zero value), a zero or a negative one. *)
Definition float64_not_positive (f : float64) : bool :=
  match f with
  | S754_zero _ | S754_finite true _ _ | S754_infinity true => true
  | _ => false
  end.

(** ** Request and result types *)

(** Arguments of the [loki_query] tool.  A field that is absent from the
    JSON payload keeps Go's zero value: the empty string, or 0 for [Limit].
    The field [End_] is the source's [End]. *)
Module LokiQueryRequest.
Record t : Type := mk {
  Query : string;
  URL : string;
  Username : string;
  Password : string;
  Token : string;
  Start : string;
  End_ : string;
  Limit : float64;
  Org : string;
  Format : string
}.
End LokiQueryRequest.

(** Arguments of the [loki_label_names] tool. *)
Module LokiLabelNamesRequest.
Record t : Type := mk {
  URL : string;
  Username : string;
  Password : string;
  Token : string;
  Start : string;
  End_ : string;
  Org : string;
  Format : string
}.
End LokiLabelNamesRequest.

(** Arguments of the [loki_label_values] tool. *)
Module LokiLabelValuesRequest.
Record t : Type := mk {
  Label : string;
  URL : string;
  Username : string;
  Password : string;
  Token : string;
  Start : string;
  End_ : string;
  Org : string;
  Format : string
}.
End LokiLabelValuesRequest.

(** The raw JSON argument payload of a tool call, as bytes. *)
Definition RawArguments := string.

Record CallToolRequest : Type := {
  Name : string;
  RawArgs : RawArguments
}.

(** [protocol.TextContent] *)
Record TextContent : Type := {
  Type_ : string;
  Text : string
}.

(** [protocol.CallToolResult]: the content blocks of a successful call. *)
Record CallToolResult : Type := {
  Content : list TextContent
}.

(** Modelled from the spec: the Go types of the decoded backend responses
    are declared outside the files at hand.  The data model gives a query
    result as a status field and a result set whose entries pair a mapping
    from label names to label values with an ordered sequence of
    (timestamp, line) pairs; a labels result (label names, or the values of
    one label) is a status field and an ordered sequence of strings. *)
Record StreamEntry : Type := {
  stream : gmap string string;
  values : list (string * string)
}.

Record BackendQueryResult : Type := {
  query_status : string;
  query_result : list StreamEntry
}.

Record BackendLabelsResult : Type := {
  labels_status : string;
  labels_data : list string
}.

Definition BackendLabelValuesResult := BackendLabelsResult.

(** Modelled from the spec: the names of the five environment variables and
    the default backend address are constants declared outside the files at
    hand; the spec only says there is one variable per field and a fixed
    local default address.  The names below are those of the README. *)
Definition EnvLokiURL : string := "LOKI_URL".
Definition EnvLokiOrgID : string := "LOKI_ORG_ID".
Definition EnvLokiUsername : string := "LOKI_USERNAME".
Definition EnvLokiPassword : string := "LOKI_PASSWORD".
Definition EnvLokiToken : string := "LOKI_TOKEN".
Definition DefaultLokiURL : string := "http://localhost:3100".

(** ** Calls to the outside *)

(** The functions the handlers call and whose bodies are not in
    [loki_protocol.go], each with the type of its answer.  [call_Now] is
    [time.Now()]; the three [call_VerifyAndUnmarshal*] are
    [protocol.VerifyAndUnmarshal] at the three request types.  The
    [context.Context] argument of the executors is not represented. *)
Inductive event : Type -> Type :=
| call_VerifyAndUnmarshalQuery (raw : RawArguments) :
    event (result LokiQueryRequest.t)
| call_VerifyAndUnmarshalLabelNames (raw : RawArguments) :
    event (result LokiLabelNamesRequest.t)
| call_VerifyAndUnmarshalLabelValues (raw : RawArguments) :
    event (result LokiLabelValuesRequest.t)
| call_Now : event Time
| call_parseTime (timeStr : string) : event (result Time)
| call_buildLokiQueryURL (baseURL query : string) (start end_ : Z) (limit : Z) :
    event (result string)
| call_buildLokiLabelsURL (baseURL : string) (start end_ : Z) :
    event (result string)
| call_buildLokiLabelValuesURL (baseURL label : string) (start end_ : Z) :
    event (result string)
| call_executeLokiQuery (url username password token orgID : string) :
    event (result BackendQueryResult)
| call_executeLokiLabelsQuery (url username password token orgID : string) :
    event (result BackendLabelsResult)
| call_executeLokiLabelValuesQuery (url username password token orgID : string) :
    event (result BackendLabelValuesResult)
| call_formatLokiResults (r : BackendQueryResult) (format : string) :
    event (result string)
| call_formatLokiLabelsResults (r : BackendLabelsResult) (format : string) :
    event (result string)
| call_formatLokiLabelValuesResults (label : string) (r : BackendLabelValuesResult)
    (format : string) : event (result string).

(** A program: it returns, or makes a call and goes on with the answer. *)
Inductive prog (A : Type) : Type :=
| Ret (a : A)
| Vis (R : Type) (e : event R) (k : R -> prog A).
Arguments Ret {A} a.
Arguments Vis {A R} e k.

Fixpoint bind {A B} (m : prog A) (f : A -> prog B) : prog B :=
  match m with
  | Ret a => f a
  | Vis e k => Vis e (fun r => bind (k r) f)
  end.

Definition trigger {R} (e : event R) : prog R := Vis e Ret.

(** [bindE m f]: go on with the value of [m], or return its error at once
    (the Go idiom [if err != nil { return nil, err }]). *)
Definition bindE {A B} (m : prog (result A)) (f : A -> prog (result B))
  : prog (result B) :=
  bind m (fun r => match r with Ok a => f a | Err e => Ret (Err e) end).

(** [orErrorf m prefix]: as [m], its error rewritten by
    [fmt.Errorf(prefix + "%v", err)]. *)
Definition Errorf (prefix : string) (err : error) : error := prefix +:+ err.

Definition orErrorf {A} (m : prog (result A)) (prefix : string) : prog (result A) :=
  bind m (fun r => Ret (match r with Ok a => Ok a | Err e => Err (Errorf prefix e) end)).

Declare Scope prog_scope.
Delimit Scope prog_scope with prog.
Notation "x <- m ;; k" := (bind m (fun x => k))
  (at level 100, m at next level, right associativity) : prog_scope.
Notation "x <-? m ;; k" := (bindE m (fun x => k))
  (at level 100, m at next level, right associativity) : prog_scope.
Local Open Scope prog_scope.

(** ** The handlers *)

Section Handlers.

(** The process environment, read by [os.Getenv] (the empty string for a
    variable that is not set), and the platform's answer for a
    float-to-int conversion of an unrepresentable value. *)
Variable os_Getenv : string -> string.
Variable unrepresentable : float64 -> Z.

(** [getEnvOrDefault] returns the value if not empty, otherwise checks
    the environment variable, otherwise returns the default. *)
Definition getEnvOrDefault (value envKey defaultValue : string) : string :=
  if negb (value =? "")%string then value
  else
    let envValue := os_Getenv envKey in
    if negb (envValue =? "")%string then envValue
    else defaultValue.

Definition text_result (formattedResult : string) : CallToolResult :=
  {| Content := [ {| Type_ := "text"; Text := formattedResult |} ] |}.

(** [HandleLokiQueryProtocol] *)
Definition HandleLokiQueryProtocol (request : CallToolRequest)
  : prog (result CallToolResult) :=
  req <-? trigger (call_VerifyAndUnmarshalQuery (RawArgs request)) ;;
  let lokiURL := getEnvOrDefault (LokiQueryRequest.URL req) EnvLokiURL DefaultLokiURL in
  let username := getEnvOrDefault (LokiQueryRequest.Username req) EnvLokiUsername "" in
  let password := getEnvOrDefault (LokiQueryRequest.Password req) EnvLokiPassword "" in
  let token := getEnvOrDefault (LokiQueryRequest.Token req) EnvLokiToken "" in
  let orgID := getEnvOrDefault (LokiQueryRequest.Org req) EnvLokiOrgID "" in
  now1 <- trigger call_Now ;;
  let start := Time_Unix (Time_Add now1 (-1 * Hour)) in
  now2 <- trigger call_Now ;;
  let end_ := Time_Unix now2 in
  let limit := 100 in
  start <-? (if negb (LokiQueryRequest.Start req =? "")%string then
               startTime <-? orErrorf (trigger (call_parseTime (LokiQueryRequest.Start req)))
                                      "invalid start time: " ;;
               Ret (Ok (Time_Unix startTime))
             else Ret (Ok start)) ;;
  end_ <-? (if negb (LokiQueryRequest.End_ req =? "")%string then
              endTime <-? orErrorf (trigger (call_parseTime (LokiQueryRequest.End_ req)))
                                   "invalid end time: " ;;
              Ret (Ok (Time_Unix endTime))
            else Ret (Ok end_)) ;;
  let limit := if float64_gt0 (LokiQueryRequest.Limit req)
               then float64_to_int unrepresentable (LokiQueryRequest.Limit req)
               else limit in
  let format := if negb (LokiQueryRequest.Format req =? "")%string
                then LokiQueryRequest.Format req else "raw" in
  queryURL <-? orErrorf (trigger (call_buildLokiQueryURL lokiURL
                           (LokiQueryRequest.Query req) start end_ limit))
                        "failed to build query URL: " ;;
  result <-? orErrorf (trigger (call_executeLokiQuery queryURL username password token orgID))
                      "query execution failed: " ;;
  formattedResult <-? orErrorf (trigger (call_formatLokiResults result format))
                               "failed to format results: " ;;
  Ret (Ok (text_result formattedResult)).

(** [HandleLokiLabelNamesProtocol] *)
Definition HandleLokiLabelNamesProtocol (request : CallToolRequest)
  : prog (result CallToolResult) :=
  req <-? trigger (call_VerifyAndUnmarshalLabelNames (RawArgs request)) ;;
  let lokiURL := getEnvOrDefault (LokiLabelNamesRequest.URL req) EnvLokiURL DefaultLokiURL in
  let username := getEnvOrDefault (LokiLabelNamesRequest.Username req) EnvLokiUsername "" in
  let password := getEnvOrDefault (LokiLabelNamesRequest.Password req) EnvLokiPassword "" in
  let token := getEnvOrDefault (LokiLabelNamesRequest.Token req) EnvLokiToken "" in
  let orgID := getEnvOrDefault (LokiLabelNamesRequest.Org req) EnvLokiOrgID "" in
  now1 <- trigger call_Now ;;
  let start := Time_Unix (Time_Add now1 (-1 * Hour)) in
  now2 <- trigger call_Now ;;
  let end_ := Time_Unix now2 in
  start <-? (if negb (LokiLabelNamesRequest.Start req =? "")%string then
               startTime <-? orErrorf (trigger (call_parseTime (LokiLabelNamesRequest.Start req)))
                                      "invalid start time: " ;;
               Ret (Ok (Time_Unix startTime))
             else Ret (Ok start)) ;;
  end_ <-? (if negb (LokiLabelNamesRequest.End_ req =? "")%string then
              endTime <-? orErrorf (trigger (call_parseTime (LokiLabelNamesRequest.End_ req)))
                                   "invalid end time: " ;;
              Ret (Ok (Time_Unix endTime))
            else Ret (Ok end_)) ;;
  let format := if negb (LokiLabelNamesRequest.Format req =? "")%string
                then LokiLabelNamesRequest.Format req else "raw" in
  labelsURL <-? orErrorf (trigger (call_buildLokiLabelsURL lokiURL start end_))
                         "failed to build labels URL: " ;;
  result <-? orErrorf (trigger (call_executeLokiLabelsQuery labelsURL username password token orgID))
                      "labels query execution failed: " ;;
  formattedResult <-? orErrorf (trigger (call_formatLokiLabelsResults result format))
                               "failed to format results: " ;;
  Ret (Ok (text_result formattedResult)).

(** [HandleLokiLabelValuesProtocol] *)
Definition HandleLokiLabelValuesProtocol (request : CallToolRequest)
  : prog (result CallToolResult) :=
  req <-? trigger (call_VerifyAndUnmarshalLabelValues (RawArgs request)) ;;
  let lokiURL := getEnvOrDefault (LokiLabelValuesRequest.URL req) EnvLokiURL DefaultLokiURL in
  let username := getEnvOrDefault (LokiLabelValuesRequest.Username req) EnvLokiUsername "" in
  let password := getEnvOrDefault (LokiLabelValuesRequest.Password req) EnvLokiPassword "" in
  let token := getEnvOrDefault (LokiLabelValuesRequest.Token req) EnvLokiToken "" in
  let orgID := getEnvOrDefault (LokiLabelValuesRequest.Org req) EnvLokiOrgID "" in
  now1 <- trigger call_Now ;;
  let start := Time_Unix (Time_Add now1 (-1 * Hour)) in
  now2 <- trigger call_Now ;;
  let end_ := Time_Unix now2 in
  start <-? (if negb (LokiLabelValuesRequest.Start req =? "")%string then
               startTime <-? orErrorf (trigger (call_parseTime (LokiLabelValuesRequest.Start req)))
                                      "invalid start time: " ;;
               Ret (Ok (Time_Unix startTime))
             else Ret (Ok start)) ;;
  end_ <-? (if negb (LokiLabelValuesRequest.End_ req =? "")%string then
              endTime <-? orErrorf (trigger (call_parseTime (LokiLabelValuesRequest.End_ req)))
                                   "invalid end time: " ;;
              Ret (Ok (Time_Unix endTime))
            else Ret (Ok end_)) ;;
  let format := if negb (LokiLabelValuesRequest.Format req =? "")%string
                then LokiLabelValuesRequest.Format req else "raw" in
  labelValuesURL <-? orErrorf (trigger (call_buildLokiLabelValuesURL lokiURL
                                 (LokiLabelValuesRequest.Label req) start end_))
                              "failed to build label values URL: " ;;
  result <-? orErrorf (trigger (call_executeLokiLabelValuesQuery labelValuesURL
                                  username password token orgID))
                      "label values query execution failed: " ;;
  formattedResult <-? orErrorf (trigger (call_formatLokiLabelValuesResults
                                           (LokiLabelValuesRequest.Label req) result format))
                               "failed to format results: " ;;
  Ret (Ok (text_result formattedResult)).

End Handlers.

(** ** Running a program *)

(** One call that was made, with the answer it got. *)
Inductive call : Type :=
| Call {R : Type} (e : event R) (r : R).

(** The outside: it answers every call, and may change from call to call. *)
Definition responder (W : Type) : Type := forall R : Type, event R -> W -> R * W.

(** [run o p w]: the value [p] returns against [o] from the state [w], the
    final state, and the calls made, first to last. *)
Fixpoint run {W A} (o : responder W) (p : prog A) (w : W) : A * W * list call :=
  match p with
  | Ret a => (a, w, [])
  | Vis e k =>
      let '(r, w1) := o _ e w in
      let '(a, w2, tr) := run o (k r) w1 in
      (a, w2, Call e r :: tr)
  end.

Definition outcome {W A} (o : responder W) (p : prog A) (w : W) : A := (run o p w).1.1.
Definition trace {W A} (o : responder W) (p : prog A) (w : W) : list call := (run o p w).2.

(** ** Observations on traces *)

(** The pipeline step a call belongs to. *)
Inductive step : Type :=
| StepDecode | StepClock | StepTimeParse | StepURLBuild | StepBackend | StepFormat.

Definition step_of {R} (e : event R) : step :=
  match e with
  | call_VerifyAndUnmarshalQuery _
  | call_VerifyAndUnmarshalLabelNames _
  | call_VerifyAndUnmarshalLabelValues _ => StepDecode
  | call_Now => StepClock
  | call_parseTime _ => StepTimeParse
  | call_buildLokiQueryURL _ _ _ _ _
  | call_buildLokiLabelsURL _ _ _
  | call_buildLokiLabelValuesURL _ _ _ _ => StepURLBuild
  | call_executeLokiQuery _ _ _ _ _
  | call_executeLokiLabelsQuery _ _ _ _ _
  | call_executeLokiLabelValuesQuery _ _ _ _ _ => StepBackend
  | call_formatLokiResults _ _
  | call_formatLokiLabelsResults _ _
  | call_formatLokiLabelValuesResults _ _ _ => StepFormat
  end.

Definition step_eqb (a b : step) : bool :=
  match a, b with
  | StepDecode, StepDecode | StepClock, StepClock | StepTimeParse, StepTimeParse
  | StepURLBuild, StepURLBuild | StepBackend, StepBackend | StepFormat, StepFormat => true
  | _, _ => false
  end.

Definition call_step (c : call) : step :=
  match c with Call e _ => step_of e end.

(** The error a call answered with, if it failed. *)
Definition answer_error {R} (e : event R) : R -> option error :=
  let err {A} (r : result A) : option error :=
    match r with Ok _ => None | Err m => Some m end in
  match e in event R return R -> option error with
  | call_Now => fun _ => None
  | call_VerifyAndUnmarshalQuery _ => err
  | call_VerifyAndUnmarshalLabelNames _ => err
  | call_VerifyAndUnmarshalLabelValues _ => err
  | call_parseTime _ => err
  | call_buildLokiQueryURL _ _ _ _ _ => err
  | call_buildLokiLabelsURL _ _ _ => err
  | call_buildLokiLabelValuesURL _ _ _ _ => err
  | call_executeLokiQuery _ _ _ _ _ => err
  | call_executeLokiLabelsQuery _ _ _ _ _ => err
  | call_executeLokiLabelValuesQuery _ _ _ _ _ => err
  | call_formatLokiResults _ _ => err
  | call_formatLokiLabelsResults _ _ => err
  | call_formatLokiLabelValuesResults _ _ _ => err
  end.

Definition call_error (c : call) : option error :=
  match c with Call e r => answer_error e r end.

Definition call_ok (c : call) : bool :=
  match call_error c with None => true | Some _ => false end.

(** The string a formatter call produced. *)
Definition answer_formatted {R} (e : event R) : R -> option string :=
  let str (r : result string) : option string :=
    match r with Ok s => Some s | Err _ => None end in
  match e in event R return R -> option string with
  | call_formatLokiResults _ _ => str
  | call_formatLokiLabelsResults _ _ => str
  | call_formatLokiLabelValuesResults _ _ _ => str
  | _ => fun _ => None
  end.

Definition call_formatted (c : call) : option string :=
  match c with Call e r => answer_formatted e r end.

(** The time expressions handed to [parseTime], in call order. *)
Definition parse_args (tr : list call) : list string :=
  flat_map (fun c => match c with
                     | Call (call_parseTime s) _ => [s]
                     | Call _ _ => []
                     end) tr.

(** The calls to [parseTime] with their answers, in call order. *)
Definition parse_calls (tr : list call) : list (string * result Time) :=
  flat_map (fun c => match c with
                     | Call (call_parseTime s) r => [(s, r)]
                     | Call _ _ => []
                     end) tr.

(** The readings [time.Now()] returned, in call order. *)
Definition clock_readings (tr : list call) : list Time :=
  flat_map (fun c => match c with
                     | Call call_Now t => [t]
                     | Call _ _ => []
                     end) tr.

(** The (start, end) bounds handed to the URL builders, in call order. *)
Definition build_bounds (tr : list call) : list (Z * Z) :=
  flat_map (fun c => match c with
                     | Call (call_buildLokiQueryURL _ _ st en _) _
                     | Call (call_buildLokiLabelsURL _ st en) _
                     | Call (call_buildLokiLabelValuesURL _ _ st en) _ => [(st, en)]
                     | Call _ _ => []
                     end) tr.

(** The limits handed to the query URL builder. *)
Definition build_limits (tr : list call) : list Z :=
  flat_map (fun c => match c with
                     | Call (call_buildLokiQueryURL _ _ _ _ limit) _ => [limit]
                     | Call _ _ => []
                     end) tr.

(** The calls of one pipeline step. *)
Definition calls_of (st : step) (tr : list call) : list call :=
  List.filter (fun c => step_eqb (call_step c) st) tr.

(** The start and end arguments of a successfully decoded request. *)
Definition answer_range {R} (e : event R) : R -> option (string * string) :=
  match e in event R return R -> option (string * string) with
  | call_VerifyAndUnmarshalQuery _ => fun r =>
      match r with
      | Ok req => Some (LokiQueryRequest.Start req, LokiQueryRequest.End_ req)
      | Err _ => None
      end
  | call_VerifyAndUnmarshalLabelNames _ => fun r =>
      match r with
      | Ok req => Some (LokiLabelNamesRequest.Start req, LokiLabelNamesRequest.End_ req)
      | Err _ => None
      end
  | call_VerifyAndUnmarshalLabelValues _ => fun r =>
      match r with
      | Ok req => Some (LokiLabelValuesRequest.Start req, LokiLabelValuesRequest.End_ req)
      | Err _ => None
      end
  | _ => fun _ => None
  end.

Definition decoded_range (c : call) : option (string * string) :=
  match c with Call e r => answer_range e r end.

(** The limit argument of a successfully decoded [loki_query] request. *)
Definition answer_limit {R} (e : event R) : R -> option float64 :=
  match e in event R return R -> option float64 with
  | call_VerifyAndUnmarshalQuery _ => fun r =>
      match r with
      | Ok req => Some (LokiQueryRequest.Limit req)
      | Err _ => None
      end
  | _ => fun _ => None
  end.

Definition decoded_limit (c : call) : option float64 :=
  match c with Call e r => answer_limit e r end.

(** The username, password, token and organization id of a successfully
    decoded request, as the caller gave them. *)
Definition answer_credentials {R} (e : event R)
  : R -> option (string * string * string * string) :=
  match e in event R return R -> option (string * string * string * string) with
  | call_VerifyAndUnmarshalQuery _ => fun r =>
      match r with
      | Ok req => Some (LokiQueryRequest.Username req, LokiQueryRequest.Password req,
                        LokiQueryRequest.Token req, LokiQueryRequest.Org req)
      | Err _ => None
      end
  | call_VerifyAndUnmarshalLabelNames _ => fun r =>
      match r with
      | Ok req => Some (LokiLabelNamesRequest.Username req, LokiLabelNamesRequest.Password req,
                        LokiLabelNamesRequest.Token req, LokiLabelNamesRequest.Org req)
      | Err _ => None
      end
  | call_VerifyAndUnmarshalLabelValues _ => fun r =>
      match r with
      | Ok req => Some (LokiLabelValuesRequest.Username req, LokiLabelValuesRequest.Password req,
                        LokiLabelValuesRequest.Token req, LokiLabelValuesRequest.Org req)
      | Err _ => None
      end
  | _ => fun _ => None
  end.

Definition decoded_credentials (c : call) : option (string * string * string * string) :=
  match c with Call e r => answer_credentials e r end.

(** The username, password, token and organization id handed to the
    executors, in call order. *)
Definition backend_credentials (tr : list call) : list (string * string * string * string) :=
  flat_map (fun c => match c with
                     | Call (call_executeLokiQuery _ u p t org) _
                     | Call (call_executeLokiLabelsQuery _ u p t org) _
                     | Call (call_executeLokiLabelValuesQuery _ u p t org) _ => [(u, p, t, org)]
                     | Call _ _ => []
                     end) tr.

(** The steps of a run in which every call succeeded, [n] of them
    resolving a time expression. *)
Definition steps_of_success (n : nat) : list step :=
  [StepDecode; StepClock; StepClock] ++ replicate n StepTimeParse
    ++ [StepURLBuild; StepBackend; StepFormat].

(** The non-empty ones among the start and end arguments. *)
Definition supplied (start end_ : string) : list string :=
  List.filter (fun s => negb (s =? "")%string) [start; end_].

(** ** The three operations *)

(** The tools registered by [cmd/server/main.go], each with its handler. *)
Inductive operation : Type := loki_query | loki_label_names | loki_label_values.

Definition tool_name (op : operation) : string :=
  match op with
  | loki_query => "loki_query"
  | loki_label_names => "loki_label_names"
  | loki_label_values => "loki_label_values"
  end.

Definition registered_handler (os_Getenv : string -> string) (unrepresentable : float64 -> Z)
    (op : operation) : CallToolRequest -> prog (result CallToolResult) :=
  match op with
  | loki_query => HandleLokiQueryProtocol os_Getenv unrepresentable
  | loki_label_names => HandleLokiLabelNamesProtocol os_Getenv
  | loki_label_values => HandleLokiLabelValuesProtocol os_Getenv
  end.

(** The call every handler opens with: the raw arguments of the request
    are decoded into the request structure of the operation.  This is that
    call with the answer the outside gives to it from the state [w]. *)
Definition decode_call {W} (o : responder W) (op : operation) (request : CallToolRequest)
    (w : W) : call :=
  match op with
  | loki_query =>
      Call (call_VerifyAndUnmarshalQuery (RawArgs request))
        (o _ (call_VerifyAndUnmarshalQuery (RawArgs request)) w).1
  | loki_label_names =>
      Call (call_VerifyAndUnmarshalLabelNames (RawArgs request))
        (o _ (call_VerifyAndUnmarshalLabelNames (RawArgs request)) w).1
  | loki_label_values =>
      Call (call_VerifyAndUnmarshalLabelValues (RawArgs request))
        (o _ (call_VerifyAndUnmarshalLabelValues (RawArgs request)) w).1
  end.

(** ** The failures of the design's taxonomy *)

(** Modelled from the spec: the error taxonomy of the design; the components
    below that are modelled from the spec fail with one of these. *)
Inductive failure : Type :=
| ArgumentDecodeError
| InvalidTimeExpression
| MalformedBaseURL
| BackendUnreachable
| BackendHTTPError (status : Z) (body : string)
| BackendDecodeError
| UnsupportedFormat
| FormatRenderError.

(** ** Decimal numerals *)

(** The decimal numeral of an integer, as [%d] prints it, and its reading. *)
Definition FormatInt (z : Z) : string := NilZero.string_of_int (Z.to_int z).

Definition ParseInt (s : string) : option Z :=
  match NilZero.int_of_string s with
  | Some d => Some (Z.of_int d)
  | None => None
  end.

(** ** Time expression resolver *)

Module TimeExpr.

(** Modelled from the spec: [parseTime] is declared outside the files at
    hand.  The units of a relative offset: seconds, minutes, hours, days. *)
Inductive unit_ : Type := UnitS | UnitM | UnitH | UnitD.

Definition unit_suffix (u : unit_) : ascii :=
  match u with
  | UnitS => "s" | UnitM => "m" | UnitH => "h" | UnitD => "d"
  end%char.

Definition unit_of_suffix (c : ascii) : option unit_ :=
  if Ascii.eqb c "s" then Some UnitS
  else if Ascii.eqb c "m" then Some UnitM
  else if Ascii.eqb c "h" then Some UnitH
  else if Ascii.eqb c "d" then Some UnitD
  else None.

Definition unit_in_seconds (u : unit_) : Z :=
  match u with
  | UnitS => 1 | UnitM => 60 | UnitH => 3600 | UnitD => 86400
  end.

(** A string without its last character, and that character. *)
Fixpoint split_last (s : string) : option (string * ascii) :=
  match s with
  | EmptyString => None
  | String c EmptyString => Some (EmptyString, c)
  | String c rest =>
      match split_last rest with
      | Some (init, l) => Some (String c init, l)
      | None => None
      end
  end.

(** Modelled from the spec: grammar 2, a relative offset
    [-<integer><unit>]; the integer is a non-empty run of decimal digits.
    The answer is the integer and the unit. *)
Definition parse_relative (expr : string) : option (N * unit_) :=
  match expr with
  | String "-" rest =>
      match split_last rest with
      | Some (digits, c) =>
          match NilZero.uint_of_string digits, unit_of_suffix c with
          | Some d, Some u => Some (N.of_uint d, u)
          | _, _ => None
          end
      | None => None
      end
  | _ => None
  end.

Definition is_digit (c : ascii) : bool :=
  let n := N_of_ascii c in ((48 <=? n) && (n <=? 57))%N.

Definition digit_value (c : ascii) : Z := Z.of_N (N_of_ascii c) - 48.

(** Exactly [n] decimal digits at the head of [s]: their value (continuing
    [acc]) and the rest of [s]. *)
Fixpoint take_digits (n : nat) (acc : Z) (s : string) : option (Z * string) :=
  match n with
  | O => Some (acc, s)
  | S n' =>
      match s with
      | String c rest =>
          if is_digit c then take_digits n' (10 * acc + digit_value c) rest else None
      | EmptyString => None
      end
  end.

(** The literal character [c] at the head of [s]. *)
Definition expect (c : ascii) (s : string) : option string :=
  match s with
  | String c' rest => if Ascii.eqb c c' then Some rest else None
  | EmptyString => None
  end.

(** One of the characters [c1] and [c2] at the head of [s]: RFC 3339 lets
    the letters [T] and [Z] be written in lower case. *)
Definition expect_either (c1 c2 : ascii) (s : string) : option string :=
  match s with
  | String c rest => if Ascii.eqb c c1 || Ascii.eqb c c2 then Some rest else None
  | EmptyString => None
  end.

(** A run of decimal digits read as a fraction of a second, in
    nanoseconds; [scale] is the weight of the next digit.  Digits beyond
    the ninth are dropped. *)
Fixpoint take_fraction (scale : Z) (acc : Z) (s : string) : Z * string :=
  match s with
  | String c rest =>
      if is_digit c then take_fraction (scale / 10) (acc + digit_value c * scale) rest
      else (acc, s)
  | EmptyString => (acc, s)
  end.

(** The fraction of a second [.digits], when there is one: a point that no
    digit follows is left where it is. *)
Definition take_secfrac (s : string) : Z * string :=
  match s with
  | String p (String c rest) =>
      if Ascii.eqb p "." && is_digit c then take_fraction 100000000 0 (String c rest)
      else (0, s)
  | _ => (0, s)
  end.

Definition is_leap (y : Z) : bool :=
  ((y mod 4 =? 0) && negb (y mod 100 =? 0)) || (y mod 400 =? 0).

Definition days_in_month (y m : Z) : Z :=
  if m =? 2 then (if is_leap y then 29 else 28)
  else if (m =? 4) || (m =? 6) || (m =? 9) || (m =? 11) then 30
  else 31.

(** Days from 1970-01-01 to the civil date [y]-[m]-[d] (proleptic
    Gregorian calendar). *)
Definition days_from_civil (y m d : Z) : Z :=
  let y' := if m <=? 2 then y - 1 else y in
  let era := y' / 400 in
  let yoe := y' - era * 400 in
  let mp := if 2 <? m then m - 3 else m + 9 in
  let doy := (153 * mp + 2) / 5 + d - 1 in
  let doe := yoe * 365 + yoe / 4 - yoe / 100 + doy in
  era * 146097 + doe - 719468.

(** The zone of a timestamp as an offset from UTC in seconds: nothing
    (UTC is assumed), [Z] or [z], or [+hh:mm] / [-hh:mm]. *)
Definition parse_zone (s : string) : option Z :=
  match s with
  | EmptyString => Some 0
  | String c rest =>
      if Ascii.eqb c "Z" || Ascii.eqb c "z" then
        match rest with
        | EmptyString => Some 0
        | String _ _ => None
        end
      else if Ascii.eqb c "+" || Ascii.eqb c "-" then
        match take_digits 2 0 rest with
        | Some (hh, rest1) =>
            match expect ":" rest1 with
            | Some rest2 =>
                match take_digits 2 0 rest2 with
                | Some (mm, EmptyString) =>
                    if (hh <=? 23) && (mm <=? 59) then
                      let off := hh * 3600 + mm * 60 in
                      Some (if Ascii.eqb c "-" then - off else off)
                    else None
                | _ => None
                end
            | None => None
            end
        | None => None
        end
      else None
  end.

Definition bind_opt {A B} (o : option A) (f : A -> option B) : option B :=
  match o with Some a => f a | None => None end.

(** Modelled from the spec: grammar 3, an absolute RFC 3339 timestamp
    [YYYY-MM-DDThh:mm:ss[.fraction][zone]], UTC assumed when no zone is
    present; the answer is the instant.  As in RFC 3339 the letters [T] and
    [Z] may be in lower case and the second may be 60 (a leap second, which
    counts as the second after 59). *)
Definition parse_rfc3339 (expr : string) : option Time :=
  bind_opt (take_digits 4 0 expr) (fun '(year, s1) =>
  bind_opt (expect "-" s1) (fun s2 =>
  bind_opt (take_digits 2 0 s2) (fun '(month, s3) =>
  bind_opt (expect "-" s3) (fun s4 =>
  bind_opt (take_digits 2 0 s4) (fun '(day, s5) =>
  bind_opt (expect_either "T" "t" s5) (fun s6 =>
  bind_opt (take_digits 2 0 s6) (fun '(hour, s7) =>
  bind_opt (expect ":" s7) (fun s8 =>
  bind_opt (take_digits 2 0 s8) (fun '(minute, s9) =>
  bind_opt (expect ":" s9) (fun s10 =>
  bind_opt (take_digits 2 0 s10) (fun '(sec, s11) =>
  let '(nanos, s12) := take_secfrac s11 in
  bind_opt (parse_zone s12) (fun offset =>
  if (1 <=? month) && (month <=? 12) && (1 <=? day)
     && (day <=? days_in_month year month)
     && (hour <=? 23) && (minute <=? 59) && (sec <=? 60)
  then
    let secs := days_from_civil year month day * 86400
                + hour * 3600 + minute * 60 + sec - offset in
    Some (secs * Second + nanos)
  else None)))))))))))).

(** Modelled from the spec: [resolve(expr, reference)], the three grammars
    tried in order; [InvalidTimeExpression] when none matches. *)
Definition resolve (expr : string) (reference : Time) : failure + Time :=
  if (expr =? "now")%string then inr reference
  else
    match parse_relative expr with
    | Some (n, u) => inr (reference - Z.of_N n * unit_in_seconds u * Second)
    | None =>
        match parse_rfc3339 expr with
        | Some t => inr t
        | None => inl InvalidTimeExpression
        end
    end.

(** The relative expression [-<n><unit>] as a string. *)
Definition relative_expr (n : N) (u : unit_) : string :=
  String "-" (NilZero.string_of_uint (N.to_uint n) +:+ String (unit_suffix u) EmptyString).

(** *** The accepted grammars, written out

    The grammars of the spec as sets of strings, each given by the strings
    it produces and not by a recogniser. *)

(** Modelled from the spec: grammar 2.  A relative offset is [-], a
    non-empty decimal numeral and one of the four unit letters. *)
Definition matches_relative (expr : string) : Prop :=
  exists d u,
    expr = String "-" (NilZero.string_of_uint d +:+ String (unit_suffix u) EmptyString).

(** The zone of a timestamp: absent, the letter [Z] in either case, or a
    numeric offset with its sign, hours and minutes. *)
Inductive zone : Type :=
| ZoneAbsent
| ZoneUTC (lower_case : bool)
| ZoneOffset (negative : bool) (hours minutes : Z).

(** The fields of a timestamp as it is written: the date, the case of the
    letter between date and time, the time of day, the digits of the
    fraction of a second (none when there is no fraction) and the zone. *)
Record timestamp : Type := {
  ts_year : Z;
  ts_month : Z;
  ts_day : Z;
  ts_lower_t : bool;
  ts_hour : Z;
  ts_minute : Z;
  ts_second : Z;
  ts_fraction : string;
  ts_zone : zone
}.

(** The character of the decimal digit [d]. *)
Definition digit_char (d : Z) : ascii := ascii_of_N (Z.to_N (48 + d)).

(** [v] in two, and in four, decimal digits, in front of [rest]. *)
Definition put2 (v : Z) (rest : string) : string :=
  String (digit_char (v / 10)) (String (digit_char (v mod 10)) rest).

Definition put4 (v : Z) (rest : string) : string :=
  String (digit_char (v / 1000)) (String (digit_char (v / 100 mod 10))
    (put2 (v mod 100) rest)).

Fixpoint all_digits (s : string) : bool :=
  match s with
  | EmptyString => true
  | String c rest => is_digit c && all_digits rest
  end.

Definition render_zone (z : zone) : string :=
  match z with
  | ZoneAbsent => ""
  | ZoneUTC lower_case => if lower_case then "z" else "Z"
  | ZoneOffset negative hours minutes =>
      String (if negative then "-" else "+")%char (put2 hours (String ":" (put2 minutes "")))
  end.

Definition render_secfrac (fraction rest : string) : string :=
  match fraction with
  | EmptyString => rest
  | String _ _ => String "." (fraction +:+ rest)
  end.

(** Modelled from the spec: the text of a timestamp, after the grammar
    [date-time] of RFC 3339 (section 5.6): [full-date], [T] or [t],
    [partial-time] with its optional [time-secfrac], then the
    [time-offset], which the spec lets be absent. *)
Definition render (ts : timestamp) : string :=
  put4 (ts_year ts) (String "-" (put2 (ts_month ts) (String "-" (put2 (ts_day ts)
    (String (if ts_lower_t ts then "t" else "T")%char
      (put2 (ts_hour ts) (String ":" (put2 (ts_minute ts) (String ":"
        (put2 (ts_second ts)
           (render_secfrac (ts_fraction ts) (render_zone (ts_zone ts))))))))))))).

Definition zone_in_range (z : zone) : Prop :=
  match z with
  | ZoneOffset _ hours minutes => 0 <= hours <= 23 /\ 0 <= minutes <= 59
  | _ => True
  end.

(** The ranges of the fields (RFC 3339, section 5.7): a day of the month
    that exists in that month of that year, and a second up to 60. *)
Definition in_range (ts : timestamp) : Prop :=
  0 <= ts_year ts <= 9999
  /\ 1 <= ts_month ts <= 12
  /\ 1 <= ts_day ts <= days_in_month (ts_year ts) (ts_month ts)
  /\ 0 <= ts_hour ts <= 23
  /\ 0 <= ts_minute ts <= 59
  /\ 0 <= ts_second ts <= 60
  /\ all_digits (ts_fraction ts) = true
  /\ zone_in_range (ts_zone ts).

(** Modelled from the spec: grammar 3, the RFC 3339 timestamps. *)
Definition matches_rfc3339 (expr : string) : Prop :=
  exists ts, in_range ts /\ expr = render ts.

(** Modelled from the spec: the accepted grammars. *)
Definition matches_grammar (expr : string) : Prop :=
  expr = "now" \/ matches_relative expr \/ matches_rfc3339 expr.

End TimeExpr.

(** ** URL builder *)

Module URLBuilder.

(** A byte that stays as it is in an encoded URL component: letters,
    digits and [-], [.], [_], [~]. *)
Definition is_unreserved (c : ascii) : bool :=
  let n := N_of_ascii c in
  (((48 <=? n) && (n <=? 57)) || ((65 <=? n) && (n <=? 90)) || ((97 <=? n) && (n <=? 122))
   || (n =? 45) || (n =? 46) || (n =? 95) || (n =? 126))%N.

Definition hex_digit (n : N) : ascii :=
  ascii_of_N (if (n <? 10)%N then 48 + n else 55 + n)%N.

(** [%XX] for the byte [c]. *)
Definition percent_byte (c : ascii) : string :=
  let n := N_of_ascii c in
  String "%" (String (hex_digit (n / 16)) (String (hex_digit (n mod 16)) EmptyString)).

(** Modelled from the spec: percent-encoding of a query value or a path
    segment; every byte that is not unreserved is written [%XX]. *)
Fixpoint percent_encode (s : string) : string :=
  match s with
  | EmptyString => EmptyString
  | String c rest =>
      (if is_unreserved c then String c EmptyString else percent_byte c)
        +:+ percent_encode rest
  end.

(** The query part: [key=value] pairs joined by [&]. *)
Fixpoint encode_query (params : list (string * string)) : string :=
  match params with
  | [] => EmptyString
  | [(k, v)] => percent_encode k +:+ "=" +:+ percent_encode v
  | (k, v) :: rest => percent_encode k +:+ "=" +:+ percent_encode v +:+ "&" +:+ encode_query rest
  end.

(** A URL under construction: the base address, the path appended to it
    and the query parameters. *)
Record URL : Type := {
  url_base : string;
  url_path : string;
  url_query : list (string * string)
}.

Definition URL_String (u : URL) : string :=
  url_base u +:+ url_path u +:+ "?" +:+ encode_query (url_query u).

(** Modelled from the spec: the backend expects nanosecond timestamps, so a
    bound in seconds since the epoch is multiplied by 1e9 before encoding. *)
Definition nanoseconds (seconds : Z) : Z := seconds * 1000000000.

Definition query_url (baseURL query : string) (start end_ limit : Z) : URL :=
  {| url_base := baseURL;
     url_path := "/loki/api/v1/query_range";
     url_query := [("query", query);
                   ("start", FormatInt (nanoseconds start));
                   ("end", FormatInt (nanoseconds end_));
                   ("limit", FormatInt limit)] |}.

Definition labels_url (baseURL : string) (start end_ : Z) : URL :=
  {| url_base := baseURL;
     url_path := "/loki/api/v1/labels";
     url_query := [("start", FormatInt (nanoseconds start));
                   ("end", FormatInt (nanoseconds end_))] |}.

Definition label_values_url (baseURL label : string) (start end_ : Z) : URL :=
  {| url_base := baseURL;
     url_path := "/loki/api/v1/label/" +:+ percent_encode label +:+ "/values";
     url_query := [("start", FormatInt (nanoseconds start));
                   ("end", FormatInt (nanoseconds end_))] |}.

Section Builders.

(** Whether the base URL parses as a URL; the spec leaves the test to the
    URL library. *)
Variable base_url_parses : string -> bool.

(** Modelled from the spec: the three URL builders are declared outside the
    files at hand.  Each yields the URL string, or [MalformedBaseURL]. *)
Definition buildLokiQueryURL (baseURL query : string) (start end_ limit : Z)
  : failure + string :=
  if base_url_parses baseURL
  then inr (URL_String (query_url baseURL query start end_ limit))
  else inl MalformedBaseURL.

Definition buildLokiLabelsURL (baseURL : string) (start end_ : Z) : failure + string :=
  if base_url_parses baseURL
  then inr (URL_String (labels_url baseURL start end_))
  else inl MalformedBaseURL.

Definition buildLokiLabelValuesURL (baseURL label : string) (start end_ : Z)
  : failure + string :=
  if base_url_parses baseURL
  then inr (URL_String (label_values_url baseURL label start end_))
  else inl MalformedBaseURL.

End Builders.

(** The value of a query parameter of a URL. *)
Definition query_param (key : string) (u : URL) : option string :=
  match List.find (fun kv => (fst kv =? key)%string) (url_query u) with
  | Some kv => Some (snd kv)
  | None => None
  end.

End URLBuilder.

(** ** Backend query executor *)

Module Executor.

Definition base64_alphabet : string :=
  "ABCDEFGHIJKLMNOPQRSTUVWXYZabcdefghijklmnopqrstuvwxyz0123456789+/".

Definition base64_digit (n : N) : ascii :=
  match String.get (N.to_nat n) base64_alphabet with
  | Some c => c
  | None => "="%char
  end.

(** Standard base64 of a sequence of bytes, with padding. *)
Fixpoint base64_bytes (bytes : list N) : string :=
  match bytes with
  | a :: b :: c :: rest =>
      String (base64_digit (a / 4))
        (String (base64_digit ((a mod 4) * 16 + b / 16))
           (String (base64_digit ((b mod 16) * 4 + c / 64))
              (String (base64_digit (c mod 64)) (base64_bytes rest))))
  | [a; b] =>
      String (base64_digit (a / 4))
        (String (base64_digit ((a mod 4) * 16 + b / 16))
           (String (base64_digit ((b mod 16) * 4)) "="))
  | [a] =>
      String (base64_digit (a / 4))
        (String (base64_digit ((a mod 4) * 16)) "==")
  | [] => EmptyString
  end%N.

Definition base64 (s : string) : string :=
  base64_bytes (List.map N_of_ascii (list_ascii_of_string s)).

(** The value of a character of the base64 alphabet (RFC 4648, table 1):
    [A]-[Z] are 0 to 25, [a]-[z] 26 to 51, [0]-[9] 52 to 61, then [+] and
    [/]. *)
Definition base64_value (c : ascii) : option N :=
  let n := N_of_ascii c in
  (if (65 <=? n) && (n <=? 90) then Some (n - 65)
   else if (97 <=? n) && (n <=? 122) then Some (n - 71)
   else if (48 <=? n) && (n <=? 57) then Some (n + 4)
   else if n =? 43 then Some 62
   else if n =? 47 then Some 63
   else None)%N.

(** Modelled from the spec: HTTP basic authentication sends the base64 of
    [username:password]; this is how the receiver of the header reads
    base64 back into bytes (RFC 4648, section 4): four characters give
    three bytes; a final group padded with one or two [=] gives two bytes
    or one. *)
Fixpoint base64_decode_bytes (s : string) : option (list N) :=
  match s with
  | EmptyString => Some []
  | String c1 (String c2 (String c3 (String c4 rest))) =>
      match base64_value c1, base64_value c2 with
      | Some v1, Some v2 =>
          let a := (v1 * 4 + v2 / 16)%N in
          if Ascii.eqb c3 "=" then
            if Ascii.eqb c4 "=" then
              match rest with
              | EmptyString => Some [a]
              | String _ _ => None
              end
            else None
          else
            match base64_value c3 with
            | Some v3 =>
                let b := ((v2 mod 16) * 16 + v3 / 4)%N in
                if Ascii.eqb c4 "=" then
                  match rest with
                  | EmptyString => Some [a; b]
                  | String _ _ => None
                  end
                else
                  match base64_value c4, base64_decode_bytes rest with
                  | Some v4, Some bytes => Some (a :: b :: ((v3 mod 4) * 64 + v4)%N :: bytes)
                  | _, _ => None
                  end
            | None => None
            end
      | _, _ => None
      end
  | _ => None
  end.

Definition base64_decode (s : string) : option string :=
  match base64_decode_bytes s with
  | Some bytes => Some (string_of_list_ascii (List.map ascii_of_N bytes))
  | None => None
  end.

(** An outbound HTTP request: method, URL and headers. *)
Record Request : Type := {
  req_method : string;
  req_url : string;
  req_header : gmap string string
}.

Record Response : Type := {
  resp_status : Z;
  resp_body : string
}.

Definition bearer (token : string) : string := "Bearer " +:+ token.

Definition basic (username password : string) : string :=
  "Basic " +:+ base64 (username +:+ ":" +:+ password).

(** Modelled from the spec: the request of the single HTTP GET.  A
    non-empty token sets bearer authorization; else a non-empty username
    sets basic authentication; a non-empty organization id sets the
    multi-tenancy scope header. *)
Definition new_request (url username password token orgID : string) : Request :=
  let header : gmap string string := ∅ in
  let header :=
    if negb (token =? "")%string then <["Authorization" := bearer token]> header
    else if negb (username =? "")%string
         then <["Authorization" := basic username password]> header
         else header in
  let header :=
    if negb (orgID =? "")%string then <["X-Scope-OrgID" := orgID]> header
    else header in
  {| req_method := "GET"; req_url := url; req_header := header |}.

Section Execute.

(** The network: the response to a request, or nothing when the backend
    cannot be reached or the call is cancelled. *)
Variable transport : Request -> option Response.

(** The decoder of a response body into the operation's result type. *)
Context {A : Type}.
Variable decode_body : string -> option A.

(** Modelled from the spec: [execute], one attempt, no retry. *)
Definition execute (url username password token orgID : string) : failure + A :=
  match transport (new_request url username password token orgID) with
  | None => inl BackendUnreachable
  | Some resp =>
      if (200 <=? resp_status resp) && (resp_status resp <? 300) then
        match decode_body (resp_body resp) with
        | Some r => inr r
        | None => inl BackendDecodeError
        end
      else inl (BackendHTTPError (resp_status resp) (resp_body resp))
  end.

End Execute.

End Executor.

(** ** JSON: compact printing and parsing *)

Module JSON.

(** Modelled from the spec: the decoded JSON structures the formatter
    receives.  The result objects of the data model hold strings, arrays and
    objects; null and the booleans are kept as well.  Numbers do not occur
    in them and are left out. *)
#[local] Unset Elimination Schemes.
Inductive value : Type :=
| Null
| Bool (b : bool)
| Str (s : string)
| Array (items : list value)
| Object (members : list (string * value)).
#[local] Set Elimination Schemes.

(** The number of parser calls a value takes. *)
Fixpoint cost (v : value) : nat :=
  match v with
  | Array items => S (fold_right (fun x n => S (cost x + n)) O items)
  | Object members => S (fold_right (fun m n => S (cost (snd m) + n)) O members)
  | _ => 1
  end.

Definition dquote : ascii := "034"%char.
Definition backslash : ascii := "\"%char.

Definition hex_digit (n : N) : ascii :=
  ascii_of_N (if (n <? 10)%N then 48 + n else 87 + n)%N.

Definition hex_value (c : ascii) : option N :=
  let n := N_of_ascii c in
  if ((48 <=? n) && (n <=? 57))%N then Some (n - 48)%N
  else if ((97 <=? n) && (n <=? 102))%N then Some (n - 87)%N
  else if ((65 <=? n) && (n <=? 70))%N then Some (n - 55)%N
  else None.

Definition is_control (c : ascii) : bool := (N_of_ascii c <? 32)%N.

(** The escaped form of one byte of a string, followed by [tail]. *)
Definition escape_char_to (c : ascii) (tail : string) : string :=
  if Ascii.eqb c dquote then String backslash (String dquote tail)
  else if Ascii.eqb c backslash then String backslash (String backslash tail)
  else if Ascii.eqb c "010" then String backslash (String "n" tail)
  else if Ascii.eqb c "013" then String backslash (String "r" tail)
  else if Ascii.eqb c "009" then String backslash (String "t" tail)
  else if is_control c then
    String backslash (String "u" (String "0" (String "0"
      (String (hex_digit (N_of_ascii c / 16))
         (String (hex_digit (N_of_ascii c mod 16)) tail)))))
  else String c tail.

Fixpoint escape_to (s : string) (tail : string) : string :=
  match s with
  | EmptyString => tail
  | String c rest => escape_char_to c (escape_to rest tail)
  end.

(** A string literal: the escaped bytes between double quotes. *)
Definition quote_to (s : string) (tail : string) : string :=
  String dquote (escape_to s (String dquote tail)).

(** Compact printing of [v], followed by [tail]: no white space, members
    and items in the order of the structure. *)
Fixpoint print_to (v : value) (tail : string) : string :=
  match v with
  | Null => "null" +:+ tail
  | Bool true => "true" +:+ tail
  | Bool false => "false" +:+ tail
  | Str s => quote_to s tail
  | Array items =>
      String "["
        match items with
        | [] => String "]" tail
        | x :: rest =>
            print_to x
              ((fix items_to (l : list value) : string :=
                  match l with
                  | [] => String "]" tail
                  | y :: l' => String "," (print_to y (items_to l'))
                  end) rest)
        end
  | Object members =>
      String "{"
        match members with
        | [] => String "}" tail
        | (k, x) :: rest =>
            quote_to k (String ":" (print_to x
              ((fix members_to (l : list (string * value)) : string :=
                  match l with
                  | [] => String "}" tail
                  | (k', y) :: l' =>
                      String "," (quote_to k' (String ":" (print_to y (members_to l'))))
                  end) rest)))
        end
  end.

(** The items of an array after the first, and the members of an object
    after the first, each up to the closing bracket. *)
Fixpoint items_to (l : list value) (tail : string) : string :=
  match l with
  | [] => String "]" tail
  | y :: l' => String "," (print_to y (items_to l' tail))
  end.

Fixpoint members_to (l : list (string * value)) (tail : string) : string :=
  match l with
  | [] => String "}" tail
  | (k, y) :: l' => String "," (quote_to k (String ":" (print_to y (members_to l' tail))))
  end.

(** Modelled from the spec: the [json] rendering, compact single-line JSON. *)
Definition print (v : value) : string := print_to v EmptyString.

Definition is_space (c : ascii) : bool :=
  Ascii.eqb c " " || Ascii.eqb c "009" || Ascii.eqb c "010" || Ascii.eqb c "013".

Fixpoint skip_ws (s : string) : string :=
  match s with
  | String c rest => if is_space c then skip_ws rest else s
  | EmptyString => s
  end.

(** The literal [lit] at the head of [s]. *)
Fixpoint expect_lit (lit s : string) : option string :=
  match lit with
  | EmptyString => Some s
  | String c lit' =>
      match s with
      | String c' s' => if Ascii.eqb c c' then expect_lit lit' s' else None
      | EmptyString => None
      end
  end.

(** UTF-8 encoding of a code point of the basic plane, followed by [tail]. *)
Definition utf8_to (cp : N) (tail : string) : string :=
  if (cp <? 128)%N then String (ascii_of_N cp) tail
  else if (cp <? 2048)%N then
    String (ascii_of_N (192 + cp / 64)) (String (ascii_of_N (128 + cp mod 64)) tail)
  else
    String (ascii_of_N (224 + cp / 4096))
      (String (ascii_of_N (128 + (cp / 64) mod 64))
         (String (ascii_of_N (128 + cp mod 64)) tail)).

(** The code point of [\uXXXX]; surrogate halves are refused. *)
Definition hex4 (a b c d : ascii) : option N :=
  match hex_value a, hex_value b, hex_value c, hex_value d with
  | Some x, Some y, Some z, Some w =>
      let cp := (((x * 16 + y) * 16 + z) * 16 + w)%N in
      if ((55296 <=? cp) && (cp <=? 57343))%N then None else Some cp
  | _, _, _, _ => None
  end.

(** The byte of a one-letter escape. *)
Definition unescape (c : ascii) : option ascii :=
  if Ascii.eqb c dquote then Some dquote
  else if Ascii.eqb c backslash then Some backslash
  else if Ascii.eqb c "/" then Some "/"%char
  else if Ascii.eqb c "b" then Some "008"%char
  else if Ascii.eqb c "f" then Some "012"%char
  else if Ascii.eqb c "n" then Some "010"%char
  else if Ascii.eqb c "r" then Some "013"%char
  else if Ascii.eqb c "t" then Some "009"%char
  else None.

(** The rest of a string literal, after its opening quote: the string and
    what follows the closing quote. *)
Fixpoint parse_string (s : string) : option (string * string) :=
  match s with
  | EmptyString => None
  | String c rest =>
      if Ascii.eqb c dquote then Some (EmptyString, rest)
      else if Ascii.eqb c backslash then
        match rest with
        | String e rest1 =>
            if Ascii.eqb e "u" then
              match rest1 with
              | String h1 (String h2 (String h3 (String h4 rest2))) =>
                  match hex4 h1 h2 h3 h4, parse_string rest2 with
                  | Some cp, Some (str, r) => Some (utf8_to cp str, r)
                  | _, _ => None
                  end
              | _ => None
              end
            else
              match unescape e, parse_string rest1 with
              | Some ch, Some (str, r) => Some (String ch str, r)
              | _, _ => None
              end
        | EmptyString => None
        end
      else if is_control c then None
      else
        match parse_string rest with
        | Some (str, r) => Some (String c str, r)
        | None => None
        end
  end.

(** A value at the head of [s], the items of an array after its first
    bracket, and the members of an object after its first brace.  Every
    call spends one unit of [fuel]. *)
Fixpoint parse_value (fuel : nat) (s : string) : option (value * string) :=
  match fuel with
  | O => None
  | S fuel' =>
      match skip_ws s with
      | String c rest =>
          if Ascii.eqb c "n" then
            match expect_lit "ull" rest with Some r => Some (Null, r) | None => None end
          else if Ascii.eqb c "t" then
            match expect_lit "rue" rest with Some r => Some (Bool true, r) | None => None end
          else if Ascii.eqb c "f" then
            match expect_lit "alse" rest with Some r => Some (Bool false, r) | None => None end
          else if Ascii.eqb c dquote then
            match parse_string rest with
            | Some (str, r) => Some (Str str, r)
            | None => None
            end
          else if Ascii.eqb c "[" then
            match skip_ws rest with
            | String c1 r1 =>
                if Ascii.eqb c1 "]" then Some (Array [], r1)
                else
                  match parse_items fuel' (String c1 r1) with
                  | Some (items, r) => Some (Array items, r)
                  | None => None
                  end
            | EmptyString => None
            end
          else if Ascii.eqb c "{" then
            match skip_ws rest with
            | String c1 r1 =>
                if Ascii.eqb c1 "}" then Some (Object [], r1)
                else
                  match parse_members fuel' (String c1 r1) with
                  | Some (members, r) => Some (Object members, r)
                  | None => None
                  end
            | EmptyString => None
            end
          else None
      | EmptyString => None
      end
  end
with parse_items (fuel : nat) (s : string) : option (list value * string) :=
  match fuel with
  | O => None
  | S fuel' =>
      match parse_value fuel' s with
      | Some (x, r) =>
          match skip_ws r with
          | String c r' =>
              if Ascii.eqb c "," then
                match parse_items fuel' r' with
                | Some (items, r'') => Some (x :: items, r'')
                | None => None
                end
              else if Ascii.eqb c "]" then Some ([x], r')
              else None
          | EmptyString => None
          end
      | None => None
      end
  end
with parse_members (fuel : nat) (s : string) : option (list (string * value) * string) :=
  match fuel with
  | O => None
  | S fuel' =>
      match skip_ws s with
      | String q s1 =>
          if Ascii.eqb q dquote then
            match parse_string s1 with
            | Some (k, s2) =>
                match skip_ws s2 with
                | String colon s3 =>
                    if Ascii.eqb colon ":" then
                      match parse_value fuel' s3 with
                      | Some (x, r) =>
                          match skip_ws r with
                          | String c r' =>
                              if Ascii.eqb c "," then
                                match parse_members fuel' r' with
                                | Some (members, r'') => Some ((k, x) :: members, r'')
                                | None => None
                                end
                              else if Ascii.eqb c "}" then Some ([(k, x)], r')
                              else None
                          | EmptyString => None
                          end
                      | None => None
                      end
                    else None
                | EmptyString => None
                end
            | None => None
            end
          else None
      | EmptyString => None
      end
  end.

(** [v] reads back: printed before any tail, it parses to itself and
    leaves the tail, whenever the fuel covers its cost. *)
Definition reads_back (v : value) : Prop :=
  forall fuel tail, (cost v <= fuel)%nat -> parse_value fuel (print_to v tail) = Some (v, tail).

(** [v] pays: its printed text is at least as long as its cost. *)
Definition pays (v : value) : Prop :=
  forall tail, (String.length tail + cost v <= String.length (print_to v tail))%nat.

(** Modelled from the spec: parsing a whole document back; nothing but
    white space may follow the value. *)
Definition parse (s : string) : option value :=
  match parse_value (String.length s) s with
  | Some (v, rest) =>
      match skip_ws rest with
      | EmptyString => Some v
      | String _ _ => None
      end
  | None => None
  end.

End JSON.

(** ** Result formatter, [json] mode *)

Module Formatter.
Import JSON.

(** [f] on every element, or nothing as soon as one fails. *)
Fixpoint traverse {A B} (f : A -> option B) (l : list A) : option (list B) :=
  match l with
  | [] => Some []
  | x :: rest =>
      match f x, traverse f rest with
      | Some y, Some ys => Some (y :: ys)
      | _, _ => None
      end
  end.

(** Modelled from the spec: the JSON structure of a stream entry,
    [{stream: {label: value, ...}, values: [[timestamp, line], ...]}]. *)
Definition label_to_member (kv : string * string) : string * value :=
  (fst kv, Str (snd kv)).

Definition pair_to_json (tl : string * string) : value :=
  Array [Str (fst tl); Str (snd tl)].

Definition entry_to_json (e : StreamEntry) : value :=
  Object [("stream", Object (List.map label_to_member (map_to_list (stream e))));
          ("values", Array (List.map pair_to_json (values e)))].

(** Modelled from the spec: the JSON structure of a query result, a status
    field and a nested result set. *)
Definition query_result_to_json (r : BackendQueryResult) : value :=
  Object [("status", Str (query_status r));
          ("data", Object [("result", Array (List.map entry_to_json (query_result r)))])].

(** Modelled from the spec: the JSON structure of a labels result, a status
    field and an ordered sequence of strings. *)
Definition labels_result_to_json (r : BackendLabelsResult) : value :=
  Object [("status", Str (labels_status r));
          ("data", Array (List.map Str (labels_data r)))].

(** The value of the member [key] of an object. *)
Definition field (key : string) (v : value) : option value :=
  match v with
  | Object members =>
      match List.find (fun m => (fst m =? key)%string) members with
      | Some m => Some (snd m)
      | None => None
      end
  | _ => None
  end.

Definition as_string (v : value) : option string :=
  match v with Str s => Some s | _ => None end.

Definition member_to_label (m : string * value) : option (string * string) :=
  match snd m with Str s => Some (fst m, s) | _ => None end.

Definition pair_of_json (v : value) : option (string * string) :=
  match v with
  | Array [Str t; Str l] => Some (t, l)
  | _ => None
  end.

Definition entry_of_json (v : value) : option StreamEntry :=
  match field "stream" v, field "values" v with
  | Some (Object members), Some (Array pairs) =>
      match traverse member_to_label members, traverse pair_of_json pairs with
      | Some labels, Some vs => Some {| stream := list_to_map labels; values := vs |}
      | _, _ => None
      end
  | _, _ => None
  end.

Definition query_result_of_json (v : value) : option BackendQueryResult :=
  match field "status" v, field "data" v with
  | Some (Str status), Some data =>
      match field "result" data with
      | Some (Array entries) =>
          match traverse entry_of_json entries with
          | Some es => Some {| query_status := status; query_result := es |}
          | None => None
          end
      | _ => None
      end
  | _, _ => None
  end.

Definition labels_result_of_json (v : value) : option BackendLabelsResult :=
  match field "status" v, field "data" v with
  | Some (Str status), Some (Array items) =>
      match traverse as_string items with
      | Some names => Some {| labels_status := status; labels_data := names |}
      | None => None
      end
  | _, _ => None
  end.

(** Modelled from the spec: [format(result, "json")] for the query
    operation and for the two label operations, and the decoding of a
    response body into the result object.  The [raw] and [text] renderings
    are not modelled. *)
Definition format_query_json (r : BackendQueryResult) : string :=
  print (query_result_to_json r).

Definition format_labels_json (r : BackendLabelsResult) : string :=
  print (labels_result_to_json r).

Definition decode_query_result (body : string) : option BackendQueryResult :=
  match parse body with
  | Some v => query_result_of_json v
  | None => None
  end.

Definition decode_labels_result (body : string) : option BackendLabelsResult :=
  match parse body with
  | Some v => labels_result_of_json v
  | None => None
  end.

End Formatter.

(** ** An outside built from the components *)

(** The message of a failure, as the handlers see it in a Go [error]. *)
Definition failure_message (f : failure) : error :=
  match f with
  | ArgumentDecodeError => "argument decode error"
  | InvalidTimeExpression => "invalid time expression"
  | MalformedBaseURL => "malformed base URL"
  | BackendUnreachable => "backend unreachable"
  | BackendHTTPError status body => "HTTP " +:+ FormatInt status +:+ ": " +:+ body
  | BackendDecodeError => "backend decode error"
  | UnsupportedFormat => "unsupported format"
  | FormatRenderError => "format render error"
  end.

Definition to_result {A} (r : failure + A) : result A :=
  match r with
  | inr a => Ok a
  | inl f => Err (failure_message f)
  end.

(** What a deployment fixes: how payloads decode, what the clock shows at
    each reading, which base URLs parse, what the network answers, and the
    formatters. *)
Record deployment : Type := {
  dep_decode_query : RawArguments -> result LokiQueryRequest.t;
  dep_decode_label_names : RawArguments -> result LokiLabelNamesRequest.t;
  dep_decode_label_values : RawArguments -> result LokiLabelValuesRequest.t;
  dep_clock : nat -> Time;
  dep_base_url_parses : string -> bool;
  dep_transport : Executor.Request -> option Executor.Response;
  dep_format_query : BackendQueryResult -> string -> failure + string;
  dep_format_labels : BackendLabelsResult -> string -> failure + string;
  dep_format_label_values : string -> BackendLabelValuesResult -> string -> failure + string
}.

(** The responder of a deployment.  Its state counts the clock readings
    taken by [time.Now()]; [parseTime] resolves against the clock without
    advancing it. *)
Definition deployed (d : deployment) : responder nat :=
  fun R e =>
    match e in event R return nat -> R * nat with
    | call_VerifyAndUnmarshalQuery raw => fun tick => (dep_decode_query d raw, tick)
    | call_VerifyAndUnmarshalLabelNames raw => fun tick => (dep_decode_label_names d raw, tick)
    | call_VerifyAndUnmarshalLabelValues raw => fun tick => (dep_decode_label_values d raw, tick)
    | call_Now => fun tick => (dep_clock d tick, S tick)
    | call_parseTime timeStr => fun tick =>
        (to_result (TimeExpr.resolve timeStr (dep_clock d tick)), tick)
    | call_buildLokiQueryURL baseURL query start end_ limit => fun tick =>
        (to_result (URLBuilder.buildLokiQueryURL (dep_base_url_parses d)
                      baseURL query start end_ limit), tick)
    | call_buildLokiLabelsURL baseURL start end_ => fun tick =>
        (to_result (URLBuilder.buildLokiLabelsURL (dep_base_url_parses d)
                      baseURL start end_), tick)
    | call_buildLokiLabelValuesURL baseURL label start end_ => fun tick =>
        (to_result (URLBuilder.buildLokiLabelValuesURL (dep_base_url_parses d)
                      baseURL label start end_), tick)
    | call_executeLokiQuery url username password token orgID => fun tick =>
        (to_result (Executor.execute (dep_transport d) Formatter.decode_query_result
                      url username password token orgID), tick)
    | call_executeLokiLabelsQuery url username password token orgID => fun tick =>
        (to_result (Executor.execute (dep_transport d) Formatter.decode_labels_result
                      url username password token orgID), tick)
    | call_executeLokiLabelValuesQuery url username password token orgID => fun tick =>
        (to_result (Executor.execute (dep_transport d) Formatter.decode_labels_result
                      url username password token orgID), tick)
    | call_formatLokiResults r format => fun tick =>
        (to_result (dep_format_query d r format), tick)
    | call_formatLokiLabelsResults r format => fun tick =>
        (to_result (dep_format_labels d r format), tick)
    | call_formatLokiLabelValuesResults label r format => fun tick =>
        (to_result (dep_format_label_values d label r format), tick)
    end.

(** *** An example deployment *)

Definition example_result : BackendQueryResult :=
  {| query_status := "success";
     query_result :=
       [ {| stream := <["job" := "app"]> ∅;
            values := [("1700000000000000000", "started")] |} ] |}.

(** A [loki_query] request with the given start, end and limit. *)
Definition example_request (start end_ : string) (limit : float64) : LokiQueryRequest.t :=
  {| LokiQueryRequest.Query := "{job=app}";
     LokiQueryRequest.URL := "";
     LokiQueryRequest.Username := "";
     LokiQueryRequest.Password := "";
     LokiQueryRequest.Token := "";
     LokiQueryRequest.Start := start;
     LokiQueryRequest.End_ := end_;
     LokiQueryRequest.Limit := limit;
     LokiQueryRequest.Org := "";
     LokiQueryRequest.Format := "json" |}.

(** Only the [json] mode is rendered by the example. *)
Definition example_format (r : BackendQueryResult) (format : string) : failure + string :=
  if (format =? "json")%string then inr (Formatter.format_query_json r)
  else inl UnsupportedFormat.

(** Every payload decodes to [req]; the clock shows 2023-11-14T22:13:20.25Z
    and gains a second at each reading; the backend answers 200 with
    [example_result]. *)
Definition example_deployment (req : LokiQueryRequest.t) : deployment :=
  {| dep_decode_query := fun _ => Ok req;
     dep_decode_label_names := fun _ => Err "unexpected payload";
     dep_decode_label_values := fun _ => Err "unexpected payload";
     dep_clock := fun n => 1700000000250000000 + Z.of_nat n * Second;
     dep_base_url_parses := fun _ => true;
     dep_transport := fun _ =>
       Some {| Executor.resp_status := 200;
               Executor.resp_body := Formatter.format_query_json example_result |};
     dep_format_query := example_format;
     dep_format_labels := fun _ _ => inl UnsupportedFormat;
     dep_format_label_values := fun _ _ _ => inl UnsupportedFormat |}.

Definition example_call : CallToolRequest :=
  {| Name := "loki_query"; RawArgs := "{}" |}.

(** The float64 nearest to 5.9: 6642809450371482 * 2^-50, which is
    5.9000000000000003552713678800500929355621337890625. *)
Definition float_5_9 : float64 := S754_finite false 6642809450371482 (-50).

(** The float64 1e19, which is 4882812500000000 * 2^11 exactly; it is
    larger than every 64-bit [int]. *)
Definition float_1e19 : float64 := S754_finite false 4882812500000000 11.

(** The platform of the examples answers the least [int] for an
    unrepresentable conversion, and its environment sets no variable. *)
Definition example_unrepresentable : float64 -> Z := fun _ => MinInt.
Definition example_env : string -> string := fun _ => "".

(** The calls the [loki_query] handler makes in the example deployment, and
    what it returns. *)
Abbreviation example_trace start end_ limit :=
  (trace (deployed (example_deployment (example_request start end_ limit)))
     (registered_handler example_env example_unrepresentable loki_query example_call) O).

Abbreviation example_outcome start end_ limit :=
  (outcome (deployed (example_deployment (example_request start end_ limit)))
     (registered_handler example_env example_unrepresentable loki_query example_call) O).

(** ** Further observations on traces *)

(** The answers of the URL builders, in call order. *)
Definition build_answers (tr : list call) : list (result string) :=
  flat_map (fun c => match c with
                     | Call (call_buildLokiQueryURL _ _ _ _ _) r
                     | Call (call_buildLokiLabelsURL _ _ _) r
                     | Call (call_buildLokiLabelValuesURL _ _ _ _) r => [r]
                     | Call _ _ => []
                     end) tr.

(** The URLs handed to the executors, in call order. *)
Definition backend_urls (tr : list call) : list string :=
  flat_map (fun c => match c with
                     | Call (call_executeLokiQuery url _ _ _ _) _
                     | Call (call_executeLokiLabelsQuery url _ _ _ _) _
                     | Call (call_executeLokiLabelValuesQuery url _ _ _ _) _ => [url]
                     | Call _ _ => []
                     end) tr.

(** The values among a list of answers. *)
Definition oks {A} (l : list (result A)) : list A :=
  flat_map (fun r => match r with Ok a => [a] | Err _ => [] end) l.

(** A decoded backend response, of either shape. *)
Inductive backend_result : Type :=
| QueryResult (r : BackendQueryResult)
| LabelsResult (r : BackendLabelsResult).

(** The answers of the executors, in call order. *)
Definition backend_answers (tr : list call) : list (result backend_result) :=
  let lift {A} (f : A -> backend_result) (r : result A) : result backend_result :=
    match r with Ok a => Ok (f a) | Err e => Err e end in
  flat_map (fun c => match c with
                     | Call (call_executeLokiQuery _ _ _ _ _) r => [lift QueryResult r]
                     | Call (call_executeLokiLabelsQuery _ _ _ _ _) r => [lift LabelsResult r]
                     | Call (call_executeLokiLabelValuesQuery _ _ _ _ _) r =>
                         [lift LabelsResult r]
                     | Call _ _ => []
                     end) tr.

(** What the formatters were handed, in call order: the label (for
    [loki_label_values] only), the result and the format. *)
Definition format_inputs (tr : list call) : list (option string * backend_result * string) :=
  flat_map (fun c => match c with
                     | Call (call_formatLokiResults r format) _ =>
                         [(None, QueryResult r, format)]
                     | Call (call_formatLokiLabelsResults r format) _ =>
                         [(None, LabelsResult r, format)]
                     | Call (call_formatLokiLabelValuesResults label r format) _ =>
                         [(Some label, LabelsResult r, format)]
                     | Call _ _ => []
                     end) tr.

(** The label (for [loki_label_values] only) and the format argument of a
    successfully decoded request. *)
Definition answer_output {R} (e : event R) : R -> option (option string * string) :=
  match e in event R return R -> option (option string * string) with
  | call_VerifyAndUnmarshalQuery _ => fun r =>
      match r with
      | Ok req => Some (None, LokiQueryRequest.Format req)
      | Err _ => None
      end
  | call_VerifyAndUnmarshalLabelNames _ => fun r =>
      match r with
      | Ok req => Some (None, LokiLabelNamesRequest.Format req)
      | Err _ => None
      end
  | call_VerifyAndUnmarshalLabelValues _ => fun r =>
      match r with
      | Ok req => Some (Some (LokiLabelValuesRequest.Label req),
                        LokiLabelValuesRequest.Format req)
      | Err _ => None
      end
  | _ => fun _ => None
  end.

Definition decoded_output (c : call) : option (option string * string) :=
  match c with Call e r => answer_output e r end.

(** The URL argument of a successfully decoded request. *)
Definition answer_url {R} (e : event R) : R -> option string :=
  match e in event R return R -> option string with
  | call_VerifyAndUnmarshalQuery _ => fun r =>
      match r with Ok req => Some (LokiQueryRequest.URL req) | Err _ => None end
  | call_VerifyAndUnmarshalLabelNames _ => fun r =>
      match r with Ok req => Some (LokiLabelNamesRequest.URL req) | Err _ => None end
  | call_VerifyAndUnmarshalLabelValues _ => fun r =>
      match r with Ok req => Some (LokiLabelValuesRequest.URL req) | Err _ => None end
  | _ => fun _ => None
  end.

Definition decoded_url (c : call) : option string :=
  match c with Call e r => answer_url e r end.

(** The base URLs handed to the URL builders, in call order. *)
Definition build_bases (tr : list call) : list string :=
  flat_map (fun c => match c with
                     | Call (call_buildLokiQueryURL baseURL _ _ _ _) _
                     | Call (call_buildLokiLabelsURL baseURL _ _) _
                     | Call (call_buildLokiLabelValuesURL baseURL _ _ _) _ => [baseURL]
                     | Call _ _ => []
                     end) tr.

(** The text the handlers put before the message of a failing step
    ([fmt.Errorf] of [loki_protocol.go]); the decode error is returned as it
    is, and the clock cannot fail. *)
Definition error_prefixes (op : operation) (st : step) : list string :=
  match st with
  | StepDecode => [""]
  | StepClock => []
  | StepTimeParse => ["invalid start time: "; "invalid end time: "]
  | StepURLBuild =>
      match op with
      | loki_query => ["failed to build query URL: "]
      | loki_label_names => ["failed to build labels URL: "]
      | loki_label_values => ["failed to build label values URL: "]
      end
  | StepBackend =>
      match op with
      | loki_query => ["query execution failed: "]
      | loki_label_names => ["labels query execution failed: "]
      | loki_label_values => ["label values query execution failed: "]
      end
  | StepFormat => ["failed to format results: "]
  end.

(** ** The argument schema of the tools *)

(** The kind of value a request field holds. *)
Inductive field_kind : Type := KindString | KindNumber.

(** The JSON fields of the three request structures of
    [loki_protocol.go], by their [json] tags, with the kind of the Go field
    ([string], or [float64] for the limit). *)
Definition request_fields (op : operation) : list (string * field_kind) :=
  match op with
  | loki_query =>
      [("query", KindString); ("url", KindString); ("username", KindString);
       ("password", KindString); ("token", KindString); ("start", KindString);
       ("end", KindString); ("limit", KindNumber); ("org", KindString);
       ("format", KindString)]
  | loki_label_names =>
      [("url", KindString); ("username", KindString); ("password", KindString);
       ("token", KindString); ("start", KindString); ("end", KindString);
       ("org", KindString); ("format", KindString)]
  | loki_label_values =>
      [("label", KindString); ("url", KindString); ("username", KindString);
       ("password", KindString); ("token", KindString); ("start", KindString);
       ("end", KindString); ("org", KindString); ("format", KindString)]
  end.

(** ** The command-line client *)

Module Client.

(** A product of 64-bit integers wraps around. *)
Definition wrap_int64 (z : Z) : Z := (z + 2 ^ 63) mod 2 ^ 64 - 2 ^ 63.

(** [Config] holds the client configuration. *)
Record Config : Type := {
  ServerURL : string;
  Timeout : Duration
}.

(** A value of the argument map [map[string]interface{}]: a string, or the
    float64 of the limit. *)
Inductive tool_arg : Type :=
| ArgString (s : string)
| ArgNumber (f : float64).

Definition arg_kind (v : tool_arg) : field_kind :=
  match v with ArgString _ => KindString | ArgNumber _ => KindNumber end.

(** The text printed before [os.Exit(1)]: the general usage, the usage of
    [loki_query], the error for a URL without a query, and the usage of
    [loki_label_values]. *)
Inductive exit_message : Type :=
| Usage | QueryUsage | QueryMissingAfterURL | LabelValuesUsage.

(** What the [switch] of [main] decides for the positional arguments. *)
Inductive command_result : Type :=
| CmdExit (m : exit_message)
| CmdFatal (msg : string)
| CmdCallTool (name : string) (toolArgs : gmap string tool_arg)
| CmdListTools.

(** What [main] does: exits after a message, dies in [log.Fatalf], or
    reaches the server with a tool call or a tool listing. *)
Inductive action : Type :=
| Exit (m : exit_message)
| Fatal (msg : string)
| CallTool (serverURL name : string) (toolArgs : gmap string tool_arg)
    (argsJSON : RawArguments)
| ListTools (serverURL : string).

(** [strings.HasPrefix(s, prefix)] *)
Definition HasPrefix (s prefix : string) : bool := String.prefix prefix s.

(** [args[i]] when [len(args) > i], else the zero value the variable was
    declared with. *)
Definition arg_or_empty (args : list string) (i : nat) : string :=
  match args !! i with
  | Some a => a
  | None => ""
  end.

Section Main.

(** The process environment; [fs.Parse(args)] for the flag set with the
    one string flag [server-url], as the value of the flag afterwards and
    [fs.Args()]; [strconv.Atoi]; [strconv.ParseFloat(s, 64)];
    [transport.NewStreamableHTTPClientTransport] and [client.NewClient], as
    the error they may return for a server URL; [json.Marshal]. *)
Variable os_Getenv : string -> string.
Variable flag_Parse : list string -> string * list string.
Variable strconv_Atoi : string -> result Z.
Variable strconv_ParseFloat : string -> result float64.
Variable NewStreamableHTTPClientTransport : string -> option error.
Variable NewClient : string -> option error.
Variable json_Marshal : gmap string tool_arg -> result RawArguments.

(** [LoadConfigWithArgs] loads configuration from environment variables
    and provided arguments. *)
Definition LoadConfigWithArgs (args : list string) : Config :=
  let serverURL := fst (flag_Parse args) in
  let cfg := {| ServerURL := "http://localhost:8000/mcp";
                Timeout := 30 * Second |} in
  let cfg :=
    let envURL := os_Getenv "MCP_SERVER_URL" in
    if negb (envURL =? "")%string
    then {| ServerURL := envURL; Timeout := Timeout cfg |}
    else cfg in
  let cfg :=
    if negb (serverURL =? "")%string
    then {| ServerURL := serverURL; Timeout := Timeout cfg |}
    else cfg in
  let cfg :=
    let envTimeout := os_Getenv "LOKI_QUERY_TIMEOUT" in
    if negb (envTimeout =? "")%string then
      match strconv_Atoi envTimeout with
      | Ok timeoutSecs =>
          if 0 <? timeoutSecs
          then {| ServerURL := ServerURL cfg;
                  Timeout := wrap_int64 (timeoutSecs * Second) |}
          else cfg
      | Err _ => cfg
      end
    else cfg in
  cfg.

(** The block of optional parameters of [loki_query], which the source has
    twice, after a URL ([argOffset] 3) and without one ([argOffset] 2): the
    start, the end, the limit and the organization, or the message of
    [log.Fatalf] for a limit that is not a number. *)
Definition optional_parameters (args : list string) (argOffset : nat)
  : result (string * string * float64 * string) :=
  let start := arg_or_empty args argOffset in
  let end_ := arg_or_empty args (argOffset + 1) in
  match
    match args !! (argOffset + 2)%nat with
    | Some a =>
        match strconv_ParseFloat a with
        | Ok limitVal => Ok limitVal
        | Err err => Err ("Invalid number for limit: " +:+ err)
        end
    | None => Ok (S754_zero false)
    end
  with
  | Err msg => Err msg
  | Ok limit =>
      let org := arg_or_empty args (argOffset + 3) in
      Ok (start, end_, limit, org)
  end.

(** The argument map of [loki_query]: the query, and each optional
    parameter that was provided. *)
Definition query_tool_args (lokiURL query start end_ : string) (limit : float64)
    (org : string) : gmap string tool_arg :=
  let toolArgs : gmap string tool_arg := {[ "query" := ArgString query ]} in
  let toolArgs :=
    if negb (lokiURL =? "")%string then <["url" := ArgString lokiURL]> toolArgs
    else toolArgs in
  let toolArgs :=
    if negb (start =? "")%string then <["start" := ArgString start]> toolArgs
    else toolArgs in
  let toolArgs :=
    if negb (end_ =? "")%string then <["end" := ArgString end_]> toolArgs
    else toolArgs in
  let toolArgs :=
    if float64_gt0 limit then <["limit" := ArgNumber limit]> toolArgs
    else toolArgs in
  let toolArgs :=
    if negb (org =? "")%string then <["org" := ArgString org]> toolArgs
    else toolArgs in
  toolArgs.

(** The [switch] of [main] on the positional arguments [args]. *)
Definition command (args : list string) : command_result :=
  let arg0 := arg_or_empty args 0 in
  if (arg0 =? "loki_query")%string then
    if (length args <? 2)%nat then CmdExit QueryUsage
    else if HasPrefix (arg_or_empty args 1) "http" then
      if (length args <? 3)%nat then CmdExit QueryMissingAfterURL
      else
        let lokiURL := arg_or_empty args 1 in
        let query := arg_or_empty args 2 in
        match optional_parameters args 3 with
        | Err msg => CmdFatal msg
        | Ok (start, end_, limit, org) =>
            CmdCallTool "loki_query" (query_tool_args lokiURL query start end_ limit org)
        end
    else
      let query := arg_or_empty args 1 in
      match optional_parameters args 2 with
      | Err msg => CmdFatal msg
      | Ok (start, end_, limit, org) =>
          CmdCallTool "loki_query" (query_tool_args "" query start end_ limit org)
      end
  else if (arg0 =? "loki_label_names")%string then
    let toolArgs : gmap string tool_arg := ∅ in
    let toolArgs :=
      if (1 <? length args)%nat && HasPrefix (arg_or_empty args 1) "http"
      then <["url" := ArgString (arg_or_empty args 1)]> toolArgs
      else toolArgs in
    CmdCallTool "loki_label_names" toolArgs
  else if (arg0 =? "loki_label_values")%string then
    if (length args <? 2)%nat then CmdExit LabelValuesUsage
    else
      let toolArgs : gmap string tool_arg := {[ "label" := ArgString (arg_or_empty args 1) ]} in
      let toolArgs :=
        if (2 <? length args)%nat && HasPrefix (arg_or_empty args 2) "http"
        then <["url" := ArgString (arg_or_empty args 2)]> toolArgs
        else toolArgs in
      CmdCallTool "loki_label_values" toolArgs
  else if (arg0 =? "list_tools")%string then CmdListTools
  else CmdExit Usage.

(** [main], for the command line [osArgs] (that is [os.Args[1:]]), up to
    the request it sends. *)
Definition main (osArgs : list string) : action :=
  let cfg := LoadConfigWithArgs osArgs in
  let args := snd (flag_Parse osArgs) in
  if (length args <? 1)%nat then Exit Usage
  else
    match NewStreamableHTTPClientTransport (ServerURL cfg) with
    | Some err => Fatal ("Failed to create transport client: " +:+ err)
    | None =>
        match NewClient (ServerURL cfg) with
        | Some err => Fatal ("Failed to create MCP client: " +:+ err)
        | None =>
            match command args with
            | CmdExit m => Exit m
            | CmdFatal msg => Fatal msg
            | CmdListTools => ListTools (ServerURL cfg)
            | CmdCallTool name toolArgs =>
                match json_Marshal toolArgs with
                | Err err => Fatal ("Failed to marshal arguments: " +:+ err)
                | Ok argsJSON => CallTool (ServerURL cfg) name toolArgs argsJSON
                end
            end
        end
    end.

End Main.

End Client.

(** ** The server's start-up *)

Module Server.

Definition version : string := "0.1.0".

Section Startup.

Variable os_Getenv : string -> string.

(** The port and the host of [main]: the environment variable, or the
    default. *)
Definition port : string :=
  let port := os_Getenv "PORT" in
  if (port =? "")%string then "8000" else port.

Definition host : string :=
  let host := os_Getenv "HOST" in
  if (host =? "")%string then "0.0.0.0" else host.

(** [addr := fmt.Sprintf("%s:%s", host, port)] *)
Definition addr : string := host +:+ ":" +:+ port.

(** The lines [main] logs before it creates the transport, in order
    (without the time stamp of the logger). *)
Definition startup_log : list string :=
  [ "=== Loki MCP Server Starting ===";
    "Version: " +:+ version;
    (if (os_Getenv "PORT" =? "")%string
     then "PORT environment variable not set, using default: 8000"
     else "PORT environment variable set to: " +:+ port);
    (if (os_Getenv "HOST" =? "")%string
     then "HOST environment variable not set, using default: 0.0.0.0 (all interfaces)"
     else "HOST environment variable set to: " +:+ host);
    "Checking Loki configuration...";
    (let lokiURL := os_Getenv "LOKI_URL" in
     if negb (lokiURL =? "")%string then "  - LOKI_URL: " +:+ lokiURL
     else "  - LOKI_URL: not set (will use default or per-request URL)");
    (let lokiOrgID := os_Getenv "LOKI_ORG_ID" in
     if negb (lokiOrgID =? "")%string then "  - LOKI_ORG_ID: " +:+ lokiOrgID
     else "  - LOKI_ORG_ID: not set");
    (let lokiUsername := os_Getenv "LOKI_USERNAME" in
     if negb (lokiUsername =? "")%string then "  - LOKI_USERNAME: " +:+ lokiUsername
     else "  - LOKI_USERNAME: not set");
    (if negb (os_Getenv "LOKI_PASSWORD" =? "")%string
     then "  - LOKI_PASSWORD: ****** (set)"
     else "  - LOKI_PASSWORD: not set");
    (if negb (os_Getenv "LOKI_TOKEN" =? "")%string
     then "  - LOKI_TOKEN: ****** (set)"
     else "  - LOKI_TOKEN: not set") ].

End Startup.

End Server.

(** *** Further examples *)

(** A [loki_query] request that gives every configuration field itself. *)
Definition explicit_request : LokiQueryRequest.t :=
  {| LokiQueryRequest.Query := "{job=app}";
     LokiQueryRequest.URL := "http://loki:3100";
     LokiQueryRequest.Username := "admin";
     LokiQueryRequest.Password := "password";
     LokiQueryRequest.Token := "secret-token";
     LokiQueryRequest.Start := "";
     LokiQueryRequest.End_ := "";
     LokiQueryRequest.Limit := S754_zero false;
     LokiQueryRequest.Org := "tenant-1";
     LokiQueryRequest.Format := "" |}.

(** An environment that sets the five Loki variables. *)
Definition loaded_env : string -> string :=
  fun k =>
    if (k =? "LOKI_URL")%string then "http://other:3100"
    else if (k =? "LOKI_USERNAME")%string then "someone"
    else if (k =? "LOKI_PASSWORD")%string then "else"
    else if (k =? "LOKI_TOKEN")%string then "other-token"
    else if (k =? "LOKI_ORG_ID")%string then "tenant-2"
    else "".

(** A command line without flags; decimal numerals for [strconv.Atoi];
    a float parser that knows 5.9; a server that can be reached; a marshaller
    that always succeeds. *)
Definition example_flag_Parse : list string -> string * list string :=
  fun args => ("", args).

Definition example_Atoi : string -> result Z :=
  fun s => match ParseInt s with
           | Some z => Ok z
           | None => Err "invalid syntax"
           end.

Definition example_ParseFloat : string -> result float64 :=
  fun s => if (s =? "5.9")%string then Ok float_5_9 else Err "invalid syntax".

Definition example_reachable : string -> option error := fun _ => None.

Definition example_Marshal : gmap string Client.tool_arg -> result RawArguments :=
  fun _ => Ok "{}".

(** A server that refuses the connection. *)
Definition example_unreachable : string -> option error :=
  fun _ => Some "connection refused".

(** An environment that sets only the client's timeout; one that sets it
    beyond what a [time.Duration] holds in seconds. *)
Definition timeout_env (seconds : string) : string -> string :=
  fun k => if (k =? "LOKI_QUERY_TIMEOUT")%string then seconds else "".

Definition long_timeout_env : string -> string := timeout_env "9223372037".

(** [loaded_env] with another password and another token. *)
Definition rotated_env : string -> string :=
  fun k =>
    if (k =? "LOKI_PASSWORD")%string then "changed"
    else if (k =? "LOKI_TOKEN")%string then "changed-token"
    else loaded_env k.

(** * Properties *)

(** ** Time expression resolver *)

Section TimeExprFacts.
Import TimeExpr.

Lemma split_last_snoc s c : split_last (s +:+ String c EmptyString) = Some (s, c).
Proof.
  induction s as [|a s IH]; [reflexivity|].
  change (String a s +:+ String c "") with (String a (s +:+ String c "")).
  destruct s as [|b s]; [reflexivity|].
  change (String b s +:+ String c "") with (String b (s +:+ String c "")) in *.
  cbn [split_last] in *. now rewrite IH.
Qed.

Lemma split_last_inv s init c :
  split_last s = Some (init, c) -> s = init +:+ String c EmptyString.
Proof.
  revert init; induction s as [|a s IH]; intros init H; [discriminate|].
  cbn [split_last] in H. destruct s as [|b s].
  - injection H as <- <-. reflexivity.
  - destruct (split_last (String b s)) as [[i l]|]; [|discriminate].
    injection H as <- <-.
    change (String a i +:+ String l "") with (String a (i +:+ String l "")).
    f_equal. now apply IH.
Qed.

Lemma unit_of_suffix_suffix u : unit_of_suffix (unit_suffix u) = Some u.
Proof. destruct u; reflexivity. Qed.

Lemma unit_of_suffix_inv c u : unit_of_suffix c = Some u -> c = unit_suffix u.
Proof.
  unfold unit_of_suffix.
  destruct (Ascii.eqb_spec c "s") as [->|_]; [intros [= <-]; reflexivity|].
  destruct (Ascii.eqb_spec c "m") as [->|_]; [intros [= <-]; reflexivity|].
  destruct (Ascii.eqb_spec c "h") as [->|_]; [intros [= <-]; reflexivity|].
  destruct (Ascii.eqb_spec c "d") as [->|_]; [intros [= <-]; reflexivity|].
  intros [=].
Qed.

Lemma uint_of_string_of_uint d :
  exists d', NilZero.uint_of_string (NilZero.string_of_uint d) = Some d'
             /\ N.of_uint d' = N.of_uint d.
Proof.
  destruct d as [|d|d|d|d|d|d|d|d|d|d].
  1: eexists; split; reflexivity.
  all: eexists; split; [apply NilZero.usu; discriminate | reflexivity].
Qed.

Lemma parse_relative_digits d u :
  parse_relative (String "-" (NilZero.string_of_uint d +:+ String (unit_suffix u) EmptyString))
  = Some (N.of_uint d, u).
Proof.
  unfold parse_relative. rewrite split_last_snoc.
  destruct (uint_of_string_of_uint d) as (d' & -> & ->).
  now rewrite unit_of_suffix_suffix.
Qed.

Lemma parse_relative_matches expr :
  is_Some (parse_relative expr) <-> matches_relative expr.
Proof.
  split.
  - intros [[n u] H]. unfold parse_relative in H.
    destruct expr as [|c rest]; [discriminate|].
    destruct (Ascii.eqb_spec c "-") as [->|Hc].
    2:{ destruct c as [[] [] [] [] [] [] [] []]; try discriminate. now destruct Hc. }
    destruct (split_last rest) as [[digits l]|] eqn:Hs; [|discriminate].
    destruct (NilZero.uint_of_string digits) as [d|] eqn:Hd; [|discriminate].
    destruct (unit_of_suffix l) as [u'|] eqn:Hu; [|discriminate].
    injection H as _ ->. exists d, u.
    apply NilZero.sus in Hd. apply unit_of_suffix_inv in Hu. apply split_last_inv in Hs.
    now subst.
  - intros (d & u & ->). rewrite parse_relative_digits. eauto.
Qed.

Lemma resolve_relative_expr n u T :
  resolve (relative_expr n u) T = inr (T - Z.of_N n * unit_in_seconds u * Second).
Proof.
  unfold resolve, relative_expr.
  rewrite parse_relative_digits, DecimalN.Unsigned.of_to. reflexivity.
Qed.

(** *** Digits *)

Lemma digit_char_spec d :
  0 <= d <= 9 -> is_digit (digit_char d) = true /\ digit_value (digit_char d) = d.
Proof.
  intros H.
  assert (C : d = 0 \/ d = 1 \/ d = 2 \/ d = 3 \/ d = 4 \/ d = 5 \/ d = 6 \/ d = 7
              \/ d = 8 \/ d = 9) by lia.
  repeat (destruct C as [->|C]; [split; reflexivity|]). subst d. split; reflexivity.
Qed.

Lemma is_digit_inv c :
  is_digit c = true -> c = digit_char (digit_value c) /\ 0 <= digit_value c <= 9.
Proof.
  unfold is_digit, digit_char, digit_value. intros H.
  apply andb_true_iff in H as [H1 H2]. apply N.leb_le in H1, H2.
  split; [|lia].
  replace (Z.to_N (48 + (Z.of_N (N_of_ascii c) - 48))) with (N_of_ascii c) by lia.
  symmetry. apply ascii_N_embedding.
Qed.

Lemma take_digits_put2 v rest :
  0 <= v <= 99 -> take_digits 2 0 (put2 v rest) = Some (v, rest).
Proof.
  intros H. unfold put2. cbn [take_digits].
  pose proof (Z.div_mod v 10 ltac:(lia)). pose proof (Z.mod_pos_bound v 10 ltac:(lia)).
  destruct (digit_char_spec (v / 10)) as [-> ->]; [lia|].
  destruct (digit_char_spec (v mod 10)) as [-> ->]; [lia|].
  do 2 f_equal. lia.
Qed.

Lemma take_digits_put4 v rest :
  0 <= v <= 9999 -> take_digits 4 0 (put4 v rest) = Some (v, rest).
Proof.
  intros H. unfold put4, put2. cbn [take_digits].
  pose proof (Z.div_mod v 1000 ltac:(lia)). pose proof (Z.mod_pos_bound v 1000 ltac:(lia)).
  pose proof (Z.div_mod v 100 ltac:(lia)). pose proof (Z.mod_pos_bound v 100 ltac:(lia)).
  pose proof (Z.div_mod (v / 100) 10 ltac:(lia)).
  pose proof (Z.mod_pos_bound (v / 100) 10 ltac:(lia)).
  pose proof (Z.div_mod (v mod 100) 10 ltac:(lia)).
  pose proof (Z.mod_pos_bound (v mod 100) 10 ltac:(lia)).
  destruct (digit_char_spec (v / 1000)) as [-> ->]; [lia|].
  destruct (digit_char_spec (v / 100 mod 10)) as [-> ->]; [lia|].
  destruct (digit_char_spec (v mod 100 / 10)) as [-> ->]; [lia|].
  destruct (digit_char_spec (v mod 100 mod 10)) as [-> ->]; [lia|].
  do 2 f_equal. lia.
Qed.

Lemma take_digits2_inv s v rest :
  take_digits 2 0 s = Some (v, rest) -> s = put2 v rest /\ 0 <= v <= 99.
Proof.
  destruct s as [|c1 [|c2 s]]; cbn [take_digits]; try discriminate.
  - now destruct (is_digit c1).
  - destruct (is_digit c1) eqn:H1; [|discriminate].
    destruct (is_digit c2) eqn:H2; [|discriminate].
    intros [= <- <-].
    destruct (is_digit_inv c1 H1) as [E1 B1]. destruct (is_digit_inv c2 H2) as [E2 B2].
    set (a := digit_value c1) in *. set (b := digit_value c2) in *.
    assert (Hq : (10 * (10 * 0 + a) + b) / 10 = a) by (symmetry; apply Z.div_unique with b; lia).
    assert (Hr : (10 * (10 * 0 + a) + b) mod 10 = b) by (symmetry; apply Z.mod_unique with a; lia).
    split; [|lia]. unfold put2. rewrite Hq, Hr. now rewrite <- E1, <- E2.
Qed.

Lemma take_digits4_inv s v rest :
  take_digits 4 0 s = Some (v, rest) -> s = put4 v rest /\ 0 <= v <= 9999.
Proof.
  destruct s as [|c1 [|c2 [|c3 [|c4 s]]]]; cbn [take_digits];
    repeat match goal with |- context [is_digit ?c] => destruct (is_digit c) eqn:? end;
    try discriminate.
  intros [= <- <-].
  repeat match goal with H : is_digit ?c = true |- _ =>
    let E := fresh "E" in let B := fresh "B" in
    destruct (is_digit_inv c H) as [E B]; clear H end.
  set (a := digit_value c1) in *. set (b := digit_value c2) in *.
  set (c := digit_value c3) in *. set (d := digit_value c4) in *.
  set (v := 10 * (10 * (10 * (10 * 0 + a) + b) + c) + d).
  assert (H1 : v / 1000 = a) by (symmetry; apply Z.div_unique with (100 * b + 10 * c + d); lia).
  assert (H2 : v / 100 = 10 * a + b) by (symmetry; apply Z.div_unique with (10 * c + d); lia).
  assert (H3 : v mod 100 = 10 * c + d) by (symmetry; apply Z.mod_unique with (10 * a + b); lia).
  assert (H4 : (10 * a + b) mod 10 = b) by (symmetry; apply Z.mod_unique with a; lia).
  assert (H5 : (10 * c + d) / 10 = c) by (symmetry; apply Z.div_unique with d; lia).
  assert (H6 : (10 * c + d) mod 10 = d) by (symmetry; apply Z.mod_unique with c; lia).
  split; [|lia]. unfold put4, put2. rewrite H1, H2, H3, H4, H5, H6. congruence.
Qed.

Lemma expect_inv c s rest : expect c s = Some rest -> s = String c rest.
Proof.
  destruct s as [|c' s]; [discriminate|]. cbn [expect].
  destruct (Ascii.eqb_spec c c') as [->|]; [|discriminate]. now intros [= ->].
Qed.

Lemma expect_head c rest : expect c (String c rest) = Some rest.
Proof. cbn [expect]. now rewrite Ascii.eqb_refl. Qed.

(** *** The fraction of a second and the zone *)

Lemma append_cons c s t : String c s +:+ t = String c (s +:+ t).
Proof. reflexivity. Qed.

Lemma append_empty t : "" +:+ t = t.
Proof. reflexivity. Qed.

(** A string that does not begin with a digit. *)
Definition no_digit_ahead (s : string) : Prop :=
  match s with
  | EmptyString => True
  | String c _ => is_digit c = false
  end.

Lemma take_fraction_digits f : forall scale acc rest,
  all_digits f = true -> no_digit_ahead rest ->
  exists v, take_fraction scale acc (f +:+ rest) = (v, rest).
Proof.
  induction f as [|c f IH]; intros scale acc rest Hf Hr.
  - rewrite append_empty. destruct rest as [|c rest]; [now eexists|].
    cbn [take_fraction]. cbn in Hr. rewrite Hr. now eexists.
  - rewrite append_cons. cbn [take_fraction]. cbn [all_digits] in Hf.
    apply andb_true_iff in Hf as [-> Hf]. now apply IH.
Qed.

Lemma take_fraction_inv s : forall scale acc v rest,
  take_fraction scale acc s = (v, rest) ->
  exists f, all_digits f = true /\ s = f +:+ rest.
Proof.
  induction s as [|c s IH]; intros scale acc v rest H; cbn [take_fraction] in H.
  - injection H as _ <-. now exists "".
  - destruct (is_digit c) eqn:Hc.
    + destruct (IH _ _ _ _ H) as (f & Hf & ->). exists (String c f). split; [|reflexivity].
      cbn [all_digits]. now rewrite Hc, Hf.
    + injection H as _ <-. now exists "".
Qed.

Lemma render_zone_no_digit z : no_digit_ahead (render_zone z).
Proof. destruct z as [|[]|[] h m]; cbn; auto. Qed.

Lemma render_zone_no_point z :
  match render_zone z with
  | String p _ => Ascii.eqb p "." = false
  | EmptyString => True
  end.
Proof. destruct z as [|[]|[] h m]; cbn; auto. Qed.

Lemma take_secfrac_render f z :
  all_digits f = true ->
  exists v, take_secfrac (render_secfrac f (render_zone z)) = (v, render_zone z).
Proof.
  intros Hf. destruct f as [|c f]; cbn [render_secfrac].
  - pose proof (render_zone_no_point z) as Hp. unfold take_secfrac.
    destruct (render_zone z) as [|p [|c rest]]; try (now eexists).
    rewrite Hp. now eexists.
  - rewrite append_cons. unfold take_secfrac.
    cbn [all_digits] in Hf. pose proof Hf as Hf'.
    apply andb_true_iff in Hf' as [Hc _]. rewrite Hc.
    change (Ascii.eqb "." "." && true) with true. cbv iota.
    rewrite <- append_cons. apply take_fraction_digits; [exact Hf|].
    apply render_zone_no_digit.
Qed.

Lemma take_secfrac_inv s v rest :
  take_secfrac s = (v, rest) ->
  exists f, all_digits f = true /\ s = render_secfrac f rest.
Proof.
  unfold take_secfrac.
  destruct s as [|p [|c s]]; try (intros [= _ <-]; now exists "").
  destruct (Ascii.eqb_spec p ".") as [->|_]; cbn [andb];
    [|intros [= _ <-]; now exists ""].
  destruct (is_digit c) eqn:Hc; [|intros [= _ <-]; now exists ""].
  cbn [take_fraction]. rewrite Hc. intros H.
  apply take_fraction_inv in H as (f & Hf & ->).
  exists (String c f). split; [cbn [all_digits]; now rewrite Hc, Hf | reflexivity].
Qed.

Lemma parse_zone_render z :
  zone_in_range z -> exists off, parse_zone (render_zone z) = Some off.
Proof.
  destruct z as [|[]|negative h m]; cbn [render_zone zone_in_range];
    try (intros _; now eexists).
  intros [Hh Hm]. unfold parse_zone.
  assert (Hs : (Ascii.eqb (if negative then "-" else "+") "Z"
                || Ascii.eqb (if negative then "-" else "+") "z")%char = false)
    by now destruct negative.
  assert (Hp : (Ascii.eqb (if negative then "-" else "+") "+"
                || Ascii.eqb (if negative then "-" else "+") "-")%char = true)
    by now destruct negative.
  rewrite Hs, Hp, take_digits_put2, expect_head, take_digits_put2 by lia.
  destruct (Z.leb_spec h 23); [|lia]. destruct (Z.leb_spec m 59); [|lia].
  now eexists.
Qed.

Lemma parse_zone_inv s off :
  parse_zone s = Some off -> exists z, zone_in_range z /\ s = render_zone z.
Proof.
  unfold parse_zone. destruct s as [|c rest]; [intros _; now exists ZoneAbsent|].
  destruct (Ascii.eqb_spec c "Z") as [->|_]; cbn [orb].
  { destruct rest; [|discriminate]. intros _. now exists (ZoneUTC false). }
  destruct (Ascii.eqb_spec c "z") as [->|_].
  { destruct rest; [|discriminate]. intros _. now exists (ZoneUTC true). }
  destruct (take_digits 2 0 rest) as [[hh rest1]|] eqn:Hh;
    [|now destruct (Ascii.eqb c "+" || Ascii.eqb c "-")].
  destruct (expect ":" rest1) as [rest2|] eqn:He;
    [|now destruct (Ascii.eqb c "+" || Ascii.eqb c "-")].
  destruct (take_digits 2 0 rest2) as [[mm [ | ? ? ]]|] eqn:Hm;
    try (now destruct (Ascii.eqb c "+" || Ascii.eqb c "-")).
  apply take_digits2_inv in Hh as [-> Bh]. apply expect_inv in He as ->.
  apply take_digits2_inv in Hm as [-> Bm].
  destruct (Z.leb_spec hh 23); cbn [andb];
    [|now destruct (Ascii.eqb c "+" || Ascii.eqb c "-")].
  destruct (Z.leb_spec mm 59); [|now destruct (Ascii.eqb c "+" || Ascii.eqb c "-")].
  destruct (Ascii.eqb_spec c "+") as [->|_]; cbn [orb].
  { intros _. exists (ZoneOffset false hh mm). split; [cbn; lia | reflexivity]. }
  destruct (Ascii.eqb_spec c "-") as [->|_]; [|discriminate].
  intros _. exists (ZoneOffset true hh mm). split; [cbn; lia | reflexivity].
Qed.

(** *** Grammar 3 and its parser *)

Lemma parse_rfc3339_render ts :
  in_range ts -> exists t, parse_rfc3339 (render ts) = Some t.
Proof.
  intros (Hy & Hmo & Hd & Hh & Hmi & Hs & Hf & Hz).
  assert (Hd31 : days_in_month (ts_year ts) (ts_month ts) <= 31).
  { unfold days_in_month.
    destruct (ts_month ts =? 2); [destruct (is_leap (ts_year ts)); lia|].
    destruct (_ || _); lia. }
  destruct (take_secfrac_render (ts_fraction ts) (ts_zone ts) Hf) as [nanos Hn].
  destruct (parse_zone_render (ts_zone ts) Hz) as [off Ho].
  unfold parse_rfc3339, render.
  rewrite take_digits_put4 by lia. cbn [bind_opt]. rewrite expect_head. cbn [bind_opt].
  rewrite take_digits_put2 by lia. cbn [bind_opt]. rewrite expect_head. cbn [bind_opt].
  rewrite take_digits_put2 by lia. cbn [bind_opt].
  assert (Ht : forall rest,
             expect_either "T" "t" (String (if ts_lower_t ts then "t" else "T")%char rest)
             = Some rest) by (intros; now destruct (ts_lower_t ts)).
  rewrite Ht. cbn [bind_opt].
  rewrite take_digits_put2 by lia. cbn [bind_opt]. rewrite expect_head. cbn [bind_opt].
  rewrite take_digits_put2 by lia. cbn [bind_opt]. rewrite expect_head. cbn [bind_opt].
  rewrite take_digits_put2 by lia. cbn [bind_opt].
  rewrite Hn, Ho. cbn [bind_opt].
  destruct (Z.leb_spec 1 (ts_month ts)); [|lia].
  destruct (Z.leb_spec (ts_month ts) 12); [|lia].
  destruct (Z.leb_spec 1 (ts_day ts)); [|lia].
  destruct (Z.leb_spec (ts_day ts) (days_in_month (ts_year ts) (ts_month ts))); [|lia].
  destruct (Z.leb_spec (ts_hour ts) 23); [|lia].
  destruct (Z.leb_spec (ts_minute ts) 59); [|lia].
  destruct (Z.leb_spec (ts_second ts) 60); [|lia].
  now eexists.
Qed.

Lemma expect_either_inv c1 c2 s rest :
  expect_either c1 c2 s = Some rest -> s = String c1 rest \/ s = String c2 rest.
Proof.
  destruct s as [|c s]; [discriminate|]. cbn [expect_either].
  destruct (Ascii.eqb_spec c c1) as [->|_]; [intros [= ->]; now left|].
  destruct (Ascii.eqb_spec c c2) as [->|_]; [intros [= ->]; now right|]. discriminate.
Qed.

Lemma parse_rfc3339_inv expr t :
  parse_rfc3339 expr = Some t -> matches_rfc3339 expr.
Proof.
  unfold parse_rfc3339.
  destruct (take_digits 4 0 expr) as [[year s1]|] eqn:H1; [|discriminate]. cbn [bind_opt].
  destruct (expect "-" s1) as [s2|] eqn:H2; [|discriminate]. cbn [bind_opt].
  destruct (take_digits 2 0 s2) as [[month s3]|] eqn:H3; [|discriminate]. cbn [bind_opt].
  destruct (expect "-" s3) as [s4|] eqn:H4; [|discriminate]. cbn [bind_opt].
  destruct (take_digits 2 0 s4) as [[day s5]|] eqn:H5; [|discriminate]. cbn [bind_opt].
  destruct (expect_either "T" "t" s5) as [s6|] eqn:H6; [|discriminate]. cbn [bind_opt].
  destruct (take_digits 2 0 s6) as [[hour s7]|] eqn:H7; [|discriminate]. cbn [bind_opt].
  destruct (expect ":" s7) as [s8|] eqn:H8; [|discriminate]. cbn [bind_opt].
  destruct (take_digits 2 0 s8) as [[minute s9]|] eqn:H9; [|discriminate]. cbn [bind_opt].
  destruct (expect ":" s9) as [s10|] eqn:H10; [|discriminate]. cbn [bind_opt].
  destruct (take_digits 2 0 s10) as [[sec s11]|] eqn:H11; [|discriminate]. cbn [bind_opt].
  destruct (take_secfrac s11) as [nanos s12] eqn:H12.
  destruct (parse_zone s12) as [off|] eqn:H13; [|discriminate]. cbn [bind_opt].
  destruct (Z.leb_spec 1 month); [|discriminate].
  destruct (Z.leb_spec month 12); [|discriminate].
  destruct (Z.leb_spec 1 day); [|discriminate].
  destruct (Z.leb_spec day (days_in_month year month)); [|discriminate].
  destruct (Z.leb_spec hour 23); [|discriminate].
  destruct (Z.leb_spec minute 59); [|discriminate].
  destruct (Z.leb_spec sec 60); [|discriminate].
  intros _.
  apply take_digits4_inv in H1 as [-> B1]. apply expect_inv in H2 as ->.
  apply take_digits2_inv in H3 as [-> B3]. apply expect_inv in H4 as ->.
  apply take_digits2_inv in H5 as [-> B5].
  apply take_digits2_inv in H7 as [-> B7]. apply expect_inv in H8 as ->.
  apply take_digits2_inv in H9 as [-> B9]. apply expect_inv in H10 as ->.
  apply take_digits2_inv in H11 as [-> B11].
  apply take_secfrac_inv in H12 as (f & Hf & ->).
  apply parse_zone_inv in H13 as (z & Hz & ->).
  apply expect_either_inv in H6.
  pose (ts := fun lower =>
            {| ts_year := year; ts_month := month; ts_day := day; ts_lower_t := lower;
               ts_hour := hour; ts_minute := minute; ts_second := sec;
               ts_fraction := f; ts_zone := z |}).
  assert (Hr : forall lower, in_range (ts lower))
    by (intros; unfold in_range; cbn; repeat split; try lia; assumption).
  destruct H6 as [-> | ->]; [exists (ts false) | exists (ts true)];
    (split; [apply Hr | reflexivity]).
Qed.

Lemma parse_rfc3339_matches expr :
  is_Some (parse_rfc3339 expr) <-> matches_rfc3339 expr.
Proof.
  split.
  - intros [t H]. exact (parse_rfc3339_inv expr t H).
  - intros (ts & Hts & ->). exact (parse_rfc3339_render ts Hts).
Qed.

(** The resolver fails exactly on the strings outside the three grammars. *)
Lemma resolve_fails_iff expr T :
  resolve expr T = inl InvalidTimeExpression <-> ~ matches_grammar expr.
Proof.
  unfold resolve, matches_grammar.
  destruct (String.eqb_spec expr "now") as [->|Hn].
  { split; [discriminate | intros H; destruct H; now left]. }
  rewrite <- parse_relative_matches, <- parse_rfc3339_matches.
  destruct (parse_relative expr) as [[n u]|].
  { split; [discriminate | intros H; destruct H; right; left; eauto]. }
  destruct (parse_rfc3339 expr).
  { split; [discriminate | intros H; destruct H; right; right; eauto]. }
  split; [|reflexivity]. intros _ [?|[[? ?]|[? ?]]]; congruence.
Qed.

End TimeExprFacts.

(** ** Decimal numerals and the URL builder *)

Section URLBuilderFacts.
Import URLBuilder.

Lemma to_int_printable z :
  Z.to_int z <> Decimal.Pos Decimal.Nil /\ Z.to_int z <> Decimal.Neg Decimal.Nil.
Proof.
  destruct z as [|p|p]; cbn; split; try discriminate;
    intros [= H]; now apply DecimalPos.Unsigned.to_uint_nonnil in H.
Qed.

(** A numeral reads back as the integer it was printed from. *)
Lemma ParseInt_FormatInt z : ParseInt (FormatInt z) = Some z.
Proof.
  unfold ParseInt, FormatInt.
  destruct (to_int_printable z) as [Hp Hn].
  rewrite NilZero.isi by assumption.
  now rewrite DecimalZ.of_to.
Qed.

Lemma percent_encode_digits d :
  percent_encode (NilEmpty.string_of_uint d) = NilEmpty.string_of_uint d.
Proof.
  induction d; cbn [NilEmpty.string_of_uint percent_encode]; [reflexivity|..];
    rewrite IHd; reflexivity.
Qed.

Lemma percent_encode_uint d :
  percent_encode (NilZero.string_of_uint d) = NilZero.string_of_uint d.
Proof.
  destruct d; try reflexivity; apply (percent_encode_digits (_ d)).
Qed.

(** Encoding leaves a numeral as it is. *)
Lemma percent_encode_FormatInt z : percent_encode (FormatInt z) = FormatInt z.
Proof.
  unfold FormatInt. destruct (Z.to_int z) as [d|d]; cbn [NilZero.string_of_int].
  - apply percent_encode_uint.
  - cbn [percent_encode]. rewrite percent_encode_uint. reflexivity.
Qed.

Lemma append_assoc (a b c : string) : (a +:+ b) +:+ c = a +:+ (b +:+ c).
Proof.
  induction a as [|x a IH]; [reflexivity|].
  change (String x ((a +:+ b) +:+ c) = String x (a +:+ (b +:+ c))).
  now rewrite IH.
Qed.

Lemma query_url_string baseURL query start end_ limit :
  URL_String (query_url baseURL query start end_ limit) =
  baseURL +:+ "/loki/api/v1/query_range?query=" +:+ percent_encode query
    +:+ "&start=" +:+ FormatInt (start * 1000000000)
    +:+ "&end=" +:+ FormatInt (end_ * 1000000000)
    +:+ "&limit=" +:+ FormatInt limit.
Proof.
  unfold URL_String, query_url, nanoseconds; cbn [url_base url_path url_query encode_query].
  rewrite !percent_encode_FormatInt.
  change (percent_encode "query") with "query".
  change (percent_encode "start") with "start".
  change (percent_encode "end") with "end".
  change (percent_encode "limit") with "limit".
  repeat (rewrite ?append_assoc; cbn [String.append]). reflexivity.
Qed.

Lemma labels_url_string baseURL start end_ :
  URL_String (labels_url baseURL start end_) =
  baseURL +:+ "/loki/api/v1/labels?start=" +:+ FormatInt (start * 1000000000)
    +:+ "&end=" +:+ FormatInt (end_ * 1000000000).
Proof.
  unfold URL_String, labels_url, nanoseconds; cbn [url_base url_path url_query encode_query].
  rewrite !percent_encode_FormatInt.
  change (percent_encode "start") with "start".
  change (percent_encode "end") with "end".
  repeat (rewrite ?append_assoc; cbn [String.append]). reflexivity.
Qed.

Lemma label_values_url_string baseURL label start end_ :
  URL_String (label_values_url baseURL label start end_) =
  baseURL +:+ "/loki/api/v1/label/" +:+ percent_encode label
    +:+ "/values?start=" +:+ FormatInt (start * 1000000000)
    +:+ "&end=" +:+ FormatInt (end_ * 1000000000).
Proof.
  unfold URL_String, label_values_url, nanoseconds;
    cbn [url_base url_path url_query encode_query].
  rewrite !percent_encode_FormatInt.
  change (percent_encode "start") with "start".
  change (percent_encode "end") with "end".
  repeat (rewrite ?append_assoc; cbn [String.append]). reflexivity.
Qed.

End URLBuilderFacts.
(** ** Authorization of the outbound request *)

Section ExecutorFacts.
Import Executor.

Lemma eqb_empty_false (s : string) : s <> "" -> (s =? "")%string = false.
Proof. intros H. now destruct (String.eqb_spec s ""). Qed.

Lemma new_request_token url username password token orgID :
  token <> "" ->
  new_request url username password token orgID = new_request url "" "" token orgID.
Proof.
  intros H. unfold new_request. now rewrite (eqb_empty_false token H).
Qed.

Lemma authorization_lookup url username password token orgID :
  req_header (new_request url username password token orgID) !! "Authorization" =
    if negb (token =? "")%string then Some (bearer token)
    else if negb (username =? "")%string then Some (basic username password)
    else None.
Proof.
  unfold new_request; cbn [req_header].
  destruct (negb (token =? "")%string), (negb (username =? "")%string),
    (negb (orgID =? "")%string);
    now simplify_map_eq.
Qed.

(** *** Base64 reads back *)

Lemma base64_digits_read_back :
  forallb (fun n => match base64_value (base64_digit n) with
                    | Some m => (m =? n)%N
                    | None => false
                    end && negb (Ascii.eqb (base64_digit n) "="))
    (List.map N.of_nat (seq 0 64)) = true.
Proof. vm_compute. reflexivity. Qed.

Lemma base64_value_digit n :
  (n < 64)%N ->
  base64_value (base64_digit n) = Some n /\ Ascii.eqb (base64_digit n) "=" = false.
Proof.
  intros H. pose proof base64_digits_read_back as F.
  rewrite forallb_forall in F. specialize (F n).
  assert (Hin : In n (List.map N.of_nat (seq 0 64))).
  { apply in_map_iff. exists (N.to_nat n). split; [lia|]. apply in_seq. lia. }
  specialize (F Hin). apply andb_true_iff in F as [F1 F2].
  destruct (base64_value (base64_digit n)) as [m|]; [|discriminate].
  apply N.eqb_eq in F1 as ->. split; [reflexivity|]. now apply negb_true_iff.
Qed.

Ltac sextet :=
  match goal with
  | |- context [base64_value (base64_digit ?n)] =>
      let H1 := fresh in let H2 := fresh in
      destruct (base64_value_digit n) as [H1 H2];
      [zify; Z.to_euclidean_division_equations; lia | rewrite ?H1, ?H2; clear H1 H2]
  | |- context [Ascii.eqb (base64_digit ?n) "="] =>
      let H1 := fresh in let H2 := fresh in
      destruct (base64_value_digit n) as [H1 H2];
      [zify; Z.to_euclidean_division_equations; lia | rewrite ?H1, ?H2; clear H1 H2]
  end.

Lemma base64_bytes_read_back (k : nat) : forall bytes,
  (length bytes <= k)%nat -> Forall (fun b => (b < 256)%N) bytes ->
  base64_decode_bytes (base64_bytes bytes) = Some bytes.
Proof.
  induction k as [k IH] using lt_wf_ind. intros bytes Hk Hb.
  destruct bytes as [|a [|b [|c rest]]].
  - reflexivity.
  - apply Forall_cons in Hb as [Ha _].
    cbn [base64_bytes base64_decode_bytes]. repeat sextet.
    change (Ascii.eqb "=" "=") with true. cbv iota.
    do 2 f_equal. zify; Z.to_euclidean_division_equations; lia.
  - apply Forall_cons in Hb as [Ha Hb]. apply Forall_cons in Hb as [Hb _].
    cbn [base64_bytes base64_decode_bytes]. repeat sextet.
    change (Ascii.eqb "=" "=") with true. cbv iota.
    f_equal. f_equal; [|f_equal]; zify; Z.to_euclidean_division_equations; lia.
  - apply Forall_cons in Hb as [Ha Hb]. apply Forall_cons in Hb as [Hb Hr].
    apply Forall_cons in Hr as [Hc Hr].
    cbn [base64_bytes base64_decode_bytes]. repeat sextet.
    cbn [length] in Hk.
    rewrite (IH (length rest)) by (assumption || lia).
    f_equal. f_equal; [|f_equal; [|f_equal]]; zify; Z.to_euclidean_division_equations; lia.
Qed.

Lemma base64_decode_base64 (s : string) : base64_decode (base64 s) = Some s.
Proof.
  unfold base64_decode, base64.
  rewrite (base64_bytes_read_back _ _ (le_n _)).
  - rewrite List.map_map.
    rewrite (List.map_ext _ (fun c => c)) by (intros; apply ascii_N_embedding).
    now rewrite List.map_id, string_of_list_ascii_of_string.
  - apply List.Forall_forall. intros b Hin. apply in_map_iff in Hin as (c & <- & _).
    apply N_ascii_bounded.
Qed.

(** The value [basic] writes is the scheme and the base64 of
    [username:password]. *)
Lemma basic_reads_back username password :
  exists encoded,
    basic username password = "Basic " +:+ encoded
    /\ base64_decode encoded = Some (username +:+ ":" +:+ password).
Proof. eexists. split; [reflexivity|]. apply base64_decode_base64. Qed.

End ExecutorFacts.

(** ** JSON round trip *)

Section JSONFacts.
Import JSON.

(** Induction on values, with the items and members as hypotheses. *)
Lemma value_ind (P : value -> Prop) :
  P Null -> (forall b, P (Bool b)) -> (forall s, P (Str s)) ->
  (forall items, Forall P items -> P (Array items)) ->
  (forall members, Forall (fun m => P (snd m)) members -> P (Object members)) ->
  forall v, P v.
Proof.
  intros HN HB HS HA HO.
  fix IH 1. intros [ |b|s|items|members].
  - exact HN.
  - apply HB.
  - apply HS.
  - apply HA. induction items as [|x items IHi]; constructor; [apply IH | exact IHi].
  - apply HO. induction members as [|[k x] members IHm]; constructor; [apply IH | exact IHm].
Qed.

Lemma print_array x rest tail :
  print_to (Array (x :: rest)) tail = String "[" (print_to x (items_to rest tail)).
Proof.
  cbn [print_to]. do 2 f_equal.
  induction rest as [|y rest IH]; [reflexivity|].
  cbn [items_to]. now rewrite <- IH.
Qed.

Lemma print_object k x rest tail :
  print_to (Object ((k, x) :: rest)) tail =
  String "{" (quote_to k (String ":" (print_to x (members_to rest tail)))).
Proof.
  cbn [print_to]. do 4 f_equal.
  induction rest as [|[k' y] rest IH]; [reflexivity|].
  cbn [members_to]. now rewrite <- IH.
Qed.

(** Reading one escaped byte. *)
Lemma parse_string_escape_char c t :
  parse_string (escape_char_to c t) =
  match parse_string t with
  | Some (str, r) => Some (String c str, r)
  | None => None
  end.
Proof.
  destruct c as [[] [] [] [] [] [] [] []]; reflexivity.
Qed.

Lemma parse_string_escape s tail :
  parse_string (escape_to s (String dquote tail)) = Some (s, tail).
Proof.
  induction s as [|c s IH]; [reflexivity|].
  cbn [escape_to]. now rewrite parse_string_escape_char, IH.
Qed.

(** One step of each parser. *)
Lemma parse_items_S f s :
  parse_items (S f) s =
  match parse_value f s with
  | Some (x, r) =>
      match skip_ws r with
      | String c r' =>
          if Ascii.eqb c "," then
            match parse_items f r' with
            | Some (items, r'') => Some (x :: items, r'')
            | None => None
            end
          else if Ascii.eqb c "]" then Some ([x], r')
          else None
      | EmptyString => None
      end
  | None => None
  end.
Proof. reflexivity. Qed.

Lemma parse_value_array f rest :
  parse_value (S f) (String "[" rest) =
  match skip_ws rest with
  | String c1 r1 =>
      if Ascii.eqb c1 "]" then Some (Array [], r1)
      else
        match parse_items f (String c1 r1) with
        | Some (items, r) => Some (Array items, r)
        | None => None
        end
  | EmptyString => None
  end.
Proof. reflexivity. Qed.

Lemma parse_value_object f rest :
  parse_value (S f) (String "{" rest) =
  match skip_ws rest with
  | String c1 r1 =>
      if Ascii.eqb c1 "}" then Some (Object [], r1)
      else
        match parse_members f (String c1 r1) with
        | Some (members, r) => Some (Object members, r)
        | None => None
        end
  | EmptyString => None
  end.
Proof. reflexivity. Qed.

Lemma parse_members_quote f k s :
  parse_members (S f) (quote_to k s) =
  match skip_ws s with
  | String colon s3 =>
      if Ascii.eqb colon ":" then
        match parse_value f s3 with
        | Some (x, r) =>
            match skip_ws r with
            | String c r' =>
                if Ascii.eqb c "," then
                  match parse_members f r' with
                  | Some (members, r'') => Some ((k, x) :: members, r'')
                  | None => None
                  end
                else if Ascii.eqb c "}" then Some ([(k, x)], r')
                else None
            | EmptyString => None
            end
        | None => None
        end
      else None
  | EmptyString => None
  end.
Proof.
  unfold quote_to. cbn [parse_members skip_ws].
  change (is_space dquote) with false. cbv iota.
  change (Ascii.eqb dquote dquote) with true. cbv iota.
  now rewrite parse_string_escape.
Qed.

(** A printed value starts with a character that is neither white space
    nor a closing bracket. *)
Lemma print_to_head v tail :
  exists c s, print_to v tail = String c s
    /\ is_space c = false /\ Ascii.eqb c "]" = false /\ Ascii.eqb c "}" = false.
Proof.
  destruct v as [ |[]|s|items|members]; cbn [print_to];
    eexists _, _; (split; [reflexivity|]); repeat split.
Qed.

Lemma parse_items_print rest : forall x fuel tail,
  reads_back x -> Forall reads_back rest ->
  (S (cost x + fold_right (fun y n => S (cost y + n)) O rest) <= fuel)%nat ->
  parse_items fuel (print_to x (items_to rest tail)) = Some (x :: rest, tail).
Proof.
  induction rest as [|y rest IH]; intros x fuel tail Hx Hrest Hfuel;
    (destruct fuel as [|f]; [lia|]); rewrite parse_items_S, Hx by (cbn in Hfuel; lia).
  - reflexivity.
  - cbn [items_to skip_ws]. change (is_space ",") with false. cbv iota.
    change (Ascii.eqb "," ",") with true. cbv iota.
    inversion Hrest; subst.
    rewrite IH; [reflexivity | assumption | assumption | cbn in Hfuel |- *; lia].
Qed.

Lemma parse_members_print rest : forall k x fuel tail,
  reads_back x -> Forall (fun m => reads_back (snd m)) rest ->
  (S (cost x + fold_right (fun m n => S (cost (snd m) + n)) O rest) <= fuel)%nat ->
  parse_members fuel (quote_to k (String ":" (print_to x (members_to rest tail))))
  = Some ((k, x) :: rest, tail).
Proof.
  induction rest as [|[k' y] rest IH]; intros k x fuel tail Hx Hrest Hfuel;
    (destruct fuel as [|f]; [lia|]); rewrite parse_members_quote;
    cbn [skip_ws]; change (is_space ":") with false; cbv iota;
    change (Ascii.eqb ":" ":") with true; cbv iota;
    rewrite Hx by (cbn in Hfuel; lia).
  - reflexivity.
  - cbn [members_to skip_ws]. change (is_space ",") with false. cbv iota.
    change (Ascii.eqb "," ",") with true. cbv iota.
    inversion Hrest; subst.
    rewrite IH; [reflexivity | assumption | assumption | cbn in Hfuel |- *; lia].
Qed.

(** Parsing what was printed gives the value back, and leaves the tail. *)
Lemma parse_value_print v : reads_back v.
Proof.
  induction v as [ |b|s|items IH|members IH] using value_ind; intros fuel tail Hfuel;
    (destruct fuel as [|f]; [cbn in Hfuel; lia|]).
  - reflexivity.
  - destruct b; reflexivity.
  - cbn [print_to]. unfold quote_to. cbn [parse_value skip_ws].
    change (is_space dquote) with false. cbv iota.
    change (Ascii.eqb dquote "n") with false. change (Ascii.eqb dquote "t") with false.
    change (Ascii.eqb dquote "f") with false. change (Ascii.eqb dquote dquote) with true.
    cbv iota. now rewrite parse_string_escape.
  - destruct items as [|x rest]; [reflexivity|].
    rewrite print_array, parse_value_array.
    destruct (print_to_head x (items_to rest tail)) as (c & s' & E & Hs & Hb & _).
    rewrite E. cbn [skip_ws]. rewrite Hs, Hb, <- E.
    inversion IH; subst.
    rewrite parse_items_print; [reflexivity | assumption | assumption |].
    cbn in Hfuel |- *; lia.
  - destruct members as [|[k x] rest]; [reflexivity|].
    rewrite print_object, parse_value_object.
    unfold quote_to at 1. cbn [skip_ws]. change (is_space dquote) with false. cbv iota.
    change (Ascii.eqb dquote "}") with false. cbv iota.
    inversion IH; subst.
    change (String dquote (escape_to k (String dquote ?t))) with (quote_to k t).
    rewrite parse_members_print; [reflexivity | assumption | assumption |].
    cbn in Hfuel |- *; lia.
Qed.

Lemma length_append (a b : string) :
  String.length (a +:+ b) = (String.length a + String.length b)%nat.
Proof.
  induction a as [|c a IH]; [reflexivity|].
  change (String c a +:+ b) with (String c (a +:+ b)).
  cbn [String.length]. now rewrite IH.
Qed.

(** The printed text is long enough to pay for its own parsing. *)
Lemma length_escape_char c t :
  (S (String.length t) <= String.length (escape_char_to c t))%nat.
Proof.
  unfold escape_char_to.
  repeat match goal with |- context [if ?b then _ else _] => destruct b end;
    cbn [String.length]; lia.
Qed.

Lemma length_escape s t : (String.length t <= String.length (escape_to s t))%nat.
Proof.
  induction s as [|c s IH]; cbn [escape_to]; [lia|].
  pose proof (length_escape_char c (escape_to s t)). lia.
Qed.

Lemma length_quote s t : (S (S (String.length t)) <= String.length (quote_to s t))%nat.
Proof.
  unfold quote_to. cbn [String.length].
  pose proof (length_escape s (String dquote t)) as H. cbn [String.length] in H. lia.
Qed.

Lemma length_items rest tail :
  Forall pays rest ->
  (String.length tail + fold_right (fun y n => S (cost y + n)) O rest
   < String.length (items_to rest tail))%nat.
Proof.
  induction 1 as [|y rest Hy _ IH]; cbn [items_to fold_right String.length]; [lia|].
  specialize (Hy (items_to rest tail)). lia.
Qed.

Lemma length_members rest tail :
  Forall (fun m => pays (snd m)) rest ->
  (String.length tail + fold_right (fun m n => S (cost (snd m) + n)) O rest
   < String.length (members_to rest tail))%nat.
Proof.
  induction 1 as [|[k y] rest Hy _ IH]; cbn [members_to fold_right String.length snd]; [lia|].
  cbn [snd] in Hy. specialize (Hy (members_to rest tail)).
  pose proof (length_quote k (String ":" (print_to y (members_to rest tail)))) as Hq.
  cbn [String.length] in Hq. lia.
Qed.

Lemma length_print v : pays v.
Proof.
  induction v as [ |b|s|items IH|members IH] using value_ind; intros tail.
  - cbn [print_to cost]. rewrite length_append. cbn [String.length]. lia.
  - destruct b; cbn [print_to cost]; rewrite length_append; cbn [String.length]; lia.
  - cbn [print_to cost]. pose proof (length_quote s tail). lia.
  - destruct items as [|x rest]; [cbn [print_to cost fold_right String.length]; lia|].
    rewrite print_array. inversion IH as [|? ? Hx Hrest]; subst.
    pose proof (length_items rest tail Hrest). specialize (Hx (items_to rest tail)).
    cbn [cost fold_right String.length]. lia.
  - destruct members as [|[k x] rest]; [cbn [print_to cost fold_right String.length]; lia|].
    rewrite print_object. inversion IH as [|? ? Hx Hrest]; subst. cbn [snd] in Hx.
    pose proof (length_members rest tail Hrest). specialize (Hx (members_to rest tail)).
    pose proof (length_quote k (String ":" (print_to x (members_to rest tail)))) as Hq.
    cbn [cost fold_right String.length snd] in *. lia.
Qed.

(** Parsing the compact rendering of a value gives the value back. *)
Lemma parse_print v : parse (print v) = Some v.
Proof.
  unfold parse, print. rewrite parse_value_print; [reflexivity|].
  pose proof (length_print v EmptyString) as H. cbn [String.length] in H. lia.
Qed.

End JSONFacts.

(** ** The [json] rendering decodes to the result it was made from *)

Section FormatterFacts.
Import JSON Formatter.

Lemma traverse_map {A B} (f : B -> option A) (g : A -> B) (l : list A) :
  (forall x, f (g x) = Some x) -> traverse f (List.map g l) = Some l.
Proof.
  intros H. induction l as [|x l IH]; [reflexivity|].
  cbn [List.map traverse]. now rewrite H, IH.
Qed.

Lemma entry_of_to_json e : entry_of_json (entry_to_json e) = Some e.
Proof.
  destruct e as [labels vs]. unfold entry_of_json, entry_to_json.
  cbn [field List.find fst snd String.eqb Ascii.eqb Bool.eqb stream values].
  rewrite (traverse_map member_to_label label_to_member) by (now intros []).
  rewrite (traverse_map pair_of_json pair_to_json) by (now intros []).
  now rewrite list_to_map_to_list.
Qed.

Lemma query_result_of_to_json r : query_result_of_json (query_result_to_json r) = Some r.
Proof.
  destruct r as [status entries]. unfold query_result_of_json, query_result_to_json.
  cbn [field List.find fst snd String.eqb Ascii.eqb Bool.eqb query_status query_result].
  now rewrite (traverse_map entry_of_json entry_to_json) by apply entry_of_to_json.
Qed.

Lemma labels_result_of_to_json r : labels_result_of_json (labels_result_to_json r) = Some r.
Proof.
  destruct r as [status names]. unfold labels_result_of_json, labels_result_to_json.
  cbn [field List.find fst snd String.eqb Ascii.eqb Bool.eqb labels_status labels_data].
  now rewrite (traverse_map as_string Str) by reflexivity.
Qed.

End FormatterFacts.

(** ** The conversion of the limit *)

Section FloatFacts.

(** [trunc_pos m e] is [m * 2^e] with its fraction discarded. *)
Lemma trunc_pos_spec m e :
  (0 <= e -> trunc_pos m e = Zpos m * 2 ^ e)
  /\ (e < 0 -> trunc_pos m e * 2 ^ (- e) <= Zpos m < (trunc_pos m e + 1) * 2 ^ (- e)).
Proof.
  unfold trunc_pos. split; intros He.
  - destruct (Z.leb_spec 0 e); [|lia]. apply Z.shiftl_mul_pow2; lia.
  - destruct (Z.leb_spec 0 e); [lia|].
    rewrite Z.shiftr_div_pow2 by lia.
    assert (0 < 2 ^ (- e)) by (apply Z.pow_pos_nonneg; lia).
    pose proof (Z.div_mod (Zpos m) (2 ^ (- e)) ltac:(lia)).
    pose proof (Z.mod_pos_bound (Zpos m) (2 ^ (- e)) ltac:(lia)). nia.
Qed.

Lemma float64_not_positive_gt0 f : float64_not_positive f = true -> float64_gt0 f = false.
Proof. destruct f as [s|s| |s m e]; try destruct s; try discriminate; reflexivity. Qed.

Lemma float64_to_int_fits un f : float64_fits_int f = true -> float64_to_int un f = float64_trunc f.
Proof. unfold float64_to_int. now intros ->. Qed.

(** A positive finite float fits an [int] exactly when its integer part is
    below 2^63. *)
Lemma float64_fits_int_positive m e :
  float64_fits_int (S754_finite false m e) = true
  <-> float64_trunc (S754_finite false m e) < 2 ^ 63.
Proof.
  unfold float64_fits_int, float64_finite, float64_trunc, MinInt, MaxInt. cbn [andb].
  assert (0 <= trunc_pos m e).
  { unfold trunc_pos. destruct (0 <=? e).
    - apply Z.shiftl_nonneg. lia.
    - apply Z.shiftr_nonneg. lia. }
  rewrite andb_true_iff, Z.leb_le, Z.leb_le. lia.
Qed.

End FloatFacts.

(** ** The handlers *)

(** Runs a handler against the responder [o]: every call is answered by a
    fresh variable and every test of the code is decided both ways. *)
Ltac exec o :=
  repeat (cbn [bind run fst snd negb];
    match goal with
    | |- context [o ?R ?e ?w] =>
        let r := fresh "r" in let w' := fresh "w" in
        destruct (o R e w) as [r w'] eqn:?
    | |- context [match ?r with Ok _ => _ | Err _ => _ end] => is_var r; destruct r
    | |- context [negb (?s =? "")%string] => destruct (String.eqb_spec s "")
    end).

Ltac unfold_handlers :=
  unfold outcome, trace, registered_handler, HandleLokiQueryProtocol,
    HandleLokiLabelNamesProtocol, HandleLokiLabelValuesProtocol,
    bindE, orErrorf, trigger.

Ltac decide_empty :=
  repeat match goal with
  | H : ?s = "" |- _ => rewrite !H in *; clear H
  | H : ?s <> "" |- context [(?s =? "")%string] => rewrite (eqb_empty_false s H)
  end.

Section HandlerFacts.

(** [getEnvOrDefault] by cases. *)
Lemma getEnvOrDefault_cases env value envKey defaultValue :
  getEnvOrDefault env value envKey defaultValue =
    if decide (value = "") then
      if decide (env envKey = "") then defaultValue else env envKey
    else value.
Proof.
  unfold getEnvOrDefault.
  destruct (String.eqb_spec value ""); cbn [negb]; case_decide; try congruence.
  destruct (String.eqb_spec (env envKey) ""); cbn [negb]; case_decide; congruence.
Qed.

(** [t.Unix()] is the whole second at or before [t]. *)
Lemma Time_Unix_floor t : Time_Unix t * Second <= t < Time_Unix t * Second + Second.
Proof.
  unfold Time_Unix, Second.
  pose proof (Z.div_mod t 1000000000 ltac:(lia)).
  pose proof (Z.mod_pos_bound t 1000000000 ltac:(lia)). lia.
Qed.

Lemma Time_Unix_hour_ago t : Time_Unix (Time_Add t (-1 * Hour)) = Time_Unix t - 3600.
Proof.
  unfold Time_Unix, Time_Add, Hour, Minute, Second.
  replace (t + -1 * (60 * (60 * 1000000000))) with (t + (-3600) * 1000000000) by lia.
  rewrite Z.div_add by lia. lia.
Qed.

(** The first call of a program is the head of its trace. *)
Lemma head_trace_Vis {W A R} (o : responder W) (e : event R) (k : R -> prog A) (w : W) :
  head (trace o (Vis e k) w) = Some (Call e (fst (o R e w))).
Proof.
  unfold trace. cbn [run]. destruct (o R e w) as [r w1].
  destruct (run o (k r) w1) as [[a w2] tr]. reflexivity.
Qed.

(** Every handler opens with the decoding of the raw arguments. *)
Lemma head_decode_call {W} (o : responder W) w env un op request :
  head (trace o (registered_handler env un op request) w)
  = Some (decode_call o op request w).
Proof.
  destruct op;
    unfold registered_handler, HandleLokiQueryProtocol, HandleLokiLabelNamesProtocol,
      HandleLokiLabelValuesProtocol, bindE, orErrorf, trigger, decode_call;
    cbn [bind]; apply head_trace_Vis.
Qed.

(** Which arguments the resolver is handed. *)
Lemma resolver_invocations {W} (o : responder W) w env un op request
    (c : call) (start end_ : string) :
  let tr := trace o (registered_handler env un op request) w in
  head tr = Some c -> decoded_range c = Some (start, end_) ->
  (exists k, (parse_args tr ++ k)%list = supplied start end_)
  /\ (forallb call_ok (calls_of StepTimeParse tr) = true ->
        parse_args tr = supplied start end_
        /\ exists st en, build_bounds tr = [(st, en)])
  /\ (start <> "" -> head (parse_args tr) = Some start)
  /\ (end_ <> "" -> In end_ (parse_args tr) \/ exists e, In (start, Err e) (parse_calls tr))
  /\ (exists now1 now2, clock_readings tr = [now1; now2]).
Proof.
  destruct op; unfold_handlers; exec o; cbn; unfold supplied.
  all: intros [= <-]; cbn; intros [= <- <-]; decide_empty; cbn.
  all: repeat split; try congruence; try (eexists; reflexivity);
    try (eexists _, _; reflexivity); try tauto; eauto.
Qed.

(** Which bounds reach the URL builder. *)
Lemma bounds_resolution {W} (o : responder W) w env un op request
    (c : call) (start end_ : string) (now1 now2 : Time) :
  let tr := trace o (registered_handler env un op request) w in
  head tr = Some c -> decoded_range c = Some (start, end_) ->
  clock_readings tr = [now1; now2] ->
  (forall st en, In (st, en) (build_bounds tr) ->
        exists ts te, st = Time_Unix ts /\ en = Time_Unix te
          /\ (if decide (start = "") then ts = Time_Add now1 (-1 * Hour)
              else In (start, Ok ts) (parse_calls tr))
          /\ (if decide (end_ = "") then te = now2
              else In (end_, Ok te) (parse_calls tr)))
  /\ (start = "" -> end_ = "" ->
        build_bounds tr = [(Time_Unix (Time_Add now1 (-1 * Hour)), Time_Unix now2)]).
Proof.
  destruct op; unfold_handlers; exec o; cbn.
  all: intros [= <-]; cbn; intros [= <- <-] [= <- <-]; cbn.
  all: split; [|try congruence; try tauto].
  all: try (intros st en H; exact (False_ind _ H)).
  all: try (intros st en [[= <- <-]|[]]; eexists _, _; repeat split;
            repeat case_decide; try congruence; cbn; tauto).
Qed.

(** A rejected time expression ends the run with an error, before any URL
    is built or any backend call is made. *)
Lemma rejection_is_final {W} (o : responder W) w env un op request (s e : string) :
  let tr := trace o (registered_handler env un op request) w in
  let res := outcome o (registered_handler env un op request) w in
  In (s, Err e) (parse_calls tr) ->
  s <> ""
  /\ (res = Err (Errorf "invalid start time: " e) \/ res = Err (Errorf "invalid end time: " e))
  /\ build_bounds tr = [] /\ calls_of StepBackend tr = [].
Proof.
  destruct op; unfold_handlers; exec o; cbn.
  all: intuition (try discriminate).
  all: repeat match goal with H : (_, _) = (_, _) |- _ => injection H as ? ?; subst end.
  all: try discriminate; try congruence; auto.
Qed.

(** The limit handed to the query URL builder. *)
Lemma limit_resolution {W} (o : responder W) w env un request (c : call) (L : float64) :
  let tr := trace o (HandleLokiQueryProtocol env un request) w in
  head tr = Some c -> decoded_limit c = Some L ->
  (forall limit, In limit (build_limits tr) ->
     limit = if float64_gt0 L then float64_to_int un L else 100)
  /\ (forallb call_ok (calls_of StepTimeParse tr) = true ->
        build_limits tr = [if float64_gt0 L then float64_to_int un L else 100]).
Proof.
  unfold_handlers; exec o; cbn.
  all: intros [= <-]; cbn; intros [= <-].
  all: split; [intros ? H; cbn in H; intuition congruence | try discriminate; reflexivity].
Qed.

(** The credentials handed to the executor are the resolved ones. *)
Lemma credentials_resolution {W} (o : responder W) w env un op request
    (c : call) (username password token org : string) :
  let tr := trace o (registered_handler env un op request) w in
  head tr = Some c ->
  decoded_credentials c = Some (username, password, token, org) ->
  forall creds, In creds (backend_credentials tr) ->
    creds = (getEnvOrDefault env username EnvLokiUsername "",
             getEnvOrDefault env password EnvLokiPassword "",
             getEnvOrDefault env token EnvLokiToken "",
             getEnvOrDefault env org EnvLokiOrgID "").
Proof.
  destruct op; unfold_handlers; exec o; cbn.
  all: intros [= <-]; cbn; intros [= <- <- <- <-].
  all: intros ? H; cbn in H; intuition congruence.
Qed.

End HandlerFacts.

(** * The claims *)

(** C1: the configuration resolver returns the explicit value when it is
    non-empty, otherwise the value of the named environment variable when
    that is non-empty, otherwise the fallback; in particular an empty
    explicit value with the variable set to E gives E, explicit X with the
    variable set to E gives X, and all empty gives the fallback. *)
Theorem config_precedence (env : string -> string) (explicit envVar fallback : string) :
  (explicit <> "" -> getEnvOrDefault env explicit envVar fallback = explicit)
  /\ (explicit = "" -> env envVar <> "" ->
        getEnvOrDefault env explicit envVar fallback = env envVar)
  /\ (explicit = "" -> env envVar = "" ->
        getEnvOrDefault env explicit envVar fallback = fallback)
  /\ getEnvOrDefault (fun _ => "E") "" envVar fallback = "E"
  /\ getEnvOrDefault (fun _ => "E") "X" envVar fallback = "X"
  /\ getEnvOrDefault (fun _ => "") "" envVar fallback = fallback.
Proof.
  rewrite !getEnvOrDefault_cases.
  repeat split; intros; repeat case_decide; congruence.
Qed.

Lemma config_precedence_witness :
  getEnvOrDefault (fun k => if (k =? "LOKI_URL")%string then "http://loki:3100" else "")
    "" EnvLokiURL DefaultLokiURL = "http://loki:3100".
Proof.
  refine (proj1 (proj2 (config_precedence
    (fun k => if (k =? "LOKI_URL")%string then "http://loki:3100" else "")
    "" EnvLokiURL DefaultLokiURL)) _ _).
  - reflexivity.
  - discriminate.
Defined.

(** C2: for each of the three operations, a request that decodes with the
    start and end arguments [start] and [end_] makes the handler read the
    clock twice, and when the start (respectively end) argument is absent or
    empty the time resolver is not invoked for it: the resolver is only
    handed the non-empty arguments, never the empty string.  The bound
    handed to the URL builder is then the default one: the start is the Unix
    second of one hour before the first clock reading and the end is the
    Unix second of the second clock reading.  Unless the resolver rejects an
    argument the URL builder is called, once; with both arguments absent the
    resolver is not invoked at all and the range is [now - 1 hour, now]. *)
Theorem default_range_when_absent {W} (o : responder W) (w : W)
    (env : string -> string) (un : float64 -> Z) (op : operation)
    (request : CallToolRequest) (start end_ : string) :
  let tr := trace o (registered_handler env un op request) w in
  decoded_range (decode_call o op request w) = Some (start, end_) ->
  head tr = Some (decode_call o op request w)
  /\ exists now1 now2,
       clock_readings tr = [now1; now2]
       /\ ~ In "" (parse_args tr)
       /\ (exists k, (parse_args tr ++ k)%list = supplied start end_)
       /\ (forallb call_ok (calls_of StepTimeParse tr) = true ->
             parse_args tr = supplied start end_
             /\ exists st en, build_bounds tr = [(st, en)])
       /\ (forall st en, In (st, en) (build_bounds tr) ->
             (start = "" -> st = Time_Unix (Time_Add now1 (-1 * Hour))
                            /\ st = Time_Unix now1 - 3600)
             /\ (end_ = "" -> en = Time_Unix now2))
       /\ (start = "" -> end_ = "" ->
             parse_args tr = []
             /\ build_bounds tr = [(Time_Unix now1 - 3600, Time_Unix now2)]).
Proof.
  intros tr Hd.
  pose proof (head_decode_call o w env un op request) as Hc. fold tr in Hc.
  split; [exact Hc|].
  destruct (resolver_invocations o w env un op request _ start end_ Hc Hd)
    as ((k & Hk) & Hall & _ & _ & (now1 & now2 & Hn)).
  destruct (bounds_resolution o w env un op request _ start end_ now1 now2 Hc Hd Hn)
    as (Hb & Hdef).
  fold tr in Hk, Hall, Hn, Hb, Hdef.
  exists now1, now2. split; [exact Hn|].
  assert (Hne : ~ In "" (parse_args tr)).
  { intros Hin. assert (Hs : In "" (supplied start end_)).
    { rewrite <- Hk. apply in_or_app. now left. }
    unfold supplied in Hs. apply filter_In in Hs. now destruct Hs as [_ Hs]. }
  split; [exact Hne|]. split; [now exists k|]. split; [exact Hall|]. split.
  - intros st en Hin. destruct (Hb st en Hin) as (ts & te & -> & -> & Hts & Hte).
    split.
    + intros ->. rewrite decide_True in Hts by reflexivity. subst ts.
      split; [reflexivity | apply Time_Unix_hour_ago].
    + intros ->. rewrite decide_True in Hte by reflexivity. now subst te.
  - intros -> ->. split.
    + cbn in Hk. now destruct (parse_args tr).
    + rewrite Hdef by reflexivity. now rewrite Time_Unix_hour_ago.
Qed.

Lemma default_range_when_absent_witness :
  let o := deployed (example_deployment (example_request "" "" float_5_9)) in
  let tr := example_trace "" "" float_5_9 in
  decoded_range (decode_call o loki_query example_call O) = Some ("", "")
  /\ clock_readings tr = [1700000000250000000; 1700000001250000000]
  /\ parse_args tr = []
  /\ build_bounds tr = [(1699996400, 1700000001)].
Proof.
  intros o tr.
  assert (Hd : decoded_range (decode_call o loki_query example_call O) = Some ("", ""))
    by (vm_compute; reflexivity).
  assert (Hn : clock_readings tr = [1700000000250000000; 1700000001250000000])
    by (vm_compute; reflexivity).
  split; [exact Hd|]. split; [exact Hn|].
  subst o tr.
  pose proof (default_range_when_absent
                (deployed (example_deployment (example_request "" "" float_5_9))) O
                example_env example_unrepresentable loki_query example_call "" "") as H.
  cbv zeta in H.
  specialize (H Hd).
  destruct H as (_ & now1 & now2 & Hn' & _ & _ & _ & _ & H).
  specialize (H eq_refl eq_refl).
  destruct H as (Hp & Hb).
  split; [exact Hp|].
  rewrite Hn in Hn'. injection Hn' as <- <-. exact Hb.
Defined.

(** C3: for each operation, a start or end argument that the time resolver
    rejects is a hard error: the handler returns the error
    [invalid start time: ...] or [invalid end time: ...], no URL is built
    (so no default range is put in its place) and no backend call is made.
    Every non-empty argument does reach the resolver: the start always, the
    end unless the start was already rejected. *)
Theorem invalid_time_is_hard_error {W} (o : responder W) (w : W)
    (env : string -> string) (un : float64 -> Z) (op : operation)
    (request : CallToolRequest) :
  let tr := trace o (registered_handler env un op request) w in
  let res := outcome o (registered_handler env un op request) w in
  (forall s e, In (s, Err e) (parse_calls tr) ->
     s <> ""
     /\ (res = Err (Errorf "invalid start time: " e)
         \/ res = Err (Errorf "invalid end time: " e))
     /\ build_bounds tr = [] /\ calls_of StepBackend tr = [])
  /\ (forall c start end_,
        head tr = Some c -> decoded_range c = Some (start, end_) ->
        (start <> "" -> head (parse_args tr) = Some start)
        /\ (end_ <> "" ->
              In end_ (parse_args tr) \/ exists e, In (start, Err e) (parse_calls tr))).
Proof.
  intros tr res. split.
  - intros s e. apply rejection_is_final.
  - intros c start end_ Hc Hd.
    destruct (resolver_invocations o w env un op request c start end_ Hc Hd)
      as (_ & _ & Hs & He & _).
    now split.
Qed.

Lemma invalid_time_is_hard_error_witness :
  In ("tomorrow", Err "invalid time expression")
     (parse_calls (example_trace "-5m" "tomorrow" float_5_9))
  /\ (example_outcome "-5m" "tomorrow" float_5_9
        = Err (Errorf "invalid start time: " "invalid time expression")
      \/ example_outcome "-5m" "tomorrow" float_5_9
        = Err (Errorf "invalid end time: " "invalid time expression"))
  /\ calls_of StepBackend (example_trace "-5m" "tomorrow" float_5_9) = [].
Proof.
  assert (H : In ("tomorrow", Err "invalid time expression")
                (parse_calls (example_trace "-5m" "tomorrow" float_5_9))).
  { right. left. reflexivity. }
  split; [exact H|].
  destruct (proj1 (invalid_time_is_hard_error
    (deployed (example_deployment (example_request "-5m" "tomorrow" float_5_9))) O
    example_env example_unrepresentable loki_query example_call) _ _ H)
    as (_ & Hres & _ & Hback).
  split; [exact Hres | exact Hback].
Defined.

(** C4: for every reference time T the time resolver gives T on [now]; on
    [-<n><unit>] with a positive integer n it gives T minus n seconds for
    the unit s, minus 60 n seconds for m, minus 3600 n seconds for h and
    minus 86400 n seconds for d (instants are counted in nanoseconds); and
    an input that matches none of the accepted grammars, such as [5m]
    without the leading [-] or [tomorrow], fails with
    [InvalidTimeExpression], while every input of an accepted grammar
    resolves to a time. *)
Theorem resolve_grammars (T : Time) :
  TimeExpr.resolve "now" T = inr T
  /\ (forall n : positive,
        let digits := NilZero.string_of_uint (Pos.to_uint n) in
        TimeExpr.resolve ("-" +:+ digits +:+ "s") T = inr (T - Zpos n * 1000000000)
        /\ TimeExpr.resolve ("-" +:+ digits +:+ "m") T
           = inr (T - Zpos n * 60 * 1000000000)
        /\ TimeExpr.resolve ("-" +:+ digits +:+ "h") T
           = inr (T - Zpos n * 3600 * 1000000000)
        /\ TimeExpr.resolve ("-" +:+ digits +:+ "d") T
           = inr (T - Zpos n * 86400 * 1000000000))
  /\ TimeExpr.resolve "5m" T = inl InvalidTimeExpression
  /\ TimeExpr.resolve "tomorrow" T = inl InvalidTimeExpression
  /\ (forall expr, ~ TimeExpr.matches_grammar expr ->
        TimeExpr.resolve expr T = inl InvalidTimeExpression)
  /\ (forall expr, TimeExpr.matches_grammar expr ->
        exists t, TimeExpr.resolve expr T = inr t).
Proof.
  split; [reflexivity|]. split.
  { intros n digits.
    pose proof (resolve_relative_expr (Npos n) TimeExpr.UnitS T) as Hs.
    pose proof (resolve_relative_expr (Npos n) TimeExpr.UnitM T) as Hm.
    pose proof (resolve_relative_expr (Npos n) TimeExpr.UnitH T) as Hh.
    pose proof (resolve_relative_expr (Npos n) TimeExpr.UnitD T) as Hd.
    unfold TimeExpr.relative_expr in Hs, Hm, Hh, Hd.
    cbn [TimeExpr.unit_suffix TimeExpr.unit_in_seconds N.to_uint Z.of_N] in Hs, Hm, Hh, Hd.
    unfold Second in Hs, Hm, Hh, Hd.
    repeat split.
    - etransitivity; [exact Hs|]. f_equal. lia.
    - etransitivity; [exact Hm|]. f_equal.
    - etransitivity; [exact Hh|]. f_equal.
    - etransitivity; [exact Hd|]. f_equal. }
  split; [reflexivity|]. split; [reflexivity|]. split.
  - intros expr. apply resolve_fails_iff.
  - intros expr Hm. destruct (TimeExpr.resolve expr T) as [f|t] eqn:E; [|now exists t].
    exfalso. assert (Hf : TimeExpr.resolve expr T = inl InvalidTimeExpression).
    { rewrite E. f_equal. unfold TimeExpr.resolve in E.
      destruct (expr =? "now")%string; [discriminate|].
      destruct (TimeExpr.parse_relative expr) as [[? ?]|]; [discriminate|].
      destruct (TimeExpr.parse_rfc3339 expr); [discriminate|]. now injection E as <-. }
    now apply resolve_fails_iff in Hf.
Qed.

Lemma resolve_grammars_witness :
  TimeExpr.resolve "-30s" 1700000000000000000 = inr 1699999970000000000
  /\ TimeExpr.resolve "-15m" 1700000000000000000 = inr 1699999100000000000
  /\ TimeExpr.resolve "-2h" 1700000000000000000 = inr 1699992800000000000
  /\ TimeExpr.resolve "-7d" 1700000000000000000 = inr 1699395200000000000
  /\ ~ TimeExpr.matches_grammar "15m"
  /\ TimeExpr.resolve "15m" 1700000000000000000 = inl InvalidTimeExpression
  /\ TimeExpr.matches_grammar "2023-11-14t22:13:20.5z"
  /\ (exists t, TimeExpr.resolve "2023-11-14t22:13:20.5z" 1700000000000000000 = inr t)
  /\ TimeExpr.resolve "2023-11-14t22:13:20.5z" 1700000000000000000
     = inr 1700000000500000000
  /\ TimeExpr.resolve "2016-12-31T23:59:60Z" 1700000000000000000
     = inr 1483228800000000000.
Proof.
  pose proof (resolve_grammars 1700000000000000000) as (_ & Hrel & _ & _ & Hfail & Hok).
  split; [exact (proj1 (Hrel 30%positive))|].
  split; [exact (proj1 (proj2 (Hrel 15%positive)))|].
  split; [exact (proj1 (proj2 (proj2 (Hrel 2%positive))))|].
  split; [exact (proj2 (proj2 (proj2 (Hrel 7%positive))))|].
  assert (Hno : ~ TimeExpr.matches_grammar "15m").
  { apply (resolve_fails_iff "15m" 0). reflexivity. }
  split; [exact Hno|]. split; [exact (Hfail "15m" Hno)|].
  assert (Hyes : TimeExpr.matches_grammar "2023-11-14t22:13:20.5z").
  { right; right.
    exists {| TimeExpr.ts_year := 2023; TimeExpr.ts_month := 11; TimeExpr.ts_day := 14;
              TimeExpr.ts_lower_t := true;
              TimeExpr.ts_hour := 22; TimeExpr.ts_minute := 13; TimeExpr.ts_second := 20;
              TimeExpr.ts_fraction := "5"; TimeExpr.ts_zone := TimeExpr.ZoneUTC true |}.
    split; [|reflexivity].
    unfold TimeExpr.in_range; cbn; repeat split; (lia || reflexivity). }
  split; [exact Hyes|]. split; [exact (Hok _ Hyes)|].
  split; reflexivity.
Defined.

(** C5: for all three operations, a bound of S seconds since the epoch
    handed to the URL builder appears in the built URL as the decimal
    numeral of S * 1_000_000_000, and that numeral reads back as that
    number of nanoseconds. *)
Theorem built_url_has_nanoseconds (parses : string -> bool)
    (baseURL query label : string) (S E limit : Z) :
  parses baseURL = true ->
  URLBuilder.buildLokiQueryURL parses baseURL query S E limit
    = inr (baseURL +:+ "/loki/api/v1/query_range?query=" +:+ URLBuilder.percent_encode query
             +:+ "&start=" +:+ FormatInt (S * 1000000000)
             +:+ "&end=" +:+ FormatInt (E * 1000000000)
             +:+ "&limit=" +:+ FormatInt limit)
  /\ URLBuilder.buildLokiLabelsURL parses baseURL S E
    = inr (baseURL +:+ "/loki/api/v1/labels?start=" +:+ FormatInt (S * 1000000000)
             +:+ "&end=" +:+ FormatInt (E * 1000000000))
  /\ URLBuilder.buildLokiLabelValuesURL parses baseURL label S E
    = inr (baseURL +:+ "/loki/api/v1/label/" +:+ URLBuilder.percent_encode label
             +:+ "/values?start=" +:+ FormatInt (S * 1000000000)
             +:+ "&end=" +:+ FormatInt (E * 1000000000))
  /\ (forall u, In u [URLBuilder.query_url baseURL query S E limit;
                      URLBuilder.labels_url baseURL S E;
                      URLBuilder.label_values_url baseURL label S E] ->
        URLBuilder.query_param "start" u = Some (FormatInt (S * 1000000000))
        /\ URLBuilder.query_param "end" u = Some (FormatInt (E * 1000000000)))
  /\ ParseInt (FormatInt (S * 1000000000)) = Some (S * 1000000000)
  /\ ParseInt (FormatInt (E * 1000000000)) = Some (E * 1000000000).
Proof.
  intros Hbase.
  unfold URLBuilder.buildLokiQueryURL, URLBuilder.buildLokiLabelsURL,
    URLBuilder.buildLokiLabelValuesURL.
  rewrite Hbase, query_url_string, labels_url_string, label_values_url_string.
  do 3 (split; [reflexivity|]). split.
  - intros u [<-|[<-|[<-|[]]]]; split; reflexivity.
  - split; apply ParseInt_FormatInt.
Qed.

Lemma built_url_has_nanoseconds_witness :
  (fun _ : string => true) "http://localhost:3100" = true
  /\ URLBuilder.buildLokiLabelsURL (fun _ => true) "http://localhost:3100"
       1700000000 1700003600
     = inr "http://localhost:3100/loki/api/v1/labels?start=1700000000000000000&end=1700003600000000000".
Proof.
  split; [reflexivity|].
  exact (proj1 (proj2 (built_url_has_nanoseconds (fun _ => true)
    "http://localhost:3100" "{job=app}" "job" 1700000000 1700003600 100 eq_refl))).
Defined.

(** C6: the outbound request of a backend call carries bearer
    authorization, and nothing of the username and password, whenever the
    token is non-empty; basic authentication when the token is empty and the
    username is not: the header is [Basic] and base64 text that reads back
    as [username:password]; and no authorization header when both are empty.
    The token and username meant are those after precedence resolution: the
    handlers hand the executor the resolved values. *)
Theorem authorization_precedence (url username password token orgID : string) :
  let request := Executor.new_request url username password token orgID in
  (token <> "" ->
     Executor.req_header request !! "Authorization" = Some ("Bearer " +:+ token)
     /\ request = Executor.new_request url "" "" token orgID)
  /\ (token = "" -> username <> "" ->
        exists encoded,
          Executor.req_header request !! "Authorization" = Some ("Basic " +:+ encoded)
          /\ Executor.base64_decode encoded = Some (username +:+ ":" +:+ password))
  /\ (token = "" -> username = "" ->
        Executor.req_header request !! "Authorization" = None)
  /\ (forall (W : Type) (o : responder W) (w : W) env un op call_request c
         (username0 password0 token0 org0 : string) creds,
        head (trace o (registered_handler env un op call_request) w) = Some c ->
        decoded_credentials c = Some (username0, password0, token0, org0) ->
        In creds (backend_credentials (trace o (registered_handler env un op call_request) w)) ->
        creds = (getEnvOrDefault env username0 EnvLokiUsername "",
                 getEnvOrDefault env password0 EnvLokiPassword "",
                 getEnvOrDefault env token0 EnvLokiToken "",
                 getEnvOrDefault env org0 EnvLokiOrgID "")).
Proof.
  cbv zeta. rewrite authorization_lookup.
  split; [|split; [|split]].
  - intros H. rewrite (eqb_empty_false token H). split; [reflexivity|].
    now apply new_request_token.
  - intros -> H. rewrite (eqb_empty_false username) by exact H.
    destruct (basic_reads_back username password) as (encoded & -> & Hdec).
    now exists encoded.
  - now intros -> ->.
  - intros W o w env un op call_request c u0 p0 t0 o0 creds Hc Hd.
    now apply (credentials_resolution o w env un op call_request c u0 p0 t0 o0).
Qed.

Lemma authorization_precedence_witness :
  "secret-token" <> ""
  /\ Executor.req_header
       (Executor.new_request "http://localhost:3100/loki/api/v1/labels"
          "admin" "password" "secret-token" "tenant-1") !! "Authorization"
     = Some "Bearer secret-token"
  /\ "admin" <> ""
  /\ (exists encoded,
        Executor.req_header
          (Executor.new_request "http://localhost:3100/loki/api/v1/labels"
             "admin" "password" "" "tenant-1") !! "Authorization"
        = Some ("Basic " +:+ encoded)
        /\ Executor.base64_decode encoded = Some "admin:password")
  /\ Executor.req_header
       (Executor.new_request "http://localhost:3100/loki/api/v1/labels"
          "admin" "password" "" "tenant-1") !! "Authorization"
     = Some "Basic YWRtaW46cGFzc3dvcmQ="
  /\ Executor.base64_decode "YWRtaW46cGFzc3dvcmQ=" = Some "admin:password".
Proof.
  assert (Ht : "secret-token" <> "") by discriminate.
  assert (Hu : "admin" <> "") by discriminate.
  split; [exact Ht|].
  split; [exact (proj1 (proj1 (authorization_precedence
            "http://localhost:3100/loki/api/v1/labels" "admin" "password" "secret-token"
            "tenant-1") Ht))|].
  split; [exact Hu|].
  split; [exact (proj1 (proj2 (authorization_precedence
            "http://localhost:3100/loki/api/v1/labels" "admin" "password" ""
            "tenant-1")) eq_refl Hu)|].
  split; reflexivity.
Defined.

(** C7: for each of the three operations, a tool invocation succeeds
    exactly when every call of the pipeline (argument decode, time parse,
    URL build, backend call, formatting) succeeded.  If one fails, the
    handler returns an error that carries the failing step's message, and
    the failing call is the last one made: the remaining steps are not run.
    A successful result is exactly one text content block holding the string
    the formatter returned, after all the steps ran in order. *)
Theorem pipeline_fails_fast {W} (o : responder W) (w : W)
    (env : string -> string) (un : float64 -> Z) (op : operation)
    (request : CallToolRequest) :
  let tr := trace o (registered_handler env un op request) w in
  let res := outcome o (registered_handler env un op request) w in
  is_ok res = forallb call_ok tr /\
  match res with
  | Ok r =>
      exists s n, (last tr ≫= call_formatted) = Some s /\
        r = {| Content := [ {| Type_ := "text"; Text := s |} ] |} /\
        List.map call_step tr = steps_of_success n
  | Err msg =>
      exists c e prefix, last tr = Some c /\ call_error c = Some e /\
        msg = prefix +:+ e /\ forallb call_ok (removelast tr) = true
  end.
Proof.
  destruct op; unfold_handlers; exec o; cbn.
  all: split; [reflexivity|].
  all: try (eexists _, _, ""; cbn; repeat split; reflexivity).
  all: try (eexists _, _, _; cbn; repeat split; reflexivity).
  all: try (eexists _, 0%nat; cbn; repeat split; reflexivity).
  all: try (eexists _, 1%nat; cbn; repeat split; reflexivity).
  all: try (eexists _, 2%nat; cbn; repeat split; reflexivity).
Qed.

(** C8: formatting a decoded backend result in [json] mode and parsing the
    produced string back yields the original object, for JSON structures in
    general and for the result objects of the three operations. *)
Theorem json_round_trip :
  (forall v : JSON.value, JSON.parse (JSON.print v) = Some v)
  /\ (forall r : BackendQueryResult,
        Formatter.decode_query_result (Formatter.format_query_json r) = Some r)
  /\ (forall r : BackendLabelsResult,
        Formatter.decode_labels_result (Formatter.format_labels_json r) = Some r)
  /\ (forall r : BackendLabelValuesResult,
        Formatter.decode_labels_result (Formatter.format_labels_json r) = Some r).
Proof.
  split; [apply parse_print|].
  unfold Formatter.decode_query_result, Formatter.format_query_json,
    Formatter.decode_labels_result, Formatter.format_labels_json.
  repeat split; intros r; rewrite parse_print;
    auto using query_result_of_to_json, labels_result_of_to_json.
Qed.

(** C9, as amended: in [loki_query] a limit handed to the URL builder is
    the supplied limit L with its fraction discarded when L > 0 and the
    integer part of L is a 64-bit [int]; for a larger L and for +Inf it is
    what the platform's conversion [int(L)] gives, which the language leaves
    to the implementation; and it is the default 100 when the limit is
    absent, zero, negative or not a number.  The limit raises no error:
    whenever the time arguments are resolved, a URL is built with that
    limit. *)
Theorem limit_default_and_truncation {W} (o : responder W) (w : W)
    (env : string -> string) (un : float64 -> Z) (request : CallToolRequest)
    (L : float64) :
  let tr := trace o (HandleLokiQueryProtocol env un request) w in
  decoded_limit (decode_call o loki_query request w) = Some L ->
  head tr = Some (decode_call o loki_query request w)
  /\ (forall limit, In limit (build_limits tr) ->
        (float64_gt0 L = true -> float64_fits_int L = true -> limit = float64_trunc L)
        /\ (float64_gt0 L = true -> float64_fits_int L = false -> limit = un L)
        /\ (float64_gt0 L = false -> limit = 100)
        /\ (float64_not_positive L = true -> limit = 100))
  /\ (forallb call_ok (calls_of StepTimeParse tr) = true ->
        exists limit, build_limits tr = [limit])
  /\ (forall m e, L = S754_finite false m e ->
        float64_gt0 L = true
        /\ (0 <= e -> float64_trunc L = Zpos m * 2 ^ e)
        /\ (e < 0 -> float64_trunc L * 2 ^ (- e) <= Zpos m
                     < (float64_trunc L + 1) * 2 ^ (- e))
        /\ (float64_fits_int L = true <-> float64_trunc L < 2 ^ 63)).
Proof.
  intros tr Hd.
  pose proof (head_decode_call o w env un loki_query request) as Hc.
  change (registered_handler env un loki_query request)
    with (HandleLokiQueryProtocol env un request) in Hc. fold tr in Hc.
  split; [exact Hc|].
  destruct (limit_resolution o w env un request _ L Hc Hd) as [Hin Hl].
  fold tr in Hin, Hl.
  split; [|split].
  - intros limit Hlim. rewrite (Hin limit Hlim). split; [|split; [|split]].
    + intros Hgt Hfit. now rewrite Hgt, float64_to_int_fits.
    + intros Hgt Hfit. rewrite Hgt. unfold float64_to_int. now rewrite Hfit.
    + now intros ->.
    + intros Hnp. now rewrite (float64_not_positive_gt0 L Hnp).
  - intros Hp. eexists. now apply Hl.
  - intros m e ->. split; [reflexivity|].
    destruct (trunc_pos_spec m e) as [Hpos Hneg].
    split; [exact Hpos|]. split; [exact Hneg|].
    apply float64_fits_int_positive.
Qed.

Lemma limit_default_and_truncation_witness :
  let o := deployed (example_deployment (example_request "" "" float_5_9)) in
  let tr := example_trace "" "" float_5_9 in
  decoded_limit (decode_call o loki_query example_call O) = Some float_5_9
  /\ In 5 (build_limits tr)
  /\ float64_valid float_5_9 = true
  /\ Z.abs (10 * 6642809450371482 - 59 * 2 ^ 50) <= 5
  /\ float64_gt0 float_5_9 = true
  /\ float64_fits_int float_5_9 = true
  /\ 5 = float64_trunc float_5_9.
Proof.
  intros o tr.
  assert (Hd : decoded_limit (decode_call o loki_query example_call O) = Some float_5_9)
    by (vm_compute; reflexivity).
  assert (Hin : In 5 (build_limits tr)) by (vm_compute; left; reflexivity).
  assert (Hv : float64_valid float_5_9 = true) by reflexivity.
  assert (Hnear : Z.abs (10 * 6642809450371482 - 59 * 2 ^ 50) <= 5) by (vm_compute; discriminate).
  assert (Hgt : float64_gt0 float_5_9 = true) by reflexivity.
  assert (Hfit : float64_fits_int float_5_9 = true) by reflexivity.
  repeat (split; [assumption|]).
  subst o tr.
  pose proof (limit_default_and_truncation
                (deployed (example_deployment (example_request "" "" float_5_9))) O
                example_env example_unrepresentable example_call float_5_9) as H.
  cbv zeta in H.
  specialize (H Hd).
  destruct H as (_ & H & _).
  specialize (H 5 Hin).
  destruct H as (H & _).
  exact (H Hgt Hfit).
Defined.

(** C9, the claim as it was written fails: the limit 1e19 is a valid
    float64 greater than zero, its truncation toward zero is 10^19, and the
    handler hands the URL builder the platform's answer for an
    unrepresentable conversion (here the least [int]); no 64-bit [int] is
    the truncated value. *)
Lemma limit_truncation_counterexample :
  float64_valid float_1e19 = true
  /\ float64_gt0 float_1e19 = true
  /\ float64_trunc float_1e19 = 10000000000000000000
  /\ decoded_limit
       (decode_call (deployed (example_deployment (example_request "" "" float_1e19)))
          loki_query example_call O) = Some float_1e19
  /\ build_limits (example_trace "" "" float_1e19) = [-9223372036854775808]
  /\ ~ (forall limit, In limit (build_limits (example_trace "" "" float_1e19)) ->
          limit = float64_trunc float_1e19)
  /\ (forall un : float64 -> Z, MinInt <= un float_1e19 <= MaxInt ->
        float64_to_int un float_1e19 <> float64_trunc float_1e19).
Proof.
  assert (Hb : build_limits (example_trace "" "" float_1e19) = [-9223372036854775808])
    by (vm_compute; reflexivity).
  split; [reflexivity|]. split; [reflexivity|]. split; [reflexivity|].
  split; [vm_compute; reflexivity|]. split; [exact Hb|]. split.
  - intros H. specialize (H (-9223372036854775808)). rewrite Hb in H.
    specialize (H (or_introl eq_refl)). vm_compute in H. discriminate H.
  - intros un Hun.
    change (float64_to_int un float_1e19) with (un float_1e19).
    change (float64_trunc float_1e19) with 10000000000000000000.
    unfold MinInt, MaxInt in Hun. lia.
Qed.

(** C10: for all three operations, every start and end bound handed to the
    URL builder is the whole Unix second of an instant: of the instant the
    resolver returned for a supplied argument, whose sub-second part is
    thereby dropped, or of the default instant.  The nanosecond timestamps
    built from the bounds are multiples of 1_000_000_000. *)
Theorem bounds_are_whole_seconds {W} (o : responder W) (w : W)
    (env : string -> string) (un : float64 -> Z) (op : operation)
    (request : CallToolRequest) (c : call) (start end_ : string) (st en : Z) :
  let tr := trace o (registered_handler env un op request) w in
  head tr = Some c ->
  decoded_range c = Some (start, end_) ->
  In (st, en) (build_bounds tr) ->
  exists ts te : Time,
    (start <> "" -> In (start, Ok ts) (parse_calls tr))
    /\ (end_ <> "" -> In (end_, Ok te) (parse_calls tr))
    /\ st = Time_Unix ts /\ st * Second <= ts < st * Second + Second
    /\ en = Time_Unix te /\ en * Second <= te < en * Second + Second
    /\ URLBuilder.nanoseconds st = st * 1000000000
    /\ URLBuilder.nanoseconds st mod 1000000000 = 0
    /\ URLBuilder.nanoseconds en = en * 1000000000
    /\ URLBuilder.nanoseconds en mod 1000000000 = 0.
Proof.
  intros tr Hc Hd Hin.
  destruct (resolver_invocations o w env un op request c start end_ Hc Hd)
    as (_ & _ & _ & _ & now1 & now2 & Hn).
  destruct (bounds_resolution o w env un op request c start end_ now1 now2 Hc Hd Hn)
    as (Hb & _).
  destruct (Hb st en Hin) as (ts & te & -> & -> & Hts & Hte).
  exists ts, te.
  split; [intros Hs; now rewrite decide_False in Hts by assumption|].
  split; [intros He; now rewrite decide_False in Hte by assumption|].
  split; [reflexivity|]. split; [apply Time_Unix_floor|].
  split; [reflexivity|]. split; [apply Time_Unix_floor|].
  unfold URLBuilder.nanoseconds.
  repeat split; apply Z.mod_mul; lia.
Qed.

Lemma bounds_are_whole_seconds_witness :
  let tr := example_trace "2023-11-14T22:00:00.75Z" "now" float_5_9 in
  let c := Call (call_VerifyAndUnmarshalQuery "{}")
             (Ok (example_request "2023-11-14T22:00:00.75Z" "now" float_5_9)) in
  head tr = Some c
  /\ decoded_range c = Some ("2023-11-14T22:00:00.75Z", "now")
  /\ In (1699999200, 1700000002) (build_bounds tr)
  /\ In ("2023-11-14T22:00:00.75Z", Ok 1699999200750000000) (parse_calls tr)
  /\ exists ts te : Time, 1699999200 = Time_Unix ts /\ 1700000002 = Time_Unix te.
Proof.
  intros tr c.
  assert (Hc : head tr = Some c) by (vm_compute; reflexivity).
  assert (Hd : decoded_range c = Some ("2023-11-14T22:00:00.75Z", "now")) by reflexivity.
  assert (Hb : In (1699999200, 1700000002) (build_bounds tr))
    by (vm_compute; left; reflexivity).
  assert (Hp : In ("2023-11-14T22:00:00.75Z", Ok 1699999200750000000) (parse_calls tr))
    by (vm_compute; left; reflexivity).
  repeat (split; [assumption|]).
  pose proof (bounds_are_whole_seconds
    (deployed (example_deployment (example_request "2023-11-14T22:00:00.75Z" "now" float_5_9))) O
    example_env example_unrepresentable loki_query example_call
    c "2023-11-14T22:00:00.75Z" "now" 1699999200 1700000002) as H.
  cbv zeta in H.
  specialize (H Hc).
  specialize (H Hd).
  specialize (H Hb).
  destruct H as (ts & te & H).
  destruct H as (_ & _ & Hs & _ & He & _).
  exists ts, te. split; assumption.
Defined.

(** * Further properties of the code *)

(** ** The handlers: order of the calls and what is passed along *)

Section HandlerRuns.

(** The shape of every run. *)
Lemma run_order {W} (o : responder W) w env un op request :
  let tr := trace o (registered_handler env un op request) w in
  let res := outcome o (registered_handler env un op request) w in
  (exists n rest, (n <= 2)%nat /\ (List.map call_step tr ++ rest)%list = steps_of_success n)
  /\ ((length (calls_of StepURLBuild tr) <= 1)%nat
      /\ (length (calls_of StepBackend tr) <= 1)%nat
      /\ (length (calls_of StepFormat tr) <= 1)%nat)
  /\ backend_urls tr = oks (build_answers tr)
  /\ (forall c e, head tr = Some c -> call_error c = Some e -> tr = [c] /\ res = Err e)
  /\ (forall c, head tr = Some c -> call_step c = StepDecode).
Proof.
  destruct op; unfold_handlers; exec o; cbn.
  all: split; [first [ exists 0%nat; eexists; split; [lia|reflexivity]
                     | exists 1%nat; eexists; split; [lia|reflexivity]
                     | exists 2%nat; eexists; split; [lia|reflexivity] ] |].
  all: split; [repeat split; lia|].
  all: split; [reflexivity|].
  all: split; [|intros ? [= <-]; reflexivity].
  all: intros ? ? [= <-]; cbn; intros [= <-] || discriminate; split; reflexivity.
Qed.

(** The messages for the time arguments, and the bounds of two resolved
    arguments. *)
Lemma time_messages {W} (o : responder W) w env un op request
    (c : call) (start end_ : string) :
  let tr := trace o (registered_handler env un op request) w in
  let res := outcome o (registered_handler env un op request) w in
  head tr = Some c -> decoded_range c = Some (start, end_) ->
  (forall e, start <> "" -> head (parse_calls tr) = Some (start, Err e) ->
     res = Err (Errorf "invalid start time: " e) /\ parse_calls tr = [(start, Err e)])
  /\ (forall e, start = "" -> head (parse_calls tr) = Some (end_, Err e) ->
        res = Err (Errorf "invalid end time: " e))
  /\ (forall ts e, parse_calls tr = [(start, Ok ts); (end_, Err e)] ->
        res = Err (Errorf "invalid end time: " e))
  /\ (forall s1 s2 ts te, parse_calls tr = [(s1, Ok ts); (s2, Ok te)] ->
        build_bounds tr = [(Time_Unix ts, Time_Unix te)]).
Proof.
  destruct op; unfold_handlers; exec o; cbn.
  all: intros [= <-]; cbn; intros [= <- <-].
  all: repeat split; intros; try discriminate; try congruence.
  all: repeat match goal with H : Some _ = Some _ |- _ => injection H as ?; subst
                         | H : (_ :: _) = (_ :: _) |- _ => injection H as ? ?; subst
                         | H : (_, _) = (_, _) |- _ => injection H as ? ?; subst
                         | H : Ok _ = Ok _ |- _ => injection H as ?; subst
                         | H : Err _ = Err _ |- _ => injection H as ?; subst end.
  all: try discriminate; try congruence; try reflexivity.
Qed.

Lemma getEnvOrDefault_agree env1 env2 value envKey defaultValue :
  (value = "" -> env1 envKey = env2 envKey) ->
  getEnvOrDefault env1 value envKey defaultValue
  = getEnvOrDefault env2 value envKey defaultValue.
Proof.
  intros H. unfold getEnvOrDefault.
  destruct (String.eqb_spec value ""); cbn [negb]; [|reflexivity].
  now rewrite H.
Qed.

(** After a decoded request the clock is read twice, before anything else. *)
Lemma clock_count {W} (o : responder W) w env un op request :
  let tr := trace o (registered_handler env un op request) w in
  forall c, head tr = Some c ->
    call_error c = None ->
    length (clock_readings tr) = 2%nat
    /\ firstn 3 (List.map call_step tr) = [StepDecode; StepClock; StepClock].
Proof.
  destruct op; unfold_handlers; exec o; cbn.
  all: intros ? [= <-]; cbn; intros He; try discriminate He; split; reflexivity.
Qed.

Lemma Time_Unix_close now1 now2 :
  now1 <= now2 ->
  Time_Unix now1 <= Time_Unix now2
  /\ (now2 - now1 < Second -> Time_Unix now2 <= Time_Unix now1 + 1).
Proof.
  intros H. pose proof (Time_Unix_floor now1). pose proof (Time_Unix_floor now2).
  unfold Second in *. split; [|intros ?]; lia.
Qed.

End HandlerRuns.

(** Instantiates the hypothesis [H] on the head of the trace with the first
    call of the run, and decides the answer to that call. *)
Ltac decode_step o w H :=
  match type of H with
  | context [trace o (Vis ?e ?k) w] =>
      let H' := fresh in
      pose proof (fun u n p t g => H _ u n p t g (head_trace_Vis o e k w)) as H';
      clear H; rename H' into H; revert H;
      cbn [run]; destruct (o _ e w) as [[?|?] ?]; [intros H|reflexivity]
  end.

(** X1: when the arguments of a tool call do not decode, each of the three
    handlers returns the decoder's error as it is, without any prefix, and
    makes no other call: the clock is not read and no URL is built. *)
Theorem decode_failure_returned_verbatim {W} (o : responder W) (w : W)
    (env : string -> string) (un : float64 -> Z) (op : operation)
    (request : CallToolRequest) (c : call) (e : error) :
  let tr := trace o (registered_handler env un op request) w in
  let res := outcome o (registered_handler env un op request) w in
  head tr = Some c -> call_error c = Some e ->
  tr = [c] /\ res = Err e /\ call_step c = StepDecode.
Proof.
  intros tr res Hc He.
  destruct (run_order o w env un op request) as (_ & _ & _ & H & Hs).
  destruct (H c e Hc He) as [Htr Hres].
  split; [exact Htr|]. split; [exact Hres|]. now apply Hs.
Qed.

Lemma decode_failure_returned_verbatim_witness :
  let o := deployed (example_deployment (example_request "" "" float_5_9)) in
  let h := registered_handler example_env example_unrepresentable loki_label_names
             example_call in
  let c := Call (call_VerifyAndUnmarshalLabelNames "{}") (Err "unexpected payload") in
  head (trace o h O) = Some c
  /\ call_error c = Some "unexpected payload"
  /\ trace o h O = [c] /\ outcome o h O = Err "unexpected payload".
Proof.
  intros o h c.
  assert (Hc : head (trace o h O) = Some c) by (vm_compute; reflexivity).
  assert (He : call_error c = Some "unexpected payload") by reflexivity.
  split; [exact Hc|]. split; [exact He|].
  pose proof (decode_failure_returned_verbatim o O example_env example_unrepresentable
                loki_label_names example_call c "unexpected payload") as H.
  cbv zeta in H. specialize (H Hc). specialize (H He).
  destruct H as (H1 & H2 & _). split; [exact H1 | exact H2].
Defined.

(** X2: every run of a handler goes through the steps in the order of the
    pipeline (decode, two clock readings, at most two time resolutions, URL
    build, backend call, formatting) and stops somewhere along it; the URL
    is built, the backend called and the result formatted at most once, so
    nothing is retried. *)
Theorem steps_follow_pipeline_order {W} (o : responder W) (w : W)
    (env : string -> string) (un : float64 -> Z) (op : operation)
    (request : CallToolRequest) :
  let tr := trace o (registered_handler env un op request) w in
  (exists n rest, (n <= 2)%nat
     /\ (List.map call_step tr ++ rest)%list = steps_of_success n)
  /\ (length (calls_of StepURLBuild tr) <= 1)%nat
  /\ (length (calls_of StepBackend tr) <= 1)%nat
  /\ (length (calls_of StepFormat tr) <= 1)%nat.
Proof.
  intros tr.
  destruct (run_order o w env un op request) as (H1 & H2 & _).
  split; [exact H1 | exact H2].
Qed.

(** X3: the executor is called exactly when a URL builder returned a URL,
    and with that very URL: the URLs of the backend calls are the successful
    answers of the builders, in order. *)
Theorem backend_called_with_built_url {W} (o : responder W) (w : W)
    (env : string -> string) (un : float64 -> Z) (op : operation)
    (request : CallToolRequest) :
  backend_urls (trace o (registered_handler env un op request) w)
  = oks (build_answers (trace o (registered_handler env un op request) w)).
Proof.
  now destruct (run_order o w env un op request) as (_ & _ & H & _).
Qed.

(** X4: a formatter is called once for every result the executor returned,
    with that result, with the label of the request for
    [loki_label_values], and with the format of the request, or [raw] when
    the request gives none; the format is handed over without any check. *)
Theorem formatter_gets_backend_result {W} (o : responder W) (w : W)
    (env : string -> string) (un : float64 -> Z) (op : operation)
    (request : CallToolRequest) (c : call) (label : option string) (format : string) :
  let tr := trace o (registered_handler env un op request) w in
  head tr = Some c -> decoded_output c = Some (label, format) ->
  format_inputs tr =
    List.map (fun r => (label, r, if decide (format = "") then "raw" else format))
      (oks (backend_answers tr)).
Proof.
  destruct op; unfold_handlers; exec o; cbn.
  all: intros [= <-]; cbn; intros [= <- <-]; repeat case_decide; try congruence; reflexivity.
Qed.

Lemma formatter_gets_backend_result_witness :
  let tr := example_trace "" "" float_5_9 in
  let c := Call (call_VerifyAndUnmarshalQuery "{}") (Ok (example_request "" "" float_5_9)) in
  head tr = Some c
  /\ decoded_output c = Some (None, "json")
  /\ format_inputs tr = [(None, QueryResult example_result, "json")].
Proof.
  intros tr c.
  assert (Hc : head tr = Some c) by (vm_compute; reflexivity).
  assert (Hd : decoded_output c = Some (None, "json")) by reflexivity.
  assert (Hb : oks (backend_answers tr) = [QueryResult example_result])
    by (vm_compute; reflexivity).
  split; [exact Hc|]. split; [exact Hd|].
  pose proof (formatter_gets_backend_result
                (deployed (example_deployment (example_request "" "" float_5_9))) O
                example_env example_unrepresentable loki_query example_call
                c None "json") as H.
  cbv zeta in H. specialize (H Hc). specialize (H Hd).
  unfold tr in *. rewrite Hb in H. exact H.
Defined.

(** X5: the error a handler returns is the message of the call that failed,
    preceded by the text of its step: nothing for the decoder,
    [invalid start time: ] or [invalid end time: ] for the time resolver,
    the operation's own text for the URL builder and for the executor, and
    [failed to format results: ] for the formatter. *)
Theorem failure_message_prefixes {W} (o : responder W) (w : W)
    (env : string -> string) (un : float64 -> Z) (op : operation)
    (request : CallToolRequest) (msg : error) :
  let tr := trace o (registered_handler env un op request) w in
  let res := outcome o (registered_handler env un op request) w in
  res = Err msg ->
  exists c e p, last tr = Some c /\ call_error c = Some e
    /\ In p (error_prefixes op (call_step c)) /\ msg = p +:+ e.
Proof.
  destruct op; unfold_handlers; exec o; cbn.
  all: intros [= <-] || discriminate.
  all: eexists _, _, _; split; [reflexivity|]; split; [reflexivity|]; cbn; unfold Errorf;
    first [ split; [left; reflexivity | reflexivity]
          | split; [right; left; reflexivity | reflexivity] ].
Qed.

Lemma failure_message_prefixes_witness :
  example_outcome "-5m" "tomorrow" float_5_9
    = Err "invalid end time: invalid time expression"
  /\ exists c e p,
       last (example_trace "-5m" "tomorrow" float_5_9) = Some c
       /\ call_error c = Some e
       /\ In p (error_prefixes loki_query (call_step c))
       /\ "invalid end time: invalid time expression" = p +:+ e.
Proof.
  assert (Hr : example_outcome "-5m" "tomorrow" float_5_9
               = Err "invalid end time: invalid time expression")
    by (vm_compute; reflexivity).
  split; [exact Hr|].
  pose proof (failure_message_prefixes
                (deployed (example_deployment (example_request "-5m" "tomorrow" float_5_9))) O
                example_env example_unrepresentable loki_query example_call
                "invalid end time: invalid time expression") as H.
  cbv zeta in H. exact (H Hr).
Defined.

(** X6: the start argument is resolved before the end argument.  If the
    start is rejected the error is [invalid start time: ...] and the end is
    never handed to the resolver, whether it is valid or not; the error is
    [invalid end time: ...] only when the start was absent or resolved. *)
Theorem start_checked_before_end {W} (o : responder W) (w : W)
    (env : string -> string) (un : float64 -> Z) (op : operation)
    (request : CallToolRequest) (c : call) (start end_ : string) :
  let tr := trace o (registered_handler env un op request) w in
  let res := outcome o (registered_handler env un op request) w in
  head tr = Some c -> decoded_range c = Some (start, end_) ->
  (forall e, start <> "" -> head (parse_calls tr) = Some (start, Err e) ->
     res = Err (Errorf "invalid start time: " e) /\ parse_calls tr = [(start, Err e)])
  /\ (forall e, start = "" -> head (parse_calls tr) = Some (end_, Err e) ->
        res = Err (Errorf "invalid end time: " e))
  /\ (forall ts e, parse_calls tr = [(start, Ok ts); (end_, Err e)] ->
        res = Err (Errorf "invalid end time: " e)).
Proof.
  intros tr res Hc Hd.
  destruct (time_messages o w env un op request c start end_ Hc Hd) as (H1 & H2 & H3 & _).
  split; [exact H1|]. split; [exact H2 | exact H3].
Qed.

Lemma start_checked_before_end_witness :
  let tr := example_trace "yesterday" "tomorrow" float_5_9 in
  let c := Call (call_VerifyAndUnmarshalQuery "{}")
             (Ok (example_request "yesterday" "tomorrow" float_5_9)) in
  head tr = Some c
  /\ decoded_range c = Some ("yesterday", "tomorrow")
  /\ "yesterday" <> ""
  /\ head (parse_calls tr) = Some ("yesterday", Err "invalid time expression")
  /\ example_outcome "yesterday" "tomorrow" float_5_9
     = Err (Errorf "invalid start time: " "invalid time expression")
  /\ parse_calls tr = [("yesterday", Err "invalid time expression")].
Proof.
  intros tr c.
  assert (Hc : head tr = Some c) by (vm_compute; reflexivity).
  assert (Hd : decoded_range c = Some ("yesterday", "tomorrow")) by reflexivity.
  assert (Hn : "yesterday" <> "") by discriminate.
  assert (Hp : head (parse_calls tr) = Some ("yesterday", Err "invalid time expression"))
    by (vm_compute; reflexivity).
  split; [exact Hc|]. split; [exact Hd|]. split; [exact Hn|]. split; [exact Hp|].
  pose proof (start_checked_before_end
                (deployed (example_deployment
                   (example_request "yesterday" "tomorrow" float_5_9))) O
                example_env example_unrepresentable loki_query example_call
                c "yesterday" "tomorrow") as H.
  cbv zeta in H. specialize (H Hc). specialize (H Hd).
  destruct H as (H & _). exact (H "invalid time expression" Hn Hp).
Defined.

(** X7: the handlers do not compare the two bounds.  When both arguments
    are resolved, the URL builder is handed the Unix seconds of the two
    instants as they are, also when the end lies before the start. *)
Theorem inverted_range_passes_through {W} (o : responder W) (w : W)
    (env : string -> string) (un : float64 -> Z) (op : operation)
    (request : CallToolRequest) (c : call) (start end_ s1 s2 : string) (ts te : Time) :
  let tr := trace o (registered_handler env un op request) w in
  head tr = Some c -> decoded_range c = Some (start, end_) ->
  parse_calls tr = [(s1, Ok ts); (s2, Ok te)] ->
  build_bounds tr = [(Time_Unix ts, Time_Unix te)].
Proof.
  intros tr Hc Hd.
  destruct (time_messages o w env un op request c start end_ Hc Hd) as (_ & _ & _ & H).
  apply H.
Qed.

Lemma inverted_range_passes_through_witness :
  let tr := example_trace "now" "-1h" float_5_9 in
  let c := Call (call_VerifyAndUnmarshalQuery "{}")
             (Ok (example_request "now" "-1h" float_5_9)) in
  head tr = Some c
  /\ decoded_range c = Some ("now", "-1h")
  /\ parse_calls tr = [("now", Ok 1700000002250000000); ("-1h", Ok 1699996402250000000)]
  /\ build_bounds tr = [(Time_Unix 1700000002250000000, Time_Unix 1699996402250000000)]
  /\ Time_Unix 1699996402250000000 < Time_Unix 1700000002250000000.
Proof.
  intros tr c.
  assert (Hc : head tr = Some c) by (vm_compute; reflexivity).
  assert (Hd : decoded_range c = Some ("now", "-1h")) by reflexivity.
  assert (Hp : parse_calls tr
               = [("now", Ok 1700000002250000000); ("-1h", Ok 1699996402250000000)])
    by (vm_compute; reflexivity).
  split; [exact Hc|]. split; [exact Hd|]. split; [exact Hp|].
  pose proof (inverted_range_passes_through
                (deployed (example_deployment (example_request "now" "-1h" float_5_9))) O
                example_env example_unrepresentable loki_query example_call
                c "now" "-1h" "now" "-1h" 1700000002250000000 1699996402250000000) as H.
  cbv zeta in H. specialize (H Hc). specialize (H Hd). specialize (H Hp).
  split; [exact H|]. vm_compute. reflexivity.
Defined.

(** X8: a handler reads the environment only for the configuration fields
    the request leaves empty, and only the five Loki variables: two
    environments that agree on the variable of every empty field give the
    same run, calls and result alike. *)
Theorem environment_only_for_absent_fields {W} (o : responder W) (w : W)
    (env1 env2 : string -> string) (un : float64 -> Z) (op : operation)
    (request : CallToolRequest) :
  (forall c url username password token org,
     head (trace o (registered_handler env1 un op request) w) = Some c ->
     decoded_url c = Some url ->
     decoded_credentials c = Some (username, password, token, org) ->
     (url = "" -> env1 EnvLokiURL = env2 EnvLokiURL)
     /\ (username = "" -> env1 EnvLokiUsername = env2 EnvLokiUsername)
     /\ (password = "" -> env1 EnvLokiPassword = env2 EnvLokiPassword)
     /\ (token = "" -> env1 EnvLokiToken = env2 EnvLokiToken)
     /\ (org = "" -> env1 EnvLokiOrgID = env2 EnvLokiOrgID)) ->
  run o (registered_handler env1 un op request) w
  = run o (registered_handler env2 un op request) w.
Proof.
  intros H.
  destruct op;
    unfold registered_handler, HandleLokiQueryProtocol, HandleLokiLabelNamesProtocol,
      HandleLokiLabelValuesProtocol, bindE, orErrorf, trigger in *;
    cbn [bind] in *; decode_step o w H;
    cbn [fst] in H;
    destruct (H _ _ _ _ _ eq_refl eq_refl) as (Hu & Hn & Hp & Ht & Ho); clear H;
    cbn [bind];
    rewrite (getEnvOrDefault_agree env1 env2 _ EnvLokiURL _ Hu),
      (getEnvOrDefault_agree env1 env2 _ EnvLokiUsername _ Hn),
      (getEnvOrDefault_agree env1 env2 _ EnvLokiPassword _ Hp),
      (getEnvOrDefault_agree env1 env2 _ EnvLokiToken _ Ht),
      (getEnvOrDefault_agree env1 env2 _ EnvLokiOrgID _ Ho); reflexivity.
Qed.

Lemma environment_only_for_absent_fields_witness :
  let o := deployed (example_deployment explicit_request) in
  loaded_env EnvLokiToken <> example_env EnvLokiToken
  /\ run o (registered_handler example_env example_unrepresentable loki_query example_call) O
     = run o (registered_handler loaded_env example_unrepresentable loki_query example_call) O.
Proof.
  intros o. split; [discriminate|].
  apply (environment_only_for_absent_fields o O example_env loaded_env
           example_unrepresentable loki_query example_call).
  intros c url username password token org Hc Hu Hcr.
  vm_compute in Hc. injection Hc as <-.
  vm_compute in Hu. injection Hu as <-.
  vm_compute in Hcr. injection Hcr as <- <- <- <-.
  repeat split; discriminate.
Defined.

(** X9: once the arguments are decoded, a handler reads the clock twice,
    before it looks at the time arguments: both default bounds are computed
    also when the request gives both a start and an end, and the two
    readings are the second and third call of every such run. *)
Theorem clock_read_twice_before_arguments {W} (o : responder W) (w : W)
    (env : string -> string) (un : float64 -> Z) (op : operation)
    (request : CallToolRequest) (c : call) :
  let tr := trace o (registered_handler env un op request) w in
  head tr = Some c -> call_error c = None ->
  length (clock_readings tr) = 2%nat
  /\ firstn 3 (List.map call_step tr) = [StepDecode; StepClock; StepClock].
Proof.
  intros tr Hc He. exact (clock_count o w env un op request c Hc He).
Qed.

Lemma clock_read_twice_before_arguments_witness :
  let tr := example_trace "now" "-1h" float_5_9 in
  let c := Call (call_VerifyAndUnmarshalQuery "{}")
             (Ok (example_request "now" "-1h" float_5_9)) in
  head tr = Some c
  /\ call_error c = None
  /\ length (clock_readings tr) = 2%nat.
Proof.
  intros tr c.
  assert (Hc : head tr = Some c) by (vm_compute; reflexivity).
  assert (He : call_error c = None) by reflexivity.
  split; [exact Hc|]. split; [exact He|].
  pose proof (clock_read_twice_before_arguments
                (deployed (example_deployment (example_request "now" "-1h" float_5_9))) O
                example_env example_unrepresentable loki_query example_call c) as H.
  cbv zeta in H. specialize (H Hc). specialize (H He). exact (proj1 H).
Defined.

(** X10: the default range is taken from two clock readings, each cut to
    whole seconds.  When the clock does not go back between them the range
    of a request without start and end spans at least 3600 seconds, and at
    most 3601 when the readings are less than a second apart. *)
Theorem default_range_spans_an_hour {W} (o : responder W) (w : W)
    (env : string -> string) (un : float64 -> Z) (op : operation)
    (request : CallToolRequest) (c : call) (now1 now2 : Time) :
  let tr := trace o (registered_handler env un op request) w in
  head tr = Some c -> decoded_range c = Some ("", "") ->
  clock_readings tr = [now1; now2] -> now1 <= now2 ->
  exists st en, build_bounds tr = [(st, en)]
    /\ 3600 <= en - st
    /\ (now2 - now1 < Second -> en - st <= 3601).
Proof.
  intros tr Hc Hd Hn Hle.
  destruct (bounds_resolution o w env un op request c "" "" now1 now2 Hc Hd Hn) as (_ & H).
  specialize (H eq_refl eq_refl). fold tr in H. rewrite Time_Unix_hour_ago in H.
  destruct (Time_Unix_close now1 now2 Hle) as (H1 & H2).
  eexists _, _. split; [exact H|]. split; [lia|]. intros Hs. specialize (H2 Hs). lia.
Qed.

Lemma default_range_spans_an_hour_witness :
  let tr := example_trace "" "" float_5_9 in
  let c := Call (call_VerifyAndUnmarshalQuery "{}") (Ok (example_request "" "" float_5_9)) in
  head tr = Some c
  /\ decoded_range c = Some ("", "")
  /\ clock_readings tr = [1700000000250000000; 1700000001250000000]
  /\ 1700000000250000000 <= 1700000001250000000
  /\ exists st en, build_bounds tr = [(st, en)] /\ 3600 <= en - st.
Proof.
  intros tr c.
  assert (Hc : head tr = Some c) by (vm_compute; reflexivity).
  assert (Hd : decoded_range c = Some ("", "")) by reflexivity.
  assert (Hn : clock_readings tr = [1700000000250000000; 1700000001250000000])
    by (vm_compute; reflexivity).
  assert (Hle : 1700000000250000000 <= 1700000001250000000) by lia.
  split; [exact Hc|]. split; [exact Hd|]. split; [exact Hn|]. split; [exact Hle|].
  pose proof (default_range_spans_an_hour
                (deployed (example_deployment (example_request "" "" float_5_9))) O
                example_env example_unrepresentable loki_query example_call
                c 1700000000250000000 1700000001250000000) as H.
  cbv zeta in H. specialize (H Hc). specialize (H Hd). specialize (H Hn).
  specialize (H Hle). destruct H as (st & en & Hb & Hr & _).
  exists st, en. split; [exact Hb | exact Hr].
Defined.

(** ** The command-line client *)

Section ClientFacts.
Import Client.

Lemma negb_eqb_empty (s : string) : negb (s =? "")%string = true <-> s <> "".
Proof. destruct (String.eqb_spec s ""); cbn; split; congruence. Qed.

Lemma HasPrefix_nonempty s : HasPrefix s "http" = true -> s <> "".
Proof. intros H ->. discriminate H. Qed.

Lemma query_tool_args_lookup lokiURL query start end_ limit org k v :
  query_tool_args lokiURL query start end_ limit org !! k = Some v ->
  (k = "query" /\ v = ArgString query)
  \/ (k = "url" /\ v = ArgString lokiURL /\ lokiURL <> "")
  \/ (k = "start" /\ v = ArgString start /\ start <> "")
  \/ (k = "end" /\ v = ArgString end_ /\ end_ <> "")
  \/ (k = "limit" /\ v = ArgNumber limit /\ float64_gt0 limit = true)
  \/ (k = "org" /\ v = ArgString org /\ org <> "").
Proof.
  unfold query_tool_args.
  destruct (String.eqb_spec lokiURL ""), (String.eqb_spec start ""),
    (String.eqb_spec end_ ""), (float64_gt0 limit) eqn:Hl, (String.eqb_spec org "");
    cbn [negb]; intros H;
    repeat (apply lookup_insert_Some in H; destruct H as [[<- <-]|[_ H]]; [tauto|]);
    apply lookup_singleton_Some in H; destruct H as [<- <-]; tauto.
Qed.

Lemma query_tool_args_query lokiURL query start end_ limit org :
  query_tool_args lokiURL query start end_ limit org !! "query" = Some (ArgString query).
Proof.
  unfold query_tool_args.
  destruct (negb (lokiURL =? "")%string), (negb (start =? "")%string),
    (negb (end_ =? "")%string), (float64_gt0 limit), (negb (org =? "")%string);
    now simplify_map_eq.
Qed.

Lemma query_tool_args_url u query start end_ limit org :
  u <> "" ->
  query_tool_args u query start end_ limit org
  = <["url" := ArgString u]> (query_tool_args "" query start end_ limit org).
Proof.
  intros Hu. unfold query_tool_args. rewrite (proj2 (negb_eqb_empty u) Hu).
  change (negb ("" =? "")%string) with false. cbv iota.
  destruct (negb (start =? "")%string), (negb (end_ =? "")%string),
    (float64_gt0 limit), (negb (org =? "")%string);
    apply map_eq; intros k;
    repeat (rewrite ?lookup_insert; case_decide; subst; try reflexivity; try congruence).
Qed.

Lemma optional_parameters_shift (pf : string -> result float64) c u rest :
  optional_parameters pf (c :: u :: rest) 3 = optional_parameters pf (c :: rest) 2.
Proof. reflexivity. Qed.

(** The tool calls [command] can decide on, by tool. *)
Lemma command_call_cases (pf : string -> result float64) args name toolArgs :
  command pf args = CmdCallTool name toolArgs ->
  (name = "loki_query"
   /\ exists lokiURL query start end_ limit org,
        toolArgs = query_tool_args lokiURL query start end_ limit org
        /\ (lokiURL = "" \/ HasPrefix lokiURL "http" = true))
  \/ (name = "loki_label_names"
      /\ (toolArgs = ∅
          \/ exists u, HasPrefix u "http" = true /\ toolArgs = <["url" := ArgString u]> ∅))
  \/ (name = "loki_label_values"
      /\ exists l, toolArgs = {[ "label" := ArgString l ]}
           \/ exists u, HasPrefix u "http" = true
                /\ toolArgs = <["url" := ArgString u]> {[ "label" := ArgString l ]}).
Proof.
  unfold command.
  destruct (arg_or_empty args 0 =? "loki_query")%string.
  { destruct (length args <? 2)%nat; [discriminate|].
    destruct (HasPrefix (arg_or_empty args 1) "http") eqn:Hp.
    - destruct (length args <? 3)%nat; [discriminate|].
      destruct (optional_parameters pf args 3) as [[[[s e] l] o]|]; [|discriminate].
      intros [= <- <-]. left. split; [reflexivity|]. eexists _, _, _, _, _, _. eauto.
    - destruct (optional_parameters pf args 2) as [[[[s e] l] o]|]; [|discriminate].
      intros [= <- <-]. left. split; [reflexivity|]. eexists _, _, _, _, _, _. eauto. }
  destruct (arg_or_empty args 0 =? "loki_label_names")%string.
  { intros [= <- <-]. right. left. split; [reflexivity|].
    destruct (1 <? length args)%nat; cbn [andb]; [|now left].
    destruct (HasPrefix (arg_or_empty args 1) "http") eqn:Hp; [right; eauto | now left]. }
  destruct (arg_or_empty args 0 =? "loki_label_values")%string.
  { destruct (length args <? 2)%nat; [discriminate|].
    intros [= <- <-]. right. right. split; [reflexivity|].
    exists (arg_or_empty args 1).
    destruct (2 <? length args)%nat; cbn [andb]; [|now left].
    destruct (HasPrefix (arg_or_empty args 2) "http") eqn:Hp; [right; eauto | now left]. }
  destruct (arg_or_empty args 0 =? "list_tools")%string; discriminate.
Qed.

(** The keys of the argument map a tool call carries. *)
Lemma command_call_keys (pf : string -> result float64) args name toolArgs k v :
  command pf args = CmdCallTool name toolArgs -> toolArgs !! k = Some v ->
  In k ["query"; "url"; "start"; "end"; "limit"; "org"; "label"].
Proof.
  intros H Hk. apply command_call_cases in H.
  destruct H as [(-> & u & q & s & e & l & o & -> & _)
                |[(-> & [->|(u & _ & ->)])|(-> & l & [->|(u & _ & ->)])]].
  - apply query_tool_args_lookup in Hk.
    destruct Hk as [(-> & _)|[(-> & _)|[(-> & _)|[(-> & _)|[(-> & _)|(-> & _)]]]]];
      cbn; tauto.
  - now rewrite lookup_empty in Hk.
  - apply lookup_insert_Some in Hk.
    destruct Hk as [[<- _]|[_ Hk]]; [cbn; tauto | now rewrite lookup_empty in Hk].
  - apply lookup_singleton_Some in Hk. destruct Hk as [<- _]. cbn; tauto.
  - apply lookup_insert_Some in Hk. destruct Hk as [[<- _]|[_ Hk]]; [cbn; tauto|].
    apply lookup_singleton_Some in Hk. destruct Hk as [<- _]. cbn; tauto.
Qed.

(** X11: the server URL of the client's configuration is the value of the
    [server-url] flag when that is not empty, else the value of
    [MCP_SERVER_URL] when that is not empty, else
    [http://localhost:8000/mcp]; it is never empty. *)
Theorem load_config_server_url (env : string -> string)
    (flag : list string -> string * list string)
    (atoi : string -> result Z) (args : list string) :
  let cfg := LoadConfigWithArgs env flag atoi args in
  (fst (flag args) <> "" -> ServerURL cfg = fst (flag args))
  /\ (fst (flag args) = "" -> env "MCP_SERVER_URL" <> "" ->
        ServerURL cfg = env "MCP_SERVER_URL")
  /\ (fst (flag args) = "" -> env "MCP_SERVER_URL" = "" ->
        ServerURL cfg = "http://localhost:8000/mcp")
  /\ ServerURL cfg <> "".
Proof.
  cbv zeta. unfold LoadConfigWithArgs.
  destruct (String.eqb_spec (fst (flag args)) "") as [Hf|Hf];
    destruct (String.eqb_spec (env "MCP_SERVER_URL") "") as [He|He];
    destruct (String.eqb_spec (env "LOKI_QUERY_TIMEOUT") "") as [Ht|Ht]; cbn [negb];
    try (destruct (atoi (env "LOKI_QUERY_TIMEOUT")) as [n|?]; [destruct (0 <? n)|]);
    cbn [ServerURL]; repeat split; intros; congruence.
Qed.

Lemma load_config_server_url_witness :
  fst (example_flag_Parse ["list_tools"]) = ""
  /\ long_timeout_env "MCP_SERVER_URL" = ""
  /\ Client.ServerURL
       (Client.LoadConfigWithArgs long_timeout_env example_flag_Parse example_Atoi
          ["list_tools"])
     = "http://localhost:8000/mcp".
Proof.
  split; [reflexivity|]. split; [reflexivity|].
  refine (proj1 (proj2 (proj2
    (load_config_server_url long_timeout_env example_flag_Parse example_Atoi
       ["list_tools"]))) _ _); reflexivity.
Defined.

(** X12: the timeout of the client's configuration is 30 seconds when
    [LOKI_QUERY_TIMEOUT] is empty, is not an integer, or is not positive; it
    is the given number of seconds for every positive value up to
    9223372036. *)
Theorem load_config_timeout (env : string -> string)
    (flag : list string -> string * list string)
    (atoi : string -> result Z) (args : list string) :
  let cfg := LoadConfigWithArgs env flag atoi args in
  let t := env "LOKI_QUERY_TIMEOUT" in
  (t = "" -> Timeout cfg = 30 * Second)
  /\ (forall err, atoi t = Err err -> Timeout cfg = 30 * Second)
  /\ (forall n, atoi t = Ok n -> n <= 0 -> Timeout cfg = 30 * Second)
  /\ (forall n, t <> "" -> atoi t = Ok n -> 0 < n <= 9223372036 ->
        Timeout cfg = n * Second /\ 0 < Timeout cfg).
Proof.
  cbv zeta. unfold LoadConfigWithArgs.
  destruct (String.eqb_spec (fst (flag args)) "") as [Hf|Hf];
    destruct (String.eqb_spec (env "MCP_SERVER_URL") "") as [He|He];
    destruct (String.eqb_spec (env "LOKI_QUERY_TIMEOUT") "") as [Ht|Ht]; cbn [negb].
  all: repeat split; intros; try congruence; try reflexivity.
  all: repeat match goal with
       | H : _ = Ok _ |- _ => rewrite H; clear H
       | H : _ = Err _ |- _ => rewrite H; clear H
       end; cbn [Timeout]; try reflexivity.
  all: try (destruct (Z.ltb_spec 0 n); [lia|reflexivity]).
  all: try (destruct (Z.ltb_spec 0 n); [|lia]; cbn [Timeout]; unfold wrap_int64, Second;
            rewrite Z.mod_small by lia; lia).
Qed.

Lemma load_config_timeout_witness :
  timeout_env "45" "LOKI_QUERY_TIMEOUT" <> ""
  /\ example_Atoi (timeout_env "45" "LOKI_QUERY_TIMEOUT") = Ok 45
  /\ 0 < 45 <= 9223372036
  /\ Client.Timeout
       (Client.LoadConfigWithArgs (timeout_env "45") example_flag_Parse example_Atoi [])
     = 45 * Second.
Proof.
  assert (Ht : timeout_env "45" "LOKI_QUERY_TIMEOUT" <> "") by discriminate.
  assert (Ha : example_Atoi (timeout_env "45" "LOKI_QUERY_TIMEOUT") = Ok 45)
    by (vm_compute; reflexivity).
  assert (Hn : 0 < 45 <= 9223372036) by lia.
  split; [exact Ht|]. split; [exact Ha|]. split; [exact Hn|].
  pose proof (load_config_timeout (timeout_env "45") example_flag_Parse example_Atoi [])
    as H.
  cbv zeta in H. destruct H as (_ & _ & _ & H).
  exact (proj1 (H 45 Ht Ha Hn)).
Defined.

(** X13: the product [time.Duration(timeoutSecs) * time.Second] is taken
    in 64 bits: for every [LOKI_QUERY_TIMEOUT] from 9223372037 to
    18446744073 seconds the timeout of the configuration is negative, the
    product less 2^64. *)
Theorem load_config_timeout_overflow (env : string -> string)
    (flag : list string -> string * list string)
    (atoi : string -> result Z) (args : list string) (n : Z) :
  env "LOKI_QUERY_TIMEOUT" <> "" ->
  atoi (env "LOKI_QUERY_TIMEOUT") = Ok n ->
  9223372037 <= n <= 18446744073 ->
  Timeout (LoadConfigWithArgs env flag atoi args) = n * Second - 2 ^ 64
  /\ Timeout (LoadConfigWithArgs env flag atoi args) < 0.
Proof.
  intros Ht Ha Hn. unfold LoadConfigWithArgs. rewrite Ha.
  rewrite (proj2 (negb_eqb_empty _) Ht).
  destruct (Z.ltb_spec 0 n); [|lia].
  assert (E : wrap_int64 (n * Second) = n * Second - 2 ^ 64).
  { unfold wrap_int64, Second.
    replace (n * 1000000000 + 2 ^ 63) with ((n * 1000000000 - 2 ^ 63) + 1 * 2 ^ 64) by lia.
    rewrite Z.mod_add by lia. rewrite Z.mod_small by lia. lia. }
  destruct (negb _), (negb _); cbn [Timeout]; rewrite E; unfold Second; lia.
Qed.

Lemma load_config_timeout_overflow_witness :
  long_timeout_env "LOKI_QUERY_TIMEOUT" <> ""
  /\ example_Atoi (long_timeout_env "LOKI_QUERY_TIMEOUT") = Ok 9223372037
  /\ 9223372037 <= 9223372037 <= 18446744073
  /\ Client.Timeout
       (Client.LoadConfigWithArgs long_timeout_env example_flag_Parse example_Atoi [])
     = -9223372036709551616.
Proof.
  assert (Ht : long_timeout_env "LOKI_QUERY_TIMEOUT" <> "") by discriminate.
  assert (Ha : example_Atoi (long_timeout_env "LOKI_QUERY_TIMEOUT") = Ok 9223372037)
    by (vm_compute; reflexivity).
  assert (Hn : 9223372037 <= 9223372037 <= 18446744073) by lia.
  split; [exact Ht|]. split; [exact Ha|]. split; [exact Hn|].
  exact (proj1 (load_config_timeout_overflow long_timeout_env example_flag_Parse
                  example_Atoi [] 9223372037 Ht Ha Hn)).
Defined.

(** X14: every tool call the client decides on names one of the three
    registered tools, and its argument map fits that tool's request
    structure: every key is a [json] tag of the structure and holds a value
    of the field's kind, and the field without [omitempty] ([query],
    [label]) is present. *)
Theorem client_arguments_match_schema (pf : string -> result float64)
    (args : list string) (name : string) (toolArgs : gmap string tool_arg) :
  command pf args = CmdCallTool name toolArgs ->
  exists op, name = tool_name op
    /\ (forall k v, toolArgs !! k = Some v -> In (k, arg_kind v) (request_fields op))
    /\ (op = loki_query -> exists q, toolArgs !! "query" = Some (ArgString q))
    /\ (op = loki_label_values -> exists l, toolArgs !! "label" = Some (ArgString l)).
Proof.
  intros H. apply command_call_cases in H.
  destruct H as [(-> & u & q & s & e & l & o & -> & _)
                |[(-> & [->|(u & _ & ->)])|(-> & l & [->|(u & _ & ->)])]].
  - exists loki_query. split; [reflexivity|]. split; [|split; [|discriminate]].
    + intros k v H. apply query_tool_args_lookup in H.
      destruct H as [(-> & ->)|[(-> & -> & _)|[(-> & -> & _)|[(-> & -> & _)|
                    [(-> & -> & _)|(-> & -> & _)]]]]]; cbn; tauto.
    + intros _. eexists. apply query_tool_args_query.
  - exists loki_label_names. split; [reflexivity|]. split; [|split; discriminate].
    intros k v H. now rewrite lookup_empty in H.
  - exists loki_label_names. split; [reflexivity|]. split; [|split; discriminate].
    intros k v H. apply lookup_insert_Some in H.
    destruct H as [[<- <-]|[_ H]]; [cbn; tauto | now rewrite lookup_empty in H].
  - exists loki_label_values. split; [reflexivity|]. split; [|split; [discriminate|]].
    + intros k v H. apply lookup_singleton_Some in H. destruct H as [<- <-]. cbn; tauto.
    + intros _. eexists. apply lookup_singleton_eq.
  - exists loki_label_values. split; [reflexivity|]. split; [|split; [discriminate|]].
    + intros k v H. apply lookup_insert_Some in H.
      destruct H as [[<- <-]|[_ H]]; [cbn; tauto|].
      apply lookup_singleton_Some in H. destruct H as [<- <-]. cbn; tauto.
    + intros _. eexists. rewrite lookup_insert_ne by discriminate. apply lookup_singleton_eq.
Qed.

Lemma client_arguments_match_schema_witness :
  Client.command example_ParseFloat ["loki_query"; "{job=app}"; "-1h"; "now"; "5.9"]
  = Client.CmdCallTool "loki_query"
      (Client.query_tool_args "" "{job=app}" "-1h" "now" float_5_9 "")
  /\ exists op, "loki_query" = tool_name op
       /\ (forall k v,
             Client.query_tool_args "" "{job=app}" "-1h" "now" float_5_9 "" !! k = Some v ->
             In (k, Client.arg_kind v) (request_fields op))
       /\ (op = loki_query ->
             exists q, Client.query_tool_args "" "{job=app}" "-1h" "now" float_5_9 ""
                         !! "query" = Some (Client.ArgString q))
       /\ (op = loki_label_values ->
             exists l, Client.query_tool_args "" "{job=app}" "-1h" "now" float_5_9 ""
                         !! "label" = Some (Client.ArgString l)).
Proof.
  assert (Hc : Client.command example_ParseFloat
                 ["loki_query"; "{job=app}"; "-1h"; "now"; "5.9"]
               = Client.CmdCallTool "loki_query"
                   (Client.query_tool_args "" "{job=app}" "-1h" "now" float_5_9 ""))
    by reflexivity.
  split; [exact Hc|].
  exact (client_arguments_match_schema example_ParseFloat _ _ _ Hc).
Defined.



(** X16: the client never sends credentials or an output format: no
    argument map has a [username], [password], [token] or [format] key, so
    for a request of this client the server resolves the credentials from
    its own environment and formats as [raw]. *)
Theorem client_never_sends_credentials (pf : string -> result float64)
    (args : list string) (name : string) (toolArgs : gmap string tool_arg) (k : string) :
  command pf args = CmdCallTool name toolArgs ->
  In k ["username"; "password"; "token"; "format"] ->
  toolArgs !! k = None.
Proof.
  intros H Hk. destruct (toolArgs !! k) as [v|] eqn:E; [|reflexivity].
  pose proof (command_call_keys pf args name toolArgs k v H E) as Hin.
  cbn in Hk, Hin. intuition congruence.
Qed.

Lemma client_never_sends_credentials_witness :
  Client.command example_ParseFloat
    ["loki_query"; "http://loki:3100"; "{job=app}"; "-1h"; "now"; "5.9"; "tenant-1"; "admin"]
  = Client.CmdCallTool "loki_query"
      (Client.query_tool_args "http://loki:3100" "{job=app}" "-1h" "now" float_5_9
         "tenant-1")
  /\ In "username" ["username"; "password"; "token"; "format"]
  /\ Client.query_tool_args "http://loki:3100" "{job=app}" "-1h" "now" float_5_9 "tenant-1"
       !! "username" = None.
Proof.
  assert (Hc : Client.command example_ParseFloat
                 ["loki_query"; "http://loki:3100"; "{job=app}"; "-1h"; "now"; "5.9";
                  "tenant-1"; "admin"]
               = Client.CmdCallTool "loki_query"
                   (Client.query_tool_args "http://loki:3100" "{job=app}" "-1h" "now"
                      float_5_9 "tenant-1"))
    by reflexivity.
  assert (Hk : In "username" ["username"; "password"; "token"; "format"])
    by (left; reflexivity).
  split; [exact Hc|]. split; [exact Hk|].
  exact (client_never_sends_credentials example_ParseFloat _ _ _ "username" Hc Hk).
Defined.

(** X17: for [loki_query], putting a URL in front of the query shifts the
    optional parameters by one position and changes nothing else: the
    decision is the one for the command line without the URL, with the URL
    added to the argument map of a tool call. *)
Theorem url_argument_shifts_positions (pf : string -> result float64)
    (u q : string) (rest : list string) :
  HasPrefix u "http" = true ->
  HasPrefix q "http" = false ->
  command pf ("loki_query" :: u :: q :: rest) =
    match command pf ("loki_query" :: q :: rest) with
    | CmdCallTool name toolArgs => CmdCallTool name (<["url" := ArgString u]> toolArgs)
    | other => other
    end.
Proof.
  intros Hu Hq. unfold command.
  cbn [arg_or_empty lookup list_lookup length Nat.ltb Nat.leb].
  change ("loki_query" =? "loki_query")%string with true. cbv iota.
  rewrite Hu, Hq. rewrite optional_parameters_shift.
  destruct (optional_parameters pf ("loki_query" :: q :: rest) 2) as [[[[s e] l] o]|];
    [|reflexivity].
  f_equal. apply query_tool_args_url. now apply HasPrefix_nonempty.
Qed.

Lemma url_argument_shifts_positions_witness :
  Client.HasPrefix "http://loki:3100" "http" = true
  /\ Client.HasPrefix "{job=app}" "http" = false
  /\ Client.command example_ParseFloat
       ["loki_query"; "http://loki:3100"; "{job=app}"; "-1h"; "now"; "5.9"]
     = match Client.command example_ParseFloat
               ["loki_query"; "{job=app}"; "-1h"; "now"; "5.9"] with
       | Client.CmdCallTool name toolArgs =>
           Client.CmdCallTool name
             (<["url" := Client.ArgString "http://loki:3100"]> toolArgs)
       | other => other
       end.
Proof.
  assert (Hu : Client.HasPrefix "http://loki:3100" "http" = true) by reflexivity.
  assert (Hq : Client.HasPrefix "{job=app}" "http" = false) by reflexivity.
  split; [exact Hu|]. split; [exact Hq|].
  exact (url_argument_shifts_positions example_ParseFloat "http://loki:3100" "{job=app}"
           ["-1h"; "now"; "5.9"] Hu Hq).
Defined.

(** X18: for [loki_query] the prefix [http] of the first argument alone
    decides whether it is the URL.  A query that begins with [http] is taken
    as the URL: alone it ends the client with the missing-query message, and
    followed by other arguments the next one is sent as the query.  Without
    the prefix the first argument is the query and no URL is sent. *)
Theorem http_prefix_decides_url (pf : string -> result float64) (a1 : string)
    (rest : list string) (name : string) (toolArgs : gmap string tool_arg) :
  (HasPrefix a1 "http" = true -> command pf ["loki_query"; a1] = CmdExit QueryMissingAfterURL)
  /\ (command pf ("loki_query" :: a1 :: rest) = CmdCallTool name toolArgs ->
        if HasPrefix a1 "http"
        then toolArgs !! "url" = Some (ArgString a1)
             /\ toolArgs !! "query" = Some (ArgString (arg_or_empty rest 0))
        else toolArgs !! "url" = None
             /\ toolArgs !! "query" = Some (ArgString a1)).
Proof.
  split.
  - intros Hp. unfold command. cbn [arg_or_empty lookup list_lookup length Nat.ltb Nat.leb].
    change ("loki_query" =? "loki_query")%string with true. cbv iota. now rewrite Hp.
  - unfold command. cbn [arg_or_empty lookup list_lookup length Nat.ltb Nat.leb].
    change ("loki_query" =? "loki_query")%string with true. cbv iota.
    destruct (HasPrefix a1 "http") eqn:Hp.
    + destruct rest as [|a2 rest]; [discriminate|].
      cbn [length Nat.leb lookup list_lookup].
      destruct (optional_parameters pf _ 3) as [[[[s e] l] o]|]; [|discriminate].
      intros [= <- <-]. split; [|apply query_tool_args_query].
      rewrite query_tool_args_url by now apply HasPrefix_nonempty.
      apply lookup_insert_eq.
    + destruct (optional_parameters pf _ 2) as [[[[s e] l] o]|]; [|discriminate].
      intros [= <- <-]. split; [|apply query_tool_args_query].
      destruct (query_tool_args "" a1 s e l o !! "url") as [v|] eqn:E; [|reflexivity].
      apply query_tool_args_lookup in E.
      destruct E as [(? & ?)|[(_ & _ & ?)|[(? & ?)|[(? & ?)|[(? & ?)|(? & ?)]]]]];
        congruence.
Qed.

Lemma http_prefix_decides_url_witness :
  Client.HasPrefix "http_requests" "http" = true
  /\ Client.command example_ParseFloat ["loki_query"; "http_requests"]
     = Client.CmdExit Client.QueryMissingAfterURL.
Proof.
  assert (Hp : Client.HasPrefix "http_requests" "http" = true) by reflexivity.
  split; [exact Hp|].
  exact (proj1 (http_prefix_decides_url example_ParseFloat "http_requests" [] "" ∅) Hp).
Defined.

(** X19: positional arguments beyond the seventh are never looked at:
    appending anything to a command line of seven or more positional
    arguments leaves the decision unchanged. *)
Theorem surplus_arguments_ignored (pf : string -> result float64)
    (args extra : list string) :
  (7 <= length args)%nat ->
  command pf (args ++ extra) = command pf args.
Proof.
  intros H.
  destruct args as [|a0 [|a1 [|a2 [|a3 [|a4 [|a5 [|a6 rest]]]]]]];
    cbn [length] in H; try lia.
  reflexivity.
Qed.

Lemma surplus_arguments_ignored_witness :
  (7 <= length ["loki_query"; "http://loki:3100"; "{job=app}"; "-1h"; "now"; "5.9";
                "tenant-1"])%nat
  /\ Client.command example_ParseFloat
       (["loki_query"; "http://loki:3100"; "{job=app}"; "-1h"; "now"; "5.9"; "tenant-1"]
        ++ ["json"; "admin"])
     = Client.command example_ParseFloat
         ["loki_query"; "http://loki:3100"; "{job=app}"; "-1h"; "now"; "5.9"; "tenant-1"].
Proof.
  assert (H : (7 <= length ["loki_query"; "http://loki:3100"; "{job=app}"; "-1h"; "now";
                            "5.9"; "tenant-1"])%nat) by (cbn; lia).
  split; [exact H|].
  exact (surplus_arguments_ignored example_ParseFloat _ ["json"; "admin"] H).
Defined.

(** X20: [main] does not use the timeout of the configuration: what it
    does depends on the environment through [MCP_SERVER_URL] only, so
    [LOKI_QUERY_TIMEOUT] has no effect on the client. *)
Theorem main_ignores_timeout_setting (env1 env2 : string -> string)
    (flag : list string -> string * list string) (atoi : string -> result Z)
    (pf : string -> result float64) (nt nc : string -> option error)
    (jm : gmap string tool_arg -> result RawArguments) (osArgs : list string) :
  env1 "MCP_SERVER_URL" = env2 "MCP_SERVER_URL" ->
  main env1 flag atoi pf nt nc jm osArgs = main env2 flag atoi pf nt nc jm osArgs.
Proof.
  intros He.
  assert (Hs : ServerURL (LoadConfigWithArgs env1 flag atoi osArgs)
               = ServerURL (LoadConfigWithArgs env2 flag atoi osArgs)).
  { unfold LoadConfigWithArgs. rewrite He.
    destruct (negb (env2 "MCP_SERVER_URL" =? "")%string),
      (negb (fst (flag osArgs) =? "")%string).
    all: destruct (negb (env1 "LOKI_QUERY_TIMEOUT" =? "")%string);
      [destruct (atoi (env1 "LOKI_QUERY_TIMEOUT")) as [n|]; [destruct (0 <? n)|]|].
    all: destruct (negb (env2 "LOKI_QUERY_TIMEOUT" =? "")%string);
      [destruct (atoi (env2 "LOKI_QUERY_TIMEOUT")) as [m|]; [destruct (0 <? m)|]|].
    all: reflexivity. }
  unfold main. now rewrite Hs.
Qed.

Lemma main_ignores_timeout_setting_witness :
  timeout_env "5" "MCP_SERVER_URL" = timeout_env "600" "MCP_SERVER_URL"
  /\ Client.main (timeout_env "5") example_flag_Parse example_Atoi example_ParseFloat
       example_reachable example_reachable example_Marshal ["loki_label_names"]
     = Client.main (timeout_env "600") example_flag_Parse example_Atoi example_ParseFloat
         example_reachable example_reachable example_Marshal ["loki_label_names"].
Proof.
  assert (He : timeout_env "5" "MCP_SERVER_URL" = timeout_env "600" "MCP_SERVER_URL")
    by reflexivity.
  split; [exact He|].
  exact (main_ignores_timeout_setting (timeout_env "5") (timeout_env "600")
           example_flag_Parse example_Atoi example_ParseFloat example_reachable
           example_reachable example_Marshal ["loki_label_names"] He).
Defined.

(** X21: [main] connects before it looks at the command.  Without
    positional arguments it prints the usage and exits; with any, a failure
    to create the transport or the client ends it with that error, also for
    a command line that would only have printed a usage message. *)
Theorem main_connects_before_command (env : string -> string)
    (flag : list string -> string * list string) (atoi : string -> result Z)
    (pf : string -> result float64) (nt nc : string -> option error)
    (jm : gmap string tool_arg -> result RawArguments) (osArgs : list string) :
  let server := ServerURL (LoadConfigWithArgs env flag atoi osArgs) in
  (snd (flag osArgs) = [] -> main env flag atoi pf nt nc jm osArgs = Exit Usage)
  /\ (forall err, snd (flag osArgs) <> [] -> nt server = Some err ->
        main env flag atoi pf nt nc jm osArgs
        = Fatal ("Failed to create transport client: " +:+ err))
  /\ (forall err, snd (flag osArgs) <> [] -> nt server = None -> nc server = Some err ->
        main env flag atoi pf nt nc jm osArgs
        = Fatal ("Failed to create MCP client: " +:+ err)).
Proof.
  cbv zeta. unfold main. repeat split.
  - now intros ->.
  - intros err Ha ->. now destruct (snd (flag osArgs)).
  - intros err Ha -> ->. now destruct (snd (flag osArgs)).
Qed.

Lemma main_connects_before_command_witness :
  snd (example_flag_Parse ["no_such_command"]) <> []
  /\ Client.command example_ParseFloat ["no_such_command"] = Client.CmdExit Client.Usage
  /\ Client.main long_timeout_env example_flag_Parse example_Atoi example_ParseFloat
       example_unreachable example_reachable example_Marshal ["no_such_command"]
     = Client.Fatal "Failed to create transport client: connection refused".
Proof.
  assert (Ha : snd (example_flag_Parse ["no_such_command"]) <> []) by discriminate.
  split; [exact Ha|]. split; [reflexivity|].
  pose proof (main_connects_before_command long_timeout_env example_flag_Parse example_Atoi
                example_ParseFloat example_unreachable example_reachable example_Marshal
                ["no_such_command"]) as H.
  cbv zeta in H. destruct H as (_ & H & _).
  exact (H "connection refused" Ha eq_refl).
Defined.

End ClientFacts.

(** ** The server's start-up *)

Section ServerFacts.
Import Server.

(** X22: the start-up log of the server shows the password and the token
    of the environment only as set or not set: two environments that differ
    only in the values of [LOKI_PASSWORD] and [LOKI_TOKEN], each set in both
    or in neither, give the same log lines and the same listen address. *)
Theorem startup_log_masks_secrets (env1 env2 : string -> string) :
  (forall k, k <> "LOKI_PASSWORD" -> k <> "LOKI_TOKEN" -> env1 k = env2 k) ->
  (env1 "LOKI_PASSWORD" = "" <-> env2 "LOKI_PASSWORD" = "") ->
  (env1 "LOKI_TOKEN" = "" <-> env2 "LOKI_TOKEN" = "") ->
  startup_log env1 = startup_log env2 /\ addr env1 = addr env2.
Proof.
  intros H Hp Ht. unfold startup_log, addr, host, port.
  rewrite !(H "PORT"), !(H "HOST"), !(H "LOKI_URL"), !(H "LOKI_ORG_ID"),
    !(H "LOKI_USERNAME") by discriminate.
  destruct (String.eqb_spec (env1 "LOKI_PASSWORD") ""),
    (String.eqb_spec (env2 "LOKI_PASSWORD") ""),
    (String.eqb_spec (env1 "LOKI_TOKEN") ""),
    (String.eqb_spec (env2 "LOKI_TOKEN") ""); try tauto; split; reflexivity.
Qed.

Lemma startup_log_masks_secrets_witness :
  loaded_env "LOKI_PASSWORD" <> rotated_env "LOKI_PASSWORD"
  /\ loaded_env "LOKI_TOKEN" <> rotated_env "LOKI_TOKEN"
  /\ Server.startup_log loaded_env = Server.startup_log rotated_env.
Proof.
  split; [discriminate|]. split; [discriminate|].
  refine (proj1 (startup_log_masks_secrets loaded_env rotated_env _ _ _)).
  - intros k Hp Ht. unfold rotated_env.
    destruct (String.eqb_spec k "LOKI_PASSWORD"); [contradiction|].
    destruct (String.eqb_spec k "LOKI_TOKEN"); [contradiction|]. reflexivity.
  - split; discriminate.
  - split; discriminate.
Defined.

End ServerFacts.
